(** * SNAP FASTA reader and writer (SNAPLib/FASTA.cpp)

    A shallow embedding of [ReadFASTAGenome], [AppendFASTAGenome] and
    [FindFASTATagValue], and the properties of the loader that the
    design document states.

    Conventions of the embedding:
    - a [char] is an [ascii]; a character buffer is a [list ascii]; the end
      of the list plays the part of the terminating NUL that [fgets] and
      [memcpy]-then-terminate leave behind, and a NUL inside the list ends
      the C string earlier, as it does for [strlen], [strchr] and [strstr];
    - a pointer into [lineBuffer] is its offset, a [nat];
    - lengths and the padding size are [nat]; the [unsigned] and [size_t]
      arithmetic of the size estimate is on [Z] with the wrap-around written
      out ([wrap32], [wrap64]);
    - [soft_exit] ends the run: the loader returns [Exited] with the state
      it had reached; [return NULL] is [Null]. *)

From Stdlib Require Import ZArith Ascii String List Lia Bool.
From stdpp Require Import base option list gmap strings.
Import ListNotations.

Local Open Scope nat_scope.

(** ** Characters *)

Definition NUL : ascii := "000"%char.
Definition LF : ascii := "010"%char.
Definition CR : ascii := "013"%char.
Definition TAB : ascii := "009"%char.

Definition txt (s : string) : list ascii := list_ascii_of_string s.

(** [toupper] in the C locale: the letters a to z move down by 32. *)
Definition toupper (c : ascii) : ascii :=
  let n := nat_of_ascii c in
  if (97 <=? n) && (n <=? 122) then ascii_of_nat (n - 32) else c.

Definition ascii_eqb (a b : ascii) : bool := Ascii.eqb a b.

(** ** C strings *)

(** The C string that starts at the beginning of a buffer. *)
Fixpoint cstr (buf : list ascii) : list ascii :=
  match buf with
  | [] => []
  | c :: rest => if ascii_eqb c NUL then [] else c :: cstr rest
  end.

Definition strlen (buf : list ascii) : nat := length (cstr buf).

(** [buf[i]]; positions from the end of the list on read as NUL. *)
Definition charAt (buf : list ascii) (i : nat) : ascii := nth i buf NUL.

(** Offset of the first [c] in a NUL-free text. *)
Fixpoint index_of (c : ascii) (s : list ascii) : option nat :=
  match s with
  | [] => None
  | d :: rest => if ascii_eqb d c then Some 0 else S <$> index_of c rest
  end.

(** [strchr(buf + from, c)] as an offset into [buf]; [None] is NULL.  The
    search reads the C string that starts at [buf + from], which lies behind
    the terminator of the string at [buf] when [from] is beyond it. *)
Definition strchr_from (from : nat) (buf : list ascii) (c : ascii) : option nat :=
  (fun i => from + i) <$> index_of c (cstr (drop from buf)).

Definition strchr (buf : list ascii) (c : ascii) : option nat :=
  strchr_from 0 buf c.

Fixpoint is_prefix (needle s : list ascii) : bool :=
  match needle, s with
  | [], _ => true
  | _ :: _, [] => false
  | a :: needle', b :: s' => ascii_eqb a b && is_prefix needle' s'
  end.

(** Offset of the first occurrence of [needle] in a NUL-free text. *)
Fixpoint find_sub (needle s : list ascii) : option nat :=
  match s with
  | [] => if is_prefix needle [] then Some 0 else None
  | _ :: rest => if is_prefix needle s then Some 0 else S <$> find_sub needle rest
  end.

(** [strstr(buf + from, needle)] as an offset into [buf]. *)
Definition strstr_from (from : nat) (buf needle : list ascii) : option nat :=
  if from <=? strlen buf
  then (fun i => from + i) <$> find_sub (cstr needle) (drop from (cstr buf))
  else None.

(** ** Line reading *)

(** Modelled from the spec: [reallocatingFgets] is the line-reading primitive
    of Util.cpp; each call returns the next line of the stream, its newline
    included, in a buffer grown to fit, and NULL at the end of the stream.
    [fileLines] is the sequence of buffers that successive calls return for a
    stream with the given content. *)
Fixpoint fileLines (content : list ascii) : list (list ascii) :=
  match content with
  | [] => []
  | c :: rest =>
      if ascii_eqb c LF then [c] :: fileLines rest
      else match fileLines rest with
           | [] => [[c]]
           | line :: lines => (c :: line) :: lines
           end
  end.

(** Modelled from the spec: [QueryFileSize] is the file-size primitive; it
    returns the number of bytes of the file. *)
Definition QueryFileSize (content : list ascii) : Z := Z.of_nat (length content).

(** [lineBuffer[0] == '>'] *)
Definition isHeaderLine (lineBuffer : list ascii) : bool :=
  ascii_eqb (charAt lineBuffer 0) ">"%char.

(** ** Messages and outcomes *)

(** One constructor per [WriteErrorMessage] call of the file, and one for the
    sink's refusal of data beyond its capacity. *)
Inductive Message :=
| MsgCannotOpenChrMap (chrMapFilename : string)
| MsgCannotOpenFASTA (fileName : string)
| MsgTagNotFound (chrTag contig : list ascii)
| MsgBadlyFormattedTag (tag contig : list ascii)
| MsgNoContigName
| MsgInvalidBase (c : ascii) (line : list ascii)
| MsgGenomeFull
| MsgNotFollowed.     (* no message of the source: marks a run that has
                         read behind the line in its buffer, which the
                         embedding does not follow further *)

Definition isInvalidBaseWarning (m : Message) : bool :=
  match m with MsgInvalidBase _ _ => true | _ => false end.

(** ** FindFASTATagValue *)

Inductive TagResult :=
| TagValue (pTagValue : nat) (pValueLength : nat)   (* return true *)
| TagAbsent                                         (* return false *)
| TagExit (m : Message)                             (* soft_exit(1) *)
| TagLoopsOn                                        (* fuel of the model spent *)
| TagBehindBuffer.      (* the value pointer lies behind the line and its
                           terminator: the source reads what an earlier,
                           longer line left in the buffer *)

(** The do-while loop.  [tag] is the offset of the pointer [tag]; the result
    is [Some (Some t)] when the loop ends at offset [t], [Some None] when
    [strstr] returns NULL, [None] when the fuel is spent. *)
Fixpoint findTagLoop (fuel : nat) (lineBuffer tagName : list ascii) (tag : nat)
  : option (option nat) :=
  match fuel with
  | O => None
  | S fuel' =>
      match strstr_from (tag + 1) lineBuffer tagName with
      | None => Some None
      | Some tag' =>
          if negb (ascii_eqb (charAt lineBuffer (tag' - 1)) ">"%char)
             && negb (ascii_eqb (charAt lineBuffer (tag' - 1)) "|"%char)
             && negb (ascii_eqb (charAt lineBuffer (tag' + strlen tagName)) "|"%char)
          then findTagLoop fuel' lineBuffer tagName tag'
          else Some (Some tag')
      end
  end.

Definition FindFASTATagValue (lineBuffer tagName : list ascii) : TagResult :=
  match findTagLoop (S (strlen lineBuffer)) lineBuffer tagName 0 with
  | None => TagLoopsOn
  | Some None => TagAbsent
  | Some (Some tag) =>
      let pTagValue := tag + strlen tagName + 1 in
      if length lineBuffer <? pTagValue then TagBehindBuffer
      else
        match strchr_from pTagValue lineBuffer "|"%char with
        | None =>
            TagExit (MsgBadlyFormattedTag (drop tag (cstr lineBuffer))
                                          (drop 1 (cstr lineBuffer)))
        | Some tagValueEnd => TagValue pTagValue (tagValueEnd - pTagValue)
        end
  end.

(** ** The genome sink *)

Module Genome.

Record Contig := {
  name : list ascii;
  beginningLocation : Z;
  length : Z
}.

(** Modelled from the spec: the [Genome] class (Genome.h, Genome.cpp) is the
    external sink: an append-only buffer of bases with a capacity fixed at
    construction, and a table of contigs in file order; finalization fills
    in the contig lengths and builds the by-name table used for lookup,
    leaving the begin locations and the file-order table as they are. *)
Record t := {
  maxBases : Z;
  bases : list ascii;
  chromosomePadding : nat;
  maxContigs : Z;
  contigs : list Contig;
  contigsByName : list Contig
}.

(** Modelled from the spec: the constructor takes the base capacity, the
    byte capacity, the padding size and the contig-table size. *)
Definition create (i_maxBases nBasesStored : Z) (i_chromosomePadding : nat)
    (i_maxContigs : Z) : t :=
  {| maxBases := i_maxBases; bases := []; chromosomePadding := i_chromosomePadding;
     maxContigs := i_maxContigs; contigs := []; contigsByName := [] |}.

Definition getCountOfBases (g : t) : Z := Z.of_nat (List.length (bases g)).
Definition getNumContigs (g : t) : nat := List.length (contigs g).
Definition getContigs (g : t) : list Contig := contigs g.

(** Modelled from the spec: [addData] appends the C string it
    is handed; data that would pass the capacity is refused ([None]). *)
Definition addData (g : t) (data : list ascii) : option t :=
  let len := strlen data in
  if (getCountOfBases g + Z.of_nat len <=? maxBases g)%Z
  then Some {| maxBases := maxBases g; bases := bases g ++ cstr data;
               chromosomePadding := chromosomePadding g;
               maxContigs := maxContigs g; contigs := contigs g;
               contigsByName := contigsByName g |}
  else None.

(** Modelled from the spec: [startContig] opens a new contig at the current
    end of the base buffer, under the C string it is handed as name. *)
Definition startContig (g : t) (contigName : list ascii) : t :=
  {| maxBases := maxBases g; bases := bases g;
     chromosomePadding := chromosomePadding g; maxContigs := maxContigs g;
     contigs := contigs g ++ [ {| name := cstr contigName;
                                  beginningLocation := getCountOfBases g;
                                  length := 0 |} ];
     contigsByName := contigsByName g |}.

Definition withContigs (g : t) (cs byName : list Contig) : t :=
  {| maxBases := maxBases g; bases := bases g;
     chromosomePadding := chromosomePadding g; maxContigs := maxContigs g;
     contigs := cs; contigsByName := byName |}.

Fixpoint fillLengths (total : Z) (cs : list Contig) : list Contig :=
  match cs with
  | [] => []
  | c :: rest =>
      let next := match rest with
                  | [] => total
                  | c' :: _ => beginningLocation c'
                  end in
      {| name := name c; beginningLocation := beginningLocation c;
         length := (next - beginningLocation c)%Z |} :: fillLengths total rest
  end.

(** Modelled from the spec: contig lengths come from consecutive begin
    locations and the total length. *)
Definition fillInContigLengths (g : t) : t :=
  withContigs g (fillLengths (getCountOfBases g) (contigs g)) (contigsByName g).

(** [strcmp(a, b) <= 0] *)
Fixpoint name_le (a b : list ascii) : bool :=
  match a, b with
  | [], _ => true
  | _ :: _, [] => false
  | x :: a', y :: b' =>
      if ascii_eqb x y then name_le a' b'
      else nat_of_ascii x <? nat_of_ascii y
  end.

Fixpoint insertByName (c : Contig) (cs : list Contig) : list Contig :=
  match cs with
  | [] => [c]
  | d :: rest => if name_le (name c) (name d) then c :: cs
                 else d :: insertByName c rest
  end.

(** Modelled from the spec: the table sorted by name is built for lookup. *)
Definition sortContigsByName (g : t) : t :=
  withContigs g (contigs g) (foldr insertByName [] (contigs g)).

(** Modelled from the spec: read-back of [lengthNeeded] bases at [location];
    NULL ([None]) outside the buffer. *)
Definition getSubstring (g : t) (location lengthNeeded : Z) : option (list ascii) :=
  if ((0 <=? location) && (0 <=? lengthNeeded)
      && (location + lengthNeeded <=? getCountOfBases g))%Z
  then Some (take (Z.to_nat lengthNeeded) (drop (Z.to_nat location) (bases g)))
  else None.

End Genome.

(** Modelled from the spec: the [AltContigMap] collaborator is told every
    header line and its resolved name; what it does with them, and its
    adjustment of the finalized genome, are bookkeeping outside this file and
    leave the base buffer and the contig tables as they are. *)
Record AltContigMap := { fastaContigs : list (list ascii * list ascii) }.

Definition addFastaContig (altMap : AltContigMap) (lineBuffer chrName : list ascii)
  : AltContigMap :=
  {| fastaContigs := fastaContigs altMap ++ [(cstr lineBuffer, chrName)] |}.

Definition adjustAltContigs (g : Genome.t) (altMap : AltContigMap) : Genome.t := g.

(** ** The chromosome remap table *)

Abbreviation ChrMap := (gmap (list ascii) (list ascii)).

Definition FileSystem := string -> option (list ascii).

Definition isDelimiter (delims : list ascii) (c : ascii) : bool :=
  existsb (ascii_eqb c) delims.

(** The tokens that successive [strtok] calls return for a text, each with
    the offset it starts at; [cur] is the token being read. *)
Fixpoint strtokFrom (delims s : list ascii) (pos : nat)
    (cur : option (nat * list ascii)) : list (nat * list ascii) :=
  match s with
  | [] => match cur with
          | Some (start, tok) => [(start, rev tok)]
          | None => []
          end
  | c :: rest =>
      if isDelimiter delims c then
        match cur with
        | Some (start, tok) => (start, rev tok) :: strtokFrom delims rest (S pos) None
        | None => strtokFrom delims rest (S pos) None
        end
      else
        match cur with
        | Some (start, tok) => strtokFrom delims rest (S pos) (Some (start, c :: tok))
        | None => strtokFrom delims rest (S pos) (Some (pos, [c]))
        end
  end.

Definition strtok (lineBuffer delims : list ascii) : list (nat * list ascii) :=
  strtokFrom delims (cstr lineBuffer) 0 None.

(** One turn of the loop over the lines of the remap file. *)
Definition readChrMapLine (chrMap : ChrMap) (lineBuffer : list ascii) : ChrMap :=
  if ascii_eqb (charAt lineBuffer 0) "#"%char then chrMap
  else
    snd (fold_left
           (fun (acc : list ascii * ChrMap) (t : nat * list ascii) =>
              let (chrom, m) := acc in
              let (offset, token) := t in
              if offset =? 0 then (token, m)          (* token == lineBuffer *)
              else (chrom, <[token := chrom]> m))
           (strtok lineBuffer [TAB; CR; LF])
           ([], chrMap)).

Definition readChrMap (mapFile : list ascii) : ChrMap :=
  fold_left readChrMapLine (fileLines mapFile) ∅.

(** ** The loader *)

Record LoaderState := {
  genome : Genome.t;
  warningIssued : bool;
  inAContig : bool;
  altMap : option AltContigMap;
  messages : list Message
}.

(** Modelled from the spec: [soft_exit] (exit.h) terminates the process; a
    step of the loader either goes on or ends the run there. *)
Inductive Step :=
| Continue (st : LoaderState)
| Exit (st : LoaderState).        (* soft_exit(1) *)

Inductive LoadResult :=
| Loaded (g : Genome.t) (altMap : option AltContigMap) (messages : list Message)
| Null (messages : list Message)       (* return NULL *)
| Exited (st : LoaderState)            (* soft_exit(1) *)
| NoFileSize.          (* the size query was made on a name that holds no
                          file: what the primitive does then is not part
                          of the source, and the run is not followed *)

(** Modelled from the spec: [WriteErrorMessage] (Error.h) reports a message;
    the messages of a run are kept in the order they are written. *)
Definition WriteErrorMessage (st : LoaderState) (m : Message) : LoaderState :=
  {| genome := genome st; warningIssued := warningIssued st;
     inAContig := inAContig st; altMap := altMap st;
     messages := messages st ++ [m] |}.

(** [isValidGenomeCharacter[c]]: true at A, T, C, G, N and their lower case. *)
Definition isValidGenomeCharacter (c : ascii) : bool :=
  existsb (ascii_eqb c) (txt "ATCGNatcgn").

Definition wrap32 (z : Z) : Z := (z mod 2 ^ 32)%Z.
Definition wrap64 (z : Z) : Z := (z mod 2 ^ 64)%Z.

(** The counting pass: [nChromosomes] is an [unsigned]. *)
Definition countChromosomes (lines : list (list ascii)) : Z :=
  fold_left (fun nChromosomes lineBuffer =>
               if isHeaderLine lineBuffer then wrap32 (nChromosomes + 1)
               else nChromosomes)
            lines 0%Z.

(** [fileSize + (nChromosomes+1) * (size_t)chromosomePaddingSize] *)
Definition genomeSize (fileSize nChromosomes : Z) (chromosomePaddingSize : nat) : Z :=
  wrap64 (fileSize + wrap64 (wrap32 (nChromosomes + 1) * Z.of_nat chromosomePaddingSize)).

(** The padding block.  The source allocates it with
    [new char[chromosomePaddingSize+1]], the sum taken in [unsigned]: the
    block below is the one it fills when [chromosomePaddingSize + 1] does
    not wrap, that is below [2^32 - 1]. *)
Definition paddingBuffer (chromosomePaddingSize : nat) : list ascii :=
  repeat "n"%char chromosomePaddingSize.

(** [if (NULL != p && p < terminator) terminator = p;] *)
Definition nearer (terminator : nat) (p : option nat) : nat :=
  match p with
  | Some q => if q <? terminator then q else terminator
  | None => terminator
  end.

(** The offset [terminator] of the free-form branch (no [chrTag]). *)
Definition nameTerminator (pieceNameTerminatorCharacters : option (list ascii))
    (spaceIsAPieceNameTerminator : bool) (lineBuffer : list ascii) : nat :=
  let terminator := strlen lineBuffer in
  let terminator :=
    match pieceNameTerminatorCharacters with
    | Some chars =>
        fold_left (fun t i => nearer t (strchr_from 1 lineBuffer (charAt chars i)))
                  (seq 0 (strlen chars)) terminator
    | None => terminator
    end in
  let terminator :=
    if spaceIsAPieceNameTerminator
    then nearer (nearer terminator (strchr lineBuffer " "%char)) (strchr lineBuffer TAB)
    else terminator in
  let terminator := nearer terminator (strchr lineBuffer LF) in
  nearer terminator (strchr lineBuffer CR).

(** The bytes [chrName .. chrName + chrNameLen) of a header line, or the
    message of the fatal error that ends the run. *)
Definition resolveContigName
    (pieceNameTerminatorCharacters : option (list ascii))
    (spaceIsAPieceNameTerminator : bool)
    (chrTag : option (list ascii)) (chrMapFilename : option string)
    (chrMap : ChrMap) (lineBuffer : list ascii) : Message + list ascii :=
  match chrTag with
  | None =>
      let terminator :=
        nameTerminator pieceNameTerminatorCharacters spaceIsAPieceNameTerminator
                       lineBuffer in
      let chrNameLen := terminator - 1 in
      inr (take chrNameLen (drop 1 lineBuffer))
  | Some tag =>
      match FindFASTATagValue lineBuffer tag with
      | TagAbsent => inl (MsgTagNotFound (cstr tag) (drop 1 (cstr lineBuffer)))
      | TagExit m => inl m
      | TagLoopsOn => inl (MsgTagNotFound (cstr tag) (drop 1 (cstr lineBuffer)))
      | TagBehindBuffer => inl MsgNotFollowed
      | TagValue chrName chrNameLen =>
          let raw := take chrNameLen (drop chrName lineBuffer) in
          match chrMapFilename with
          | Some _ =>
              match chrMap !! raw with
              | Some mapped => inr mapped
              | None => inr raw
              end
          | None => inr raw
          end
      end
  end.

Definition withGenome (st : LoaderState) (g : Genome.t) : LoaderState :=
  {| genome := g; warningIssued := warningIssued st; inAContig := inAContig st;
     altMap := altMap st; messages := messages st |}.

(** [genome->addData(data)]; the sink's refusal ends the run. *)
Definition addData (st : LoaderState) (data : list ascii) : Step :=
  match Genome.addData (genome st) data with
  | Some g => Continue (withGenome st g)
  | None => Exit (WriteErrorMessage st MsgGenomeFull)
  end.

(** The branch of the main loop for a line that starts with the marker. *)
Definition processHeaderLine
    (pieceNameTerminatorCharacters : option (list ascii))
    (spaceIsAPieceNameTerminator : bool) (chromosomePaddingSize : nat)
    (chrTag : option (list ascii)) (chrMapFilename : option string)
    (chrMap : ChrMap) (st : LoaderState) (lineBuffer : list ascii) : Step :=
  let st := {| genome := genome st; warningIssued := warningIssued st;
               inAContig := true; altMap := altMap st; messages := messages st |} in
  match addData st (paddingBuffer chromosomePaddingSize) with
  | Exit st' => Exit st'
  | Continue st =>
      match resolveContigName pieceNameTerminatorCharacters
              spaceIsAPieceNameTerminator chrTag chrMapFilename chrMap lineBuffer with
      | inl m => Exit (WriteErrorMessage st m)
      | inr chrName =>
          let altMap' := (fun a => addFastaContig a lineBuffer chrName) <$> altMap st in
          let contigName := chrName in
          Continue {| genome := Genome.startContig (genome st) contigName;
                      warningIssued := warningIssued st; inAContig := inAContig st;
                      altMap := altMap'; messages := messages st |}
      end
  end.

(** [for (i = 0; i < lineLen; i++) lineBuffer[i] = toupper(lineBuffer[i]);] *)
Definition upcaseLoop (lineLen : nat) (lineBuffer : list ascii) : list ascii :=
  fold_left (fun buf i => <[i := toupper (charAt buf i)]> buf) (seq 0 lineLen) lineBuffer.

(** One turn of the second loop: the buffer, [warningIssued] and the messages. *)
Definition validateAt (acc : list ascii * bool * list Message) (i : nat)
  : list ascii * bool * list Message :=
  let '(buf, warned, msgs) := acc in
  let buf := if ascii_eqb "N"%char (charAt buf i) then <[i := "n"%char]> buf else buf in
  if isValidGenomeCharacter (charAt buf i) then (buf, warned, msgs)
  else
    let msgs := if warned then msgs
                else msgs ++ [MsgInvalidBase (charAt buf i) (cstr buf)] in
    (<[i := "N"%char]> buf, true, msgs).

Definition validateLoop (lineLen : nat) (acc : list ascii * bool * list Message)
  : list ascii * bool * list Message :=
  fold_left validateAt (seq 0 lineLen) acc.

(** [newline = strchr(lineBuffer, '\n'); if (NULL != newline) *newline = 0;] *)
Definition truncateNewline (lineBuffer : list ascii) : list ascii :=
  match strchr lineBuffer LF with
  | Some newline => <[newline := NUL]> lineBuffer
  | None => lineBuffer
  end.

(** The branch of the main loop for any other line. *)
Definition processSequenceLine (st : LoaderState) (lineBuffer : list ascii) : Step :=
  if negb (inAContig st) then Exit (WriteErrorMessage st MsgNoContigName)
  else
    let lineBuffer := truncateNewline lineBuffer in
    let lineLen := strlen lineBuffer in
    let lineBuffer := upcaseLoop lineLen lineBuffer in
    let '(lineBuffer, warned, msgs) :=
      validateLoop lineLen (lineBuffer, warningIssued st, messages st) in
    addData {| genome := genome st; warningIssued := warned;
               inAContig := inAContig st; altMap := altMap st; messages := msgs |}
            lineBuffer.

Definition processLine
    (pieceNameTerminatorCharacters : option (list ascii))
    (spaceIsAPieceNameTerminator : bool) (chromosomePaddingSize : nat)
    (chrTag : option (list ascii)) (chrMapFilename : option string)
    (chrMap : ChrMap) (st : LoaderState) (lineBuffer : list ascii) : Step :=
  if isHeaderLine lineBuffer
  then processHeaderLine pieceNameTerminatorCharacters spaceIsAPieceNameTerminator
         chromosomePaddingSize chrTag chrMapFilename chrMap st lineBuffer
  else processSequenceLine st lineBuffer.

(** The main loop over the lines that [reallocatingFgets] returns. *)
Fixpoint processLines
    (pieceNameTerminatorCharacters : option (list ascii))
    (spaceIsAPieceNameTerminator : bool) (chromosomePaddingSize : nat)
    (chrTag : option (list ascii)) (chrMapFilename : option string)
    (chrMap : ChrMap) (lines : list (list ascii)) (st : LoaderState) : Step :=
  match lines with
  | [] => Continue st
  | lineBuffer :: rest =>
      match processLine pieceNameTerminatorCharacters spaceIsAPieceNameTerminator
              chromosomePaddingSize chrTag chrMapFilename chrMap st lineBuffer with
      | Exit st' => Exit st'
      | Continue st' =>
          processLines pieceNameTerminatorCharacters spaceIsAPieceNameTerminator
            chromosomePaddingSize chrTag chrMapFilename chrMap rest st'
      end
  end.

(** The end of the load: the last padding and the finalization of the sink. *)
Definition finishLoad (chromosomePaddingSize : nat) (st : LoaderState) : LoadResult :=
  match addData st (paddingBuffer chromosomePaddingSize) with
  | Exit st' => Exited st'
  | Continue st =>
      let g := Genome.fillInContigLengths (genome st) in
      let g := match altMap st with
               | Some a => adjustAltContigs g a
               | None => g
               end in
      let g := Genome.sortContigsByName g in
      Loaded g (altMap st) (messages st)
  end.

(** The start of [ReadFASTAGenome]: the remap table, when a file is named. *)
Definition openChrMap (fs : FileSystem) (chrMapFilename : option string)
  : Message + ChrMap :=
  match chrMapFilename with
  | Some f =>
      match fs f with
      | None => inl (MsgCannotOpenChrMap f)
      | Some mapFile => inr (readChrMap mapFile)
      end
  | None => inr ∅
  end.

(** The state in which the main loop starts, on a new sink sized from the
    file size and the counting pass. *)
Definition sizedState (fileSize : Z) (fastaFile : list ascii)
    (chromosomePaddingSize : nat) (altMap : option AltContigMap) : LoaderState :=
  let nChromosomes := countChromosomes (fileLines fastaFile) in
  let size := genomeSize fileSize nChromosomes chromosomePaddingSize in
  {| genome := Genome.create size size chromosomePaddingSize (wrap32 (nChromosomes + 1));
     warningIssued := false; inAContig := false;
     altMap := altMap; messages := [] |}.

(** The same with the size of the file that the counting pass reads. *)
Definition initialState (fastaFile : list ascii) (chromosomePaddingSize : nat)
    (altMap : option AltContigMap) : LoaderState :=
  sizedState (QueryFileSize fastaFile) fastaFile chromosomePaddingSize altMap.

(** The loader.  Its first statement asks for the size of the file by
    name, before either file is opened; the files do not change during the
    run, so the later [fopen] of a name whose size was found succeeds. *)
Definition ReadFASTAGenome (fs : FileSystem) (fileName : string)
    (pieceNameTerminatorCharacters : option (list ascii))
    (spaceIsAPieceNameTerminator : bool) (chromosomePaddingSize : nat)
    (chrTag : option (list ascii)) (chrMapFilename : option string)
    (altMap : option AltContigMap) : LoadResult :=
  match QueryFileSize <$> fs fileName with        (* the first statement *)
  | None => NoFileSize
  | Some fileSize =>
      match openChrMap fs chrMapFilename with
      | inl m => Null [m]
      | inr chrMap =>
          match fs fileName with
          | None => Null [MsgCannotOpenFASTA fileName]
          | Some fastaFile =>
              match processLines pieceNameTerminatorCharacters
                      spaceIsAPieceNameTerminator
                      chromosomePaddingSize chrTag chrMapFilename chrMap
                      (fileLines fastaFile)
                      (sizedState fileSize fastaFile chromosomePaddingSize altMap) with
              | Exit st' => Exited st'
              | Continue st' => finishLoad chromosomePaddingSize st'
              end
          end
      end
  end.

(** ** AppendFASTAGenome *)

(** A stream that takes every write: what is written is appended, and no
    write sets the error indicator, which is the one the stream came with.
    A write that fails in the middle is outside this stream. *)
Record FILE := { written : list ascii; ferror : bool }.

Definition fwrite (fasta : FILE) (data : list ascii) : FILE :=
  {| written := written fasta ++ data; ferror := ferror fasta |}.

(** One turn of the loop over the contigs; [None] when [getSubstring] returns
    NULL, which [fwrite] is not written to survive. *)
Definition appendContig (genome : Genome.t) (prefix : list ascii)
    (fasta : option FILE) (i : nat) : option FILE :=
  fasta ← fasta;
  let nContigs := Genome.getNumContigs genome in
  let contigs := Genome.getContigs genome in
  contig ← contigs !! i;
  let start := Genome.beginningLocation contig in
  let end_ := if i + 1 <? nContigs
              then default 0%Z (Genome.beginningLocation <$> contigs !! (i + 1))
              else Genome.getCountOfBases genome in
  let size := (end_ - start)%Z in
  bases ← Genome.getSubstring genome start size;
  let fasta := fwrite fasta (">"%char :: cstr prefix ++ Genome.name contig ++ [LF]) in
  let fasta := fwrite fasta bases in
  Some (fwrite fasta [LF]).

Definition AppendFASTAGenome (genome : Genome.t) (fasta : FILE) (prefix : list ascii)
  : option (FILE * bool) :=
  let nContigs := Genome.getNumContigs genome in
  (fun f => (f, negb (ferror f))) <$>
    fold_left (appendContig genome prefix) (seq 0 nContigs) (Some fasta).

Definition emptyFILE : FILE := {| written := []; ferror := false |}.

(** * Properties *)

(** ** Characters *)

Lemma ascii_eqb_eq (a b : ascii) : ascii_eqb a b = true <-> a = b.
Proof. apply Ascii.eqb_eq. Qed.

Lemma ascii_eqb_neq (a b : ascii) : ascii_eqb a b = false <-> a <> b.
Proof. apply Ascii.eqb_neq. Qed.

Lemma ascii_eqb_refl (a : ascii) : ascii_eqb a a = true.
Proof. apply Ascii.eqb_refl. Qed.

Ltac ascii_cases c :=
  destruct c as [[] [] [] [] [] [] [] []]; vm_compute; try reflexivity;
  try discriminate; try tauto.

(** What the two loops over a sequence line do to one character: the
    second loop sees the character in upper case. *)
Definition fixChar (u : ascii) : ascii :=
  if ascii_eqb "N"%char u then "n"%char
  else if isValidGenomeCharacter u then u else "N"%char.

Definition normChar (c : ascii) : ascii := fixChar (toupper c).

(** The characters the second loop warns about and replaces. *)
Definition isInvalidUpper (u : ascii) : bool :=
  negb (ascii_eqb "N"%char u) && negb (isValidGenomeCharacter u).

(** The six characters of the base buffer. *)
Definition isGenomeByte (c : ascii) : bool :=
  existsb (ascii_eqb c) (txt "ACGTnN").

Lemma fixChar_not_NUL (u : ascii) : ascii_eqb (fixChar u) NUL = false.
Proof. ascii_cases u. Qed.

Lemma normChar_genome_byte (c : ascii) : isGenomeByte (normChar c) = true.
Proof. ascii_cases c. Qed.

Lemma toupper_not_NUL (c : ascii) : ascii_eqb c NUL = false -> ascii_eqb (toupper c) NUL = false.
Proof. ascii_cases c. Qed.

Lemma fixChar_invalid (u : ascii) :
  isInvalidUpper u = true -> fixChar u = "N"%char.
Proof. ascii_cases u. Qed.

(** ** C strings *)

Definition isText (s : list ascii) : bool :=
  forallb (fun c => negb (ascii_eqb c NUL)) s.

Lemma cstr_text (s : list ascii) : isText s = true -> cstr s = s.
Proof.
  induction s as [|c s IH]; simpl; [reflexivity|].
  intros H. apply andb_true_iff in H as [Hc Hs].
  apply negb_true_iff in Hc. rewrite Hc, IH; auto.
Qed.

Lemma cstr_isText (s : list ascii) : isText (cstr s) = true.
Proof.
  induction s as [|c s IH]; simpl; [reflexivity|].
  destruct (ascii_eqb c NUL) eqn:E; simpl; [reflexivity|].
  rewrite E, IH. reflexivity.
Qed.

Lemma cstr_idem (s : list ascii) : cstr (cstr s) = cstr s.
Proof. apply cstr_text, cstr_isText. Qed.

Lemma cstr_split (s : list ascii) : s = cstr s ++ drop (strlen s) s.
Proof.
  unfold strlen. induction s as [|c s IH]; simpl; [reflexivity|].
  destruct (ascii_eqb c NUL); simpl; [reflexivity|]. f_equal. exact IH.
Qed.

(** What follows the C string in its buffer is the terminator, or nothing. *)
Lemma cstr_tail (s : list ascii) : cstr (drop (strlen s) s) = [].
Proof.
  unfold strlen. induction s as [|c s IH]; simpl; [reflexivity|].
  destruct (ascii_eqb c NUL) eqn:E; simpl; [rewrite E; reflexivity|]. exact IH.
Qed.

Lemma cstr_app (pre tail : list ascii) :
  isText pre = true -> cstr (pre ++ tail) = pre ++ cstr tail.
Proof.
  induction pre as [|c pre IH]; simpl; [reflexivity|].
  intros H. apply andb_true_iff in H as [Hc Hs].
  apply negb_true_iff in Hc. rewrite Hc, IH; auto.
Qed.

Lemma strlen_le (s : list ascii) : strlen s <= length s.
Proof.
  unfold strlen. induction s as [|c s IH]; simpl; [lia|].
  destruct (ascii_eqb c NUL); simpl; lia.
Qed.

Lemma charAt_middle (pre : list ascii) (x : ascii) (rest : list ascii) :
  charAt (pre ++ x :: rest) (length pre) = x.
Proof. unfold charAt. apply nth_middle. Qed.

Lemma insert_middle (pre : list ascii) (x y : ascii) (rest : list ascii) :
  <[length pre := y]> (pre ++ x :: rest) = pre ++ y :: rest.
Proof. induction pre as [|c pre IH]; simpl; [reflexivity|]. f_equal. exact IH. Qed.

Lemma strchr_cons (c : ascii) (r : list ascii) (d : ascii) :
  strchr (c :: r) d =
  if ascii_eqb c NUL then None
  else if ascii_eqb c d then Some 0 else S <$> strchr r d.
Proof.
  unfold strchr, strchr_from. rewrite !drop_0. simpl.
  destruct (ascii_eqb c NUL); simpl; [reflexivity|].
  destruct (ascii_eqb c d); simpl; [reflexivity|].
  destruct (index_of d (cstr r)); reflexivity.
Qed.

(** ** A sequence line *)

(** The text of a line as the sequence branch sees it: up to the newline,
    or to a NUL if the file has one before it. *)
Fixpoint lineText (lineBuffer : list ascii) : list ascii :=
  match lineBuffer with
  | [] => []
  | c :: rest =>
      if ascii_eqb c NUL || ascii_eqb c LF then [] else c :: lineText rest
  end.

Lemma cstr_truncateNewline (lineBuffer : list ascii) :
  cstr (truncateNewline lineBuffer) = lineText lineBuffer.
Proof.
  unfold truncateNewline.
  induction lineBuffer as [|c r IH]; [reflexivity|].
  rewrite strchr_cons. simpl.
  destruct (ascii_eqb c NUL) eqn:E0; simpl; [rewrite E0; reflexivity|].
  destruct (ascii_eqb c LF) eqn:E1; simpl; [reflexivity|].
  destruct (strchr r LF) as [k|]; simpl; rewrite E0; f_equal; exact IH.
Qed.

Lemma upcaseLoop_middle (rest pre tail : list ascii) :
  fold_left (fun buf i => <[i := toupper (charAt buf i)]> buf)
            (seq (length pre) (length rest)) (pre ++ rest ++ tail)
  = pre ++ map toupper rest ++ tail.
Proof.
  revert pre. induction rest as [|c rest IH]; intros pre; [reflexivity|].
  simpl. rewrite charAt_middle, insert_middle.
  specialize (IH (pre ++ [toupper c])).
  rewrite length_app in IH. simpl in IH.
  replace (length pre + 1) with (S (length pre)) in IH by lia.
  rewrite <- !app_assoc in IH. simpl in IH. exact IH.
Qed.

Lemma upcaseLoop_cstr (text tail : list ascii) :
  upcaseLoop (length text) (text ++ tail) = map toupper text ++ tail.
Proof. apply (upcaseLoop_middle text [] tail). Qed.

(** The warning, if any, that the second loop writes for the upper-cased
    text [rest] of a line, [pre] being the part already corrected. *)
Fixpoint lineWarnings (warned : bool) (pre rest tail : list ascii) : list Message :=
  match rest with
  | [] => []
  | u :: r =>
      if isInvalidUpper u
      then if warned then []
           else [MsgInvalidBase u (cstr (pre ++ u :: r ++ tail))]
      else lineWarnings warned (pre ++ [fixChar u]) r tail
  end.

Lemma lineWarnings_warned (rest pre tail : list ascii) :
  lineWarnings true pre rest tail = [].
Proof.
  revert pre. induction rest as [|u r IH]; intros pre; simpl; [reflexivity|].
  destruct (isInvalidUpper u); [reflexivity|]. apply IH.
Qed.

Lemma validateLoop_middle (rest pre tail : list ascii) (w : bool) (m : list Message) :
  fold_left validateAt (seq (length pre) (length rest)) (pre ++ rest ++ tail, w, m)
  = (pre ++ map fixChar rest ++ tail,
     w || existsb isInvalidUpper rest,
     m ++ lineWarnings w pre rest tail).
Proof.
  revert pre w m. induction rest as [|u r IH]; intros pre w m.
  - simpl. rewrite orb_false_r, app_nil_r. reflexivity.
  - assert (Hnext : forall x w' m',
        fold_left validateAt (seq (S (length pre)) (length r))
                  (pre ++ x :: r ++ tail, w', m')
        = (pre ++ x :: map fixChar r ++ tail,
           w' || existsb isInvalidUpper r,
           m' ++ lineWarnings w' (pre ++ [x]) r tail)).
    { intros x w' m'. specialize (IH (pre ++ [x]) w' m').
      rewrite length_app in IH. simpl in IH.
      replace (length pre + 1) with (S (length pre)) in IH by lia.
      rewrite <- !app_assoc in IH. simpl in IH. exact IH. }
    cbn [length seq fold_left map existsb lineWarnings app].
    unfold validateAt at 2. rewrite charAt_middle.
    unfold isInvalidUpper at 1 3. unfold fixChar at 1.
    destruct (ascii_eqb "N" u) eqn:EN.
    + rewrite insert_middle, charAt_middle. simpl.
      rewrite Hnext. unfold fixChar. rewrite EN. reflexivity.
    + rewrite charAt_middle. simpl.
      destruct (isValidGenomeCharacter u) eqn:EV; simpl.
      * rewrite Hnext. unfold fixChar. rewrite EN, EV. reflexivity.
      * rewrite insert_middle, Hnext, orb_true_r, lineWarnings_warned, app_nil_r.
        destruct w; simpl; rewrite ?app_nil_r; reflexivity.
Qed.

Lemma isText_map_fixChar (s : list ascii) : isText (map fixChar s) = true.
Proof.
  induction s as [|c s IH]; simpl; [reflexivity|].
  rewrite fixChar_not_NUL, IH. reflexivity.
Qed.

Lemma addData_cstr (st : LoaderState) (data : list ascii) :
  addData st data = addData st (cstr data).
Proof.
  unfold addData, Genome.addData, strlen. rewrite cstr_idem. reflexivity.
Qed.

(** What is left in the line buffer behind the text of a sequence line. *)
Definition lineTail (lineBuffer : list ascii) : list ascii :=
  drop (strlen (truncateNewline lineBuffer)) (truncateNewline lineBuffer).

(** The sequence branch without its loops and its buffer. *)
Definition sequenceLineStep (st : LoaderState) (lineBuffer : list ascii) : Step :=
  if negb (inAContig st) then Exit (WriteErrorMessage st MsgNoContigName)
  else
    let upper := map toupper (lineText lineBuffer) in
    addData {| genome := genome st;
               warningIssued := warningIssued st || existsb isInvalidUpper upper;
               inAContig := inAContig st; altMap := altMap st;
               messages := messages st ++
                           lineWarnings (warningIssued st) [] upper (lineTail lineBuffer) |}
            (map normChar (lineText lineBuffer)).

Lemma processSequenceLine_eq (st : LoaderState) (lineBuffer : list ascii) :
  processSequenceLine st lineBuffer = sequenceLineStep st lineBuffer.
Proof.
  unfold processSequenceLine, sequenceLineStep.
  destruct (negb (inAContig st)); [reflexivity|].
  pose proof (cstr_split (truncateNewline lineBuffer)) as Hb.
  fold (lineTail lineBuffer) in Hb.
  rewrite cstr_truncateNewline in Hb.
  assert (Hlen : strlen (truncateNewline lineBuffer) = length (lineText lineBuffer)).
  { unfold strlen. rewrite cstr_truncateNewline. reflexivity. }
  rewrite Hlen.
  pose proof (cstr_tail (truncateNewline lineBuffer)) as Htail.
  fold (lineTail lineBuffer) in Htail.
  generalize dependent (lineTail lineBuffer). intros tail Hb Htail.
  rewrite Hb. clear Hb Hlen.
  rewrite upcaseLoop_cstr. unfold validateLoop.
  rewrite <- (length_map toupper (lineText lineBuffer)).
  rewrite (validateLoop_middle (map toupper (lineText lineBuffer)) [] tail).
  cbn [app].
  rewrite addData_cstr, cstr_app by apply isText_map_fixChar.
  rewrite Htail, app_nil_r, map_map. reflexivity.
Qed.

(** ** The sink *)

Lemma cstr_paddingBuffer (pad : nat) : cstr (paddingBuffer pad) = paddingBuffer pad.
Proof.
  apply cstr_text. unfold paddingBuffer.
  induction pad as [|pad IH]; simpl; [reflexivity|exact IH].
Qed.

Lemma Genome_addData_Some (g g' : Genome.t) (data : list ascii) :
  Genome.addData g data = Some g' ->
  Genome.bases g' = Genome.bases g ++ cstr data
  /\ Genome.maxBases g' = Genome.maxBases g
  /\ Genome.contigs g' = Genome.contigs g
  /\ (Z.of_nat (length (Genome.bases g) + strlen data) <= Genome.maxBases g)%Z.
Proof.
  unfold Genome.addData, Genome.getCountOfBases.
  destruct (Z.leb_spec (Z.of_nat (length (Genome.bases g)) + Z.of_nat (strlen data))
                       (Genome.maxBases g)) as [Hle|Hgt]; [|discriminate].
  intros [= <-]. simpl. repeat split; lia.
Qed.

Lemma Genome_addData_None (g : Genome.t) (data : list ascii) :
  Genome.addData g data = None ->
  (Genome.maxBases g < Z.of_nat (length (Genome.bases g) + strlen data))%Z.
Proof.
  unfold Genome.addData, Genome.getCountOfBases.
  destruct (Z.leb_spec (Z.of_nat (length (Genome.bases g)) + Z.of_nat (strlen data))
                       (Genome.maxBases g)) as [Hle|Hgt]; [discriminate|].
  intros _. lia.
Qed.

Lemma Genome_addData_fits (g : Genome.t) (data : list ascii) :
  (Z.of_nat (length (Genome.bases g) + strlen data) <= Genome.maxBases g)%Z ->
  exists g', Genome.addData g data = Some g'.
Proof.
  intros H. destruct (Genome.addData g data) as [g'|] eqn:E; [eauto|].
  apply Genome_addData_None in E. lia.
Qed.

Definition isGenomeFull (m : Message) : bool :=
  match m with MsgGenomeFull => true | _ => false end.

(** The sink refused data at some point of the run. *)
Definition ranOutOfRoom (msgs : list Message) : bool := existsb isGenomeFull msgs.

Lemma ranOutOfRoom_app (a b : list Message) :
  ranOutOfRoom (a ++ b) = ranOutOfRoom a || ranOutOfRoom b.
Proof. apply existsb_app. Qed.

Lemma ranOutOfRoom_lineWarnings (rest pre tail : list ascii) (w : bool) :
  ranOutOfRoom (lineWarnings w pre rest tail) = false.
Proof.
  revert pre. induction rest as [|u r IH]; intros pre; simpl; [reflexivity|].
  destruct (isInvalidUpper u); [destruct w; reflexivity|]. apply IH.
Qed.

(** ** One line of the main loop *)

Section MainLoop.

Variable pieceNameTerminatorCharacters : option (list ascii).
Variable spaceIsAPieceNameTerminator : bool.
Variable chromosomePaddingSize : nat.
Variable chrTag : option (list ascii).
Variable chrMapFilename : option string.
Variable chrMap : ChrMap.

Local Abbreviation step :=
  (processLine pieceNameTerminatorCharacters spaceIsAPieceNameTerminator
               chromosomePaddingSize chrTag chrMapFilename chrMap).
Local Abbreviation run :=
  (processLines pieceNameTerminatorCharacters spaceIsAPieceNameTerminator
                chromosomePaddingSize chrTag chrMapFilename chrMap).
Local Abbreviation resolve :=
  (resolveContigName pieceNameTerminatorCharacters spaceIsAPieceNameTerminator
                     chrTag chrMapFilename chrMap).

(** The name under which the contig of a header line is stored. *)
Definition storedName (lineBuffer : list ascii) : list ascii :=
  match resolve lineBuffer with
  | inr chrName => cstr chrName
  | inl _ => []
  end.

Definition headerResolves (lineBuffer : list ascii) : bool :=
  match resolve lineBuffer with inr _ => true | inl _ => false end.

(** The bases one line adds to the sink. *)
Definition lineData (lineBuffer : list ascii) : list ascii :=
  if isHeaderLine lineBuffer then paddingBuffer chromosomePaddingSize
  else map normChar (lineText lineBuffer).

Definition lineHasInvalid (lineBuffer : list ascii) : bool :=
  negb (isHeaderLine lineBuffer)
  && existsb isInvalidUpper (map toupper (lineText lineBuffer)).

Definition lineMessages (warned : bool) (lineBuffer : list ascii) : list Message :=
  if isHeaderLine lineBuffer then []
  else lineWarnings warned [] (map toupper (lineText lineBuffer)) (lineTail lineBuffer).

Definition lineContigs (pos : nat) (lineBuffer : list ascii) : list Genome.Contig :=
  if isHeaderLine lineBuffer
  then [ {| Genome.name := storedName lineBuffer;
            Genome.beginningLocation := Z.of_nat (pos + chromosomePaddingSize);
            Genome.length := 0 |} ]
  else [].

Lemma length_paddingBuffer : length (paddingBuffer chromosomePaddingSize) = chromosomePaddingSize.
Proof. apply repeat_length. Qed.

Lemma cstr_normalized (s : list ascii) : cstr (map normChar s) = map normChar s.
Proof.
  apply cstr_text. rewrite <- (map_map toupper fixChar). apply isText_map_fixChar.
Qed.

Lemma cstr_lineData (lineBuffer : list ascii) :
  cstr (lineData lineBuffer) = lineData lineBuffer.
Proof.
  unfold lineData. destruct (isHeaderLine lineBuffer);
    [apply cstr_paddingBuffer | apply cstr_normalized].
Qed.

Lemma step_Continue (st st' : LoaderState) (lineBuffer : list ascii) :
  step st lineBuffer = Continue st' ->
  Genome.bases (genome st') = Genome.bases (genome st) ++ lineData lineBuffer
  /\ Genome.maxBases (genome st') = Genome.maxBases (genome st)
  /\ Genome.contigs (genome st') =
       Genome.contigs (genome st)
       ++ lineContigs (length (Genome.bases (genome st))) lineBuffer
  /\ inAContig st' = true
  /\ warningIssued st' = warningIssued st || lineHasInvalid lineBuffer
  /\ messages st' = messages st ++ lineMessages (warningIssued st) lineBuffer
  /\ (isHeaderLine lineBuffer = true -> headerResolves lineBuffer = true)
  /\ (isHeaderLine lineBuffer = false -> inAContig st = true).
Proof.
  unfold processLine, lineData, lineContigs, lineHasInvalid, lineMessages,
         storedName, headerResolves.
  destruct (isHeaderLine lineBuffer) eqn:Hh.
  - unfold processHeaderLine, addData. simpl.
    destruct (Genome.addData (genome st) (paddingBuffer chromosomePaddingSize))
      as [g|] eqn:Hadd; [|discriminate].
    apply Genome_addData_Some in Hadd as (Hb & Hm & Hc & _).
    rewrite cstr_paddingBuffer in Hb. simpl.
    destruct (resolve lineBuffer) as [m|chrName]; [discriminate|].
    intros [= <-]. simpl.
    rewrite Hc, orb_false_r, app_nil_r.
    unfold Genome.getCountOfBases. rewrite Hb, length_app, length_paddingBuffer.
    repeat split; auto. discriminate.
  - rewrite processSequenceLine_eq. unfold sequenceLineStep, addData.
    destruct (inAContig st) eqn:Hin; [|discriminate]. simpl.
    match goal with |- context [Genome.addData ?g ?d] =>
      destruct (Genome.addData g d) as [g'|] eqn:Hadd; [|discriminate] end.
    apply Genome_addData_Some in Hadd as (Hb & Hm & Hc & _).
    rewrite cstr_normalized in Hb. simpl in *.
    intros [= <-]. simpl. rewrite app_nil_r.
    repeat split; auto. discriminate.
Qed.

Lemma FindFASTATagValue_exit_message (lineBuffer tag : list ascii) (m : Message) :
  FindFASTATagValue lineBuffer tag = TagExit m -> isGenomeFull m = false.
Proof.
  unfold FindFASTATagValue.
  destruct (findTagLoop _ _ _ _) as [[t|]|]; try discriminate.
  destruct (_ <? _); [discriminate|].
  destruct (strchr_from _ _ _); [discriminate|]. intros [= <-]. reflexivity.
Qed.

Lemma resolve_exit_message (lineBuffer : list ascii) (m : Message) :
  resolve lineBuffer = inl m -> isGenomeFull m = false.
Proof.
  unfold resolveContigName. destruct chrTag as [tag|]; [|discriminate].
  destruct (FindFASTATagValue lineBuffer tag) as [p n| |m'| |] eqn:E.
  - destruct chrMapFilename; [destruct (chrMap !! _)|]; discriminate.
  - intros [= <-]. reflexivity.
  - intros [= <-]. eapply FindFASTATagValue_exit_message, E.
  - intros [= <-]. reflexivity.
  - intros [= <-]. reflexivity.
Qed.

Lemma step_Exit (st st' : LoaderState) (lineBuffer : list ascii) :
  step st lineBuffer = Exit st' ->
  Genome.maxBases (genome st') = Genome.maxBases (genome st)
  /\ (Genome.bases (genome st') = Genome.bases (genome st)
      \/ Genome.bases (genome st') = Genome.bases (genome st) ++ lineData lineBuffer)
  /\ exists ws m,
       messages st' = messages st ++ ws ++ [m]
       /\ ranOutOfRoom ws = false
       /\ (isGenomeFull m = true ->
           (Genome.maxBases (genome st)
            < Z.of_nat (length (Genome.bases (genome st)) + length (lineData lineBuffer)))%Z).
Proof.
  unfold processLine, lineData.
  destruct (isHeaderLine lineBuffer) eqn:Hh.
  - unfold processHeaderLine, addData. simpl.
    destruct (Genome.addData (genome st) (paddingBuffer chromosomePaddingSize))
      as [g|] eqn:Hadd.
    + apply Genome_addData_Some in Hadd as (Hb & Hm & Hc & _).
      rewrite cstr_paddingBuffer in Hb. simpl.
      destruct (resolve lineBuffer) as [m|chrName] eqn:Hr; [|discriminate].
      intros [= <-]. simpl. repeat split; auto.
      exists [], m. repeat split; auto.
      intros Hfull. rewrite (resolve_exit_message _ _ Hr) in Hfull. discriminate.
    + apply Genome_addData_None in Hadd.
      unfold strlen in Hadd. rewrite cstr_paddingBuffer in Hadd.
      intros [= <-]. simpl. repeat split; auto.
      exists [], MsgGenomeFull. repeat split; auto.
  - rewrite processSequenceLine_eq. unfold sequenceLineStep, addData.
    destruct (inAContig st) eqn:Hin; simpl.
    + match goal with |- context [Genome.addData ?g ?d] =>
        destruct (Genome.addData g d) as [g'|] eqn:Hadd; [discriminate|] end.
      apply Genome_addData_None in Hadd.
      unfold strlen in Hadd. rewrite cstr_normalized in Hadd. simpl in Hadd.
      intros [= <-]. simpl. repeat split; auto.
      eexists _, MsgGenomeFull. repeat split.
      * rewrite <- app_assoc. reflexivity.
      * apply ranOutOfRoom_lineWarnings.
      * intros _. exact Hadd.
    + intros [= <-]. simpl. repeat split; auto.
      exists [], MsgNoContigName. repeat split; auto. discriminate.
Qed.

Lemma step_progress (st : LoaderState) (lineBuffer : list ascii) :
  (Z.of_nat (length (Genome.bases (genome st)) + length (lineData lineBuffer))
   <= Genome.maxBases (genome st))%Z ->
  (isHeaderLine lineBuffer = true -> headerResolves lineBuffer = true) ->
  (isHeaderLine lineBuffer = false -> inAContig st = true) ->
  exists st', step st lineBuffer = Continue st'.
Proof.
  intros Hcap Hres Hin.
  destruct (step st lineBuffer) as [st'|st'] eqn:E; [eauto|exfalso].
  pose proof E as E'. apply step_Exit in E' as (_ & _ & ws & m & _ & _ & Hfull).
  revert E. unfold processLine, headerResolves in *.
  destruct (isHeaderLine lineBuffer) eqn:Hh.
  - unfold processHeaderLine, addData. simpl.
    destruct (Genome.addData (genome st) (paddingBuffer chromosomePaddingSize))
      as [g|] eqn:Hadd.
    + simpl. specialize (Hres eq_refl).
      destruct (resolve lineBuffer); discriminate.
    + apply Genome_addData_None in Hadd. unfold lineData in Hcap.
      rewrite Hh in Hcap. unfold strlen in Hadd.
      rewrite cstr_paddingBuffer in Hadd. lia.
  - rewrite processSequenceLine_eq. unfold sequenceLineStep, addData.
    rewrite (Hin eq_refl). simpl.
    match goal with |- context [Genome.addData ?g ?d] =>
      destruct (Genome.addData g d) as [g'|] eqn:Hadd; [discriminate|] end.
    apply Genome_addData_None in Hadd. unfold lineData in Hcap.
    rewrite Hh in Hcap. unfold strlen in Hadd.
    rewrite cstr_normalized in Hadd. simpl in Hadd. lia.
Qed.

(** ** The whole loop *)

Definition stateOf (s : Step) : LoaderState :=
  match s with Continue st => st | Exit st => st end.

(** The bases, contigs and messages that a run over [lines] adds. *)
Definition loadData (lines : list (list ascii)) : list ascii :=
  concat (map lineData lines).

Fixpoint contigsFrom (pos : nat) (lines : list (list ascii)) : list Genome.Contig :=
  match lines with
  | [] => []
  | l :: rest => lineContigs pos l ++ contigsFrom (pos + length (lineData l)) rest
  end.

Fixpoint messagesFrom (warned : bool) (lines : list (list ascii)) : list Message :=
  match lines with
  | [] => []
  | l :: rest => lineMessages warned l ++ messagesFrom (warned || lineHasInvalid l) rest
  end.

Definition beginsWithHeader (lines : list (list ascii)) : bool :=
  match lines with
  | l :: _ => isHeaderLine l
  | [] => false
  end.

(** No sequence line comes before the first header. *)
Definition headerComesFirst (inContig : bool) (lines : list (list ascii)) : bool :=
  match lines with
  | l :: _ => inContig || isHeaderLine l
  | [] => true
  end.

Definition headersResolve (lines : list (list ascii)) : bool :=
  forallb (fun l => negb (isHeaderLine l) || headerResolves l) lines.

Lemma run_Continue (lines : list (list ascii)) (st st' : LoaderState) :
  run lines st = Continue st' ->
  Genome.bases (genome st') = Genome.bases (genome st) ++ loadData lines
  /\ Genome.maxBases (genome st') = Genome.maxBases (genome st)
  /\ Genome.contigs (genome st') =
       Genome.contigs (genome st)
       ++ contigsFrom (length (Genome.bases (genome st))) lines
  /\ warningIssued st' = warningIssued st || existsb lineHasInvalid lines
  /\ messages st' = messages st ++ messagesFrom (warningIssued st) lines.
Proof.
  revert st. induction lines as [|l rest IH]; intros st; simpl.
  - intros [= <-]. unfold loadData. simpl.
    rewrite !app_nil_r, orb_false_r. auto.
  - destruct (step st l) as [st1|st1] eqn:E; [|discriminate].
    intros Hrun. apply step_Continue in E as (Hb & Hm & Hc & _ & Hw & Hmsg & _).
    apply IH in Hrun as (Hb' & Hm' & Hc' & Hw' & Hmsg').
    rewrite Hb', Hm', Hc', Hw', Hmsg', Hb, Hm, Hc, Hw, Hmsg.
    unfold loadData. simpl. rewrite length_app, <- !app_assoc, orb_assoc. auto.
Qed.

Lemma run_progress (lines : list (list ascii)) (st : LoaderState) :
  (Z.of_nat (length (Genome.bases (genome st)) + length (loadData lines))
   <= Genome.maxBases (genome st))%Z ->
  headersResolve lines = true ->
  headerComesFirst (inAContig st) lines = true ->
  exists st', run lines st = Continue st'.
Proof.
  revert st. induction lines as [|l rest IH]; intros st Hcap Hres Hin; simpl.
  - eauto.
  - unfold loadData in Hcap. simpl in Hcap. rewrite length_app in Hcap.
    simpl in Hres. apply andb_true_iff in Hres as [Hres1 Hres2].
    destruct (step_progress st l) as [st1 E].
    + lia.
    + intros Hh. rewrite Hh in Hres1. exact Hres1.
    + intros Hh. simpl in Hin. rewrite Hh, orb_false_r in Hin. exact Hin.
    + rewrite E. pose proof E as E'.
      apply step_Continue in E' as (Hb & Hm & _ & Hin' & _).
      apply IH; auto.
      * rewrite Hb, Hm, length_app. unfold loadData. lia.
      * rewrite Hin'. destruct rest; reflexivity.
Qed.

(** However the run ends, it has added no more than the data of its lines. *)
Lemma run_bound (lines : list (list ascii)) (st : LoaderState) :
  length (Genome.bases (genome (stateOf (run lines st))))
  <= length (Genome.bases (genome st)) + length (loadData lines)
  /\ Genome.maxBases (genome (stateOf (run lines st))) = Genome.maxBases (genome st).
Proof.
  revert st. induction lines as [|l rest IH]; intros st; simpl.
  - split; [lia|reflexivity].
  - unfold loadData in *. simpl. rewrite length_app.
    destruct (step st l) as [st1|st1] eqn:E.
    + apply step_Continue in E as (Hb & Hm & _).
      destruct (IH st1) as (H2 & H3).
      rewrite Hb, length_app in H2. rewrite H3, Hm. split; [lia|reflexivity].
    + apply step_Exit in E as (Hm & Hb & _). simpl. split; [|exact Hm].
      destruct Hb as [-> | ->]; rewrite ?length_app; lia.
Qed.

(** With room for all the data of the remaining lines, the sink refuses
    nothing, whether the run goes on to the end or exits on the way. *)
Lemma run_room (lines : list (list ascii)) (st : LoaderState) :
  (Z.of_nat (length (Genome.bases (genome st)) + length (loadData lines))
   <= Genome.maxBases (genome st))%Z ->
  ranOutOfRoom (messages st) = false ->
  ranOutOfRoom (messages (stateOf (run lines st))) = false.
Proof.
  revert st. induction lines as [|l rest IH]; intros st Hcap Hmsg; simpl; [exact Hmsg|].
  unfold loadData in *. simpl in Hcap. rewrite length_app in Hcap.
  destruct (step st l) as [st1|st1] eqn:E.
  - apply step_Continue in E as (Hb & Hm & _ & _ & _ & Hmsg1 & _).
    apply IH.
    + rewrite Hb, Hm, length_app. lia.
    + rewrite Hmsg1, ranOutOfRoom_app, Hmsg. unfold lineMessages.
      destruct (isHeaderLine l); [reflexivity|apply ranOutOfRoom_lineWarnings].
  - apply step_Exit in E as (Hm & Hb & ws & m & Hmsg1 & Hws & Hfull). simpl.
    rewrite Hmsg1, !ranOutOfRoom_app, Hmsg, Hws. simpl.
    rewrite orb_false_r. destruct (isGenomeFull m) eqn:Em; [|reflexivity].
    specialize (Hfull eq_refl). lia.
Qed.

Definition allGenomeBytes (s : list ascii) : bool := forallb isGenomeByte s.

Lemma allGenomeBytes_app (a b : list ascii) :
  allGenomeBytes (a ++ b) = allGenomeBytes a && allGenomeBytes b.
Proof. apply forallb_app. Qed.

Lemma allGenomeBytes_paddingBuffer :
  allGenomeBytes (paddingBuffer chromosomePaddingSize) = true.
Proof.
  unfold paddingBuffer. induction chromosomePaddingSize as [|n IH]; simpl; auto.
Qed.

Lemma allGenomeBytes_normalized (s : list ascii) :
  allGenomeBytes (map normChar s) = true.
Proof.
  induction s as [|c s IH]; simpl; [reflexivity|].
  rewrite normChar_genome_byte. exact IH.
Qed.

Lemma allGenomeBytes_lineData (l : list ascii) : allGenomeBytes (lineData l) = true.
Proof.
  unfold lineData. destruct (isHeaderLine l);
    [apply allGenomeBytes_paddingBuffer | apply allGenomeBytes_normalized].
Qed.

(** The invariant of the base buffer holds after every line, on the way to
    the end of the input and on every exit. *)
Lemma run_genome_bytes (lines : list (list ascii)) (st : LoaderState) :
  allGenomeBytes (Genome.bases (genome st)) = true ->
  allGenomeBytes (Genome.bases (genome (stateOf (run lines st)))) = true.
Proof.
  revert st. induction lines as [|l rest IH]; intros st Hst; simpl; [exact Hst|].
  destruct (step st l) as [st1|st1] eqn:E.
  - apply IH. apply step_Continue in E as (Hb & _).
    rewrite Hb, allGenomeBytes_app, Hst. apply allGenomeBytes_lineData.
  - simpl. apply step_Exit in E as (_ & Hb & _).
    destruct Hb as [-> | ->]; [exact Hst|].
    rewrite allGenomeBytes_app, Hst. apply allGenomeBytes_lineData.
Qed.

End MainLoop.

(** ** The lines of a file *)

Lemma concat_fileLines (content : list ascii) : concat (fileLines content) = content.
Proof.
  induction content as [|c rest IH]; simpl; [reflexivity|].
  destruct (ascii_eqb c LF); simpl; [f_equal; exact IH|].
  destruct (fileLines rest) as [|l ls]; simpl in *; rewrite <- IH; reflexivity.
Qed.

(** A line without the newline that ends it. *)
Fixpoint withoutTerminator (line : list ascii) : list ascii :=
  match line with
  | [] => []
  | c :: rest =>
      match rest with
      | [] => if ascii_eqb c LF then [] else [c]
      | _ :: _ => c :: withoutTerminator rest
      end
  end.

Lemma lineText_fileLines (content : list ascii) :
  isText content = true ->
  Forall (fun l => l <> [] /\ lineText l = withoutTerminator l) (fileLines content).
Proof.
  induction content as [|c rest IH]; simpl; intros Htext; [constructor|].
  apply andb_true_iff in Htext as [Hc Hrest]. apply negb_true_iff in Hc.
  specialize (IH Hrest).
  destruct (ascii_eqb c LF) eqn:E.
  - constructor; [|exact IH]. split; [discriminate|].
    simpl. rewrite Hc, E. reflexivity.
  - destruct (fileLines rest) as [|l ls].
    + constructor; [|constructor]. split; [discriminate|].
      simpl. rewrite Hc, E. reflexivity.
    + inversion IH as [|? ? [Hne Hl] Hls]; subst.
      constructor; [|exact Hls]. split; [discriminate|].
      simpl. rewrite Hc, E. simpl. rewrite Hl.
      destruct l; [contradiction|reflexivity].
Qed.

Lemma length_lineText_le (l : list ascii) : length (lineText l) <= length l.
Proof.
  induction l as [|c l IH]; simpl; [lia|].
  destruct (ascii_eqb c NUL || ascii_eqb c LF); simpl; lia.
Qed.

(** The lines whose first character is the record marker, and the others. *)
Definition headerCount (lines : list (list ascii)) : nat :=
  length (filter (fun l => isHeaderLine l = true) lines).

Definition sequenceLines (lines : list (list ascii)) : list (list ascii) :=
  filter (fun l => isHeaderLine l = false) lines.

(** The characters of the sequence lines, line terminators left out. *)
Definition sequenceCharacters (lines : list (list ascii)) : nat :=
  list_sum (map (fun l => length (withoutTerminator l)) (sequenceLines lines)).

Lemma headerCount_cons (l : list ascii) (lines : list (list ascii)) :
  headerCount (l :: lines) =
  (if isHeaderLine l then 1 else 0) + headerCount lines.
Proof.
  unfold headerCount. rewrite filter_cons.
  destruct (decide (isHeaderLine l = true)) as [->|Hn]; [reflexivity|].
  apply not_true_is_false in Hn. rewrite Hn. reflexivity.
Qed.

Lemma sequenceLines_cons (l : list ascii) (lines : list (list ascii)) :
  sequenceLines (l :: lines) =
  if isHeaderLine l then sequenceLines lines else l :: sequenceLines lines.
Proof.
  unfold sequenceLines. rewrite filter_cons.
  destruct (decide (isHeaderLine l = false)) as [->|Hn]; [reflexivity|].
  apply not_false_is_true in Hn. rewrite Hn. reflexivity.
Qed.

Lemma length_loadData (pad : nat) (lines : list (list ascii)) :
  length (loadData pad lines)
  = list_sum (map (fun l => length (lineText l)) (sequenceLines lines))
    + pad * headerCount lines.
Proof.
  unfold loadData. induction lines as [|l lines IH]; simpl; [cbn; lia|].
  rewrite length_app, IH, headerCount_cons, sequenceLines_cons.
  unfold lineData. destruct (isHeaderLine l); simpl.
  - rewrite length_paddingBuffer. lia.
  - rewrite length_map. lia.
Qed.

Lemma length_loadData_le (pad : nat) (lines : list (list ascii)) :
  length (loadData pad lines) <= length (concat lines) + pad * headerCount lines.
Proof.
  unfold loadData. induction lines as [|l lines IH]; simpl; [cbn; lia|].
  rewrite !length_app, headerCount_cons.
  unfold lineData at 1. destruct (isHeaderLine l); simpl.
  - rewrite length_paddingBuffer. lia.
  - rewrite length_map. pose proof (length_lineText_le l). lia.
Qed.

Lemma sequenceCharacters_text (content : list ascii) :
  isText content = true ->
  list_sum (map (fun l => length (lineText l)) (sequenceLines (fileLines content)))
  = sequenceCharacters (fileLines content).
Proof.
  intros Htext. apply lineText_fileLines in Htext.
  unfold sequenceCharacters.
  induction Htext as [|l lines [_ Hl] _ IH]; [reflexivity|].
  rewrite sequenceLines_cons. destruct (isHeaderLine l); [exact IH|].
  simpl. rewrite Hl, IH. reflexivity.
Qed.

(** ** The size of the sink *)

(** The bound of the size estimate, as a number. *)
Definition sizeBound (content : list ascii) (chromosomePaddingSize : nat) : Z :=
  (Z.of_nat (length content)
   + (Z.of_nat (headerCount (fileLines content)) + 1) * Z.of_nat chromosomePaddingSize)%Z.

(** The machine arithmetic of the size estimate does not wrap. *)
Definition sizesFit (content : list ascii) (chromosomePaddingSize : nat) : Prop :=
  (Z.of_nat (headerCount (fileLines content)) + 1 < 2 ^ 32)%Z
  /\ (sizeBound content chromosomePaddingSize < 2 ^ 64)%Z.

Lemma countChromosomes_from (lines : list (list ascii)) (n : Z) :
  (0 <= n)%Z -> (n + Z.of_nat (headerCount lines) < 2 ^ 32)%Z ->
  fold_left (fun nChromosomes lineBuffer =>
               if isHeaderLine lineBuffer then wrap32 (nChromosomes + 1)
               else nChromosomes) lines n
  = (n + Z.of_nat (headerCount lines))%Z.
Proof.
  revert n. induction lines as [|l lines IH]; intros n Hn Hlt; simpl.
  - unfold headerCount. simpl. lia.
  - rewrite headerCount_cons in Hlt |- *.
    destruct (isHeaderLine l).
    + unfold wrap32. rewrite Z.mod_small by lia. rewrite IH; lia.
    + rewrite IH; lia.
Qed.

Lemma countChromosomes_exact (lines : list (list ascii)) :
  (Z.of_nat (headerCount lines) + 1 < 2 ^ 32)%Z ->
  countChromosomes lines = Z.of_nat (headerCount lines).
Proof.
  intros H. unfold countChromosomes. rewrite countChromosomes_from; lia.
Qed.

Lemma genomeSize_exact (content : list ascii) (chromosomePaddingSize : nat) :
  sizesFit content chromosomePaddingSize ->
  genomeSize (QueryFileSize content) (countChromosomes (fileLines content))
             chromosomePaddingSize
  = sizeBound content chromosomePaddingSize.
Proof.
  intros [H32 H64]. unfold genomeSize, sizeBound, QueryFileSize, wrap32, wrap64 in *.
  rewrite countChromosomes_exact by exact H32.
  rewrite (Z.mod_small (_ + 1)) by lia.
  rewrite (Z.mod_small (_ * _)) by nia.
  rewrite Z.mod_small by nia. reflexivity.
Qed.

(** ** The end of the load *)

Definition resultBases (r : LoadResult) : list ascii :=
  match r with
  | Loaded g _ _ => Genome.bases g
  | Null _ => []
  | Exited st => Genome.bases (genome st)
  | NoFileSize => []
  end.

Definition resultMessages (r : LoadResult) : list Message :=
  match r with
  | Loaded _ _ msgs => msgs
  | Null msgs => msgs
  | Exited st => messages st
  | NoFileSize => []
  end.

Lemma finishLoad_Loaded (pad : nat) (st : LoaderState) (g : Genome.t)
    (a : option AltContigMap) (msgs : list Message) :
  finishLoad pad st = Loaded g a msgs ->
  Genome.bases g = Genome.bases (genome st) ++ paddingBuffer pad
  /\ Genome.contigs g =
       Genome.fillLengths (Z.of_nat (length (Genome.bases g))) (Genome.contigs (genome st))
  /\ msgs = messages st.
Proof.
  unfold finishLoad, addData.
  destruct (Genome.addData (genome st) (paddingBuffer pad)) as [g1|] eqn:Hadd;
    [|discriminate].
  apply Genome_addData_Some in Hadd as (Hb & _ & Hc & _).
  rewrite cstr_paddingBuffer in Hb.
  intros [= <- _ <-]. simpl.
  destruct (altMap st); simpl; unfold Genome.getCountOfBases; rewrite Hb, Hc; auto.
Qed.

Lemma finishLoad_fits (pad : nat) (st : LoaderState) :
  (Z.of_nat (length (Genome.bases (genome st)) + pad) <= Genome.maxBases (genome st))%Z ->
  exists g, finishLoad pad st = Loaded g (altMap st) (messages st).
Proof.
  intros Hcap. unfold finishLoad, addData.
  destruct (Genome_addData_fits (genome st) (paddingBuffer pad)) as [g1 ->].
  - unfold strlen. rewrite cstr_paddingBuffer, length_paddingBuffer. exact Hcap.
  - simpl. eauto.
Qed.

Lemma finishLoad_result (pad : nat) (st : LoaderState) :
  (resultBases (finishLoad pad st) = Genome.bases (genome st) ++ paddingBuffer pad
   /\ resultMessages (finishLoad pad st) = messages st)
  \/ (resultBases (finishLoad pad st) = Genome.bases (genome st)
      /\ resultMessages (finishLoad pad st) = messages st ++ [MsgGenomeFull]
      /\ (Genome.maxBases (genome st)
          < Z.of_nat (length (Genome.bases (genome st)) + pad))%Z).
Proof.
  unfold finishLoad, addData.
  destruct (Genome.addData (genome st) (paddingBuffer pad)) as [g1|] eqn:Hadd.
  - left. apply Genome_addData_Some in Hadd as (Hb & _ & _ & _).
    rewrite cstr_paddingBuffer in Hb. simpl.
    destruct (altMap st); simpl; auto.
  - right. apply Genome_addData_None in Hadd.
    unfold strlen in Hadd. rewrite cstr_paddingBuffer, length_paddingBuffer in Hadd.
    simpl. auto.
Qed.

(** ** The whole of [ReadFASTAGenome] *)

Section Load.

Variable fs : FileSystem.
Variable fileName : string.
Variable pieceNameTerminatorCharacters : option (list ascii).
Variable spaceIsAPieceNameTerminator : bool.
Variable chromosomePaddingSize : nat.
Variable chrTag : option (list ascii).
Variable chrMapFilename : option string.
Variable altMap0 : option AltContigMap.
Variable content : list ascii.
Variable chrMap : ChrMap.

Hypothesis fasta_opens : fs fileName = Some content.
Hypothesis chrMap_opens : openChrMap fs chrMapFilename = inr chrMap.

Local Abbreviation load :=
  (ReadFASTAGenome fs fileName pieceNameTerminatorCharacters
     spaceIsAPieceNameTerminator chromosomePaddingSize chrTag chrMapFilename altMap0).
Local Abbreviation run :=
  (processLines pieceNameTerminatorCharacters spaceIsAPieceNameTerminator
     chromosomePaddingSize chrTag chrMapFilename chrMap).
Local Abbreviation st0 := (initialState content chromosomePaddingSize altMap0).
Local Abbreviation lines := (fileLines content).

Lemma ReadFASTAGenome_opened :
  load = match run lines st0 with
         | Exit st' => Exited st'
         | Continue st' => finishLoad chromosomePaddingSize st'
         end.
Proof. unfold ReadFASTAGenome. rewrite fasta_opens, chrMap_opens. reflexivity. Qed.

(** What a load that returns a genome has put into it. *)
Lemma ReadFASTAGenome_Loaded (g : Genome.t) (a : option AltContigMap)
    (msgs : list Message) :
  load = Loaded g a msgs ->
  Genome.bases g = loadData chromosomePaddingSize lines
                   ++ paddingBuffer chromosomePaddingSize
  /\ Genome.contigs g =
       Genome.fillLengths (Z.of_nat (length (Genome.bases g)))
         (contigsFrom pieceNameTerminatorCharacters spaceIsAPieceNameTerminator
                      chromosomePaddingSize chrTag chrMapFilename chrMap 0 lines)
  /\ msgs = messagesFrom false lines.
Proof.
  rewrite ReadFASTAGenome_opened.
  destruct (run lines st0) as [st'|st'] eqn:Hrun; [|discriminate].
  apply run_Continue in Hrun as (Hb & _ & Hc & _ & Hm). simpl in Hb, Hc, Hm.
  intros Hfin. apply finishLoad_Loaded in Hfin as (Hb' & Hc' & ->).
  rewrite Hc', Hc, Hb', Hb, Hm. auto.
Qed.

(** A load of a file that starts with a header, whose headers all yield a
    name, returns a genome when the size arithmetic does not wrap. *)
Lemma ReadFASTAGenome_loads :
  headerComesFirst false lines = true ->
  headersResolve pieceNameTerminatorCharacters spaceIsAPieceNameTerminator
                 chrTag chrMapFilename chrMap lines = true ->
  sizesFit content chromosomePaddingSize ->
  exists g a msgs, load = Loaded g a msgs.
Proof.
  intros Hfirst Hres Hfit.
  pose proof (genomeSize_exact _ _ Hfit) as Hsize.
  pose proof (length_loadData_le chromosomePaddingSize lines) as Hle.
  rewrite concat_fileLines in Hle.
  rewrite ReadFASTAGenome_opened.
  destruct (run_progress pieceNameTerminatorCharacters spaceIsAPieceNameTerminator
              chromosomePaddingSize chrTag chrMapFilename chrMap lines st0)
    as [st' Hrun]; auto.
  - simpl. rewrite Hsize. unfold sizeBound. nia.
  - rewrite Hrun. apply run_Continue in Hrun as (Hb & Hm & _). simpl in Hb, Hm.
    destruct (finishLoad_fits chromosomePaddingSize st') as [g Hg].
    + rewrite Hb, Hm, Hsize. unfold sizeBound. nia.
    + eauto.
Qed.

End Load.

(** ** Sample input *)

Definition sampleFASTA : list ascii :=
  txt ">chrI first contig" ++ [LF] ++ txt "acgtNZ" ++ [LF] ++ txt "zzA" ++ [LF]
  ++ txt ">gi|123|ref|XYZ.1|" ++ [LF] ++ txt "AC" ++ [LF] ++ txt "gt".

Definition sampleChrMap : list ascii :=
  txt "# canonical, then aliases" ++ [LF] ++ txt "chr1" ++ [TAB] ++ txt "chrI" ++ [LF].

Definition sampleFS : FileSystem :=
  fun f => if String.eqb f "genome.fa" then Some sampleFASTA
           else if String.eqb f "chr.map" then Some sampleChrMap
           else None.

Lemma sample_sizesFit : sizesFit sampleFASTA 3.
Proof. split; vm_compute; reflexivity. Defined.

(** * The claims *)

(** The bytes of a load, counted as the source cuts its lines: a sequence
    line is truncated at its newline only, so a carriage return before the
    newline is one of its characters. *)
Lemma loaded_bases_count
    (fs : FileSystem) (fileName : string)
    (pieceNameTerminatorCharacters : option (list ascii))
    (spaceIsAPieceNameTerminator : bool) (chromosomePaddingSize : nat)
    (chrTag : option (list ascii)) (chrMapFilename : option string)
    (altMap : option AltContigMap) (content : list ascii) (chrMap : ChrMap) :
  fs fileName = Some content ->
  openChrMap fs chrMapFilename = inr chrMap ->
  isText content = true ->
  beginsWithHeader (fileLines content) = true ->
  headersResolve pieceNameTerminatorCharacters spaceIsAPieceNameTerminator
                 chrTag chrMapFilename chrMap (fileLines content) = true ->
  sizesFit content chromosomePaddingSize ->
  exists g a msgs,
    ReadFASTAGenome fs fileName pieceNameTerminatorCharacters
      spaceIsAPieceNameTerminator chromosomePaddingSize chrTag chrMapFilename altMap
    = Loaded g a msgs
    /\ length (Genome.bases g)
       = sequenceCharacters (fileLines content)
         + chromosomePaddingSize * (headerCount (fileLines content) + 1).
Proof.
  intros Hfs Hmap Htext Hbegin Hres Hfit.
  destruct (ReadFASTAGenome_loads fs fileName pieceNameTerminatorCharacters
              spaceIsAPieceNameTerminator chromosomePaddingSize chrTag
              chrMapFilename altMap content chrMap Hfs Hmap) as (g & a & msgs & Hload);
    auto.
  { destruct (fileLines content); [discriminate|exact Hbegin]. }
  exists g, a, msgs. split; [exact Hload|].
  eapply ReadFASTAGenome_Loaded in Hload as (Hb & _); eauto.
  rewrite Hb, length_app, length_loadData, length_paddingBuffer.
  rewrite sequenceCharacters_text by exact Htext. lia.
Qed.

(** The count of the specification: the characters of the sequence lines,
    line terminators excluded.  A line terminator is the newline that ends
    the line and a carriage return before it, as for the header lines,
    whose name ends at either. *)
Fixpoint withoutLast (t : ascii) (line : list ascii) : list ascii :=
  match line with
  | [] => []
  | c :: rest =>
      match rest with
      | [] => if ascii_eqb c t then [] else [c]
      | _ :: _ => c :: withoutLast t rest
      end
  end.

Definition withoutLineTerminator (line : list ascii) : list ascii :=
  withoutLast CR (withoutLast LF line).

Definition specSequenceCharacters (lines : list (list ascii)) : nat :=
  list_sum (map (fun l => length (withoutLineTerminator l)) (sequenceLines lines)).

(** No carriage return in a text. *)
Definition noCarriageReturn (s : list ascii) : bool :=
  forallb (fun c => negb (ascii_eqb c CR)) s.

Lemma withoutLast_LF (line : list ascii) : withoutLast LF line = withoutTerminator line.
Proof.
  induction line as [|c rest IH]; [reflexivity|].
  simpl. destruct rest; [reflexivity|]. f_equal. exact IH.
Qed.

Lemma withoutLast_absent (t : ascii) (line : list ascii) :
  forallb (fun c => negb (ascii_eqb c t)) line = true -> withoutLast t line = line.
Proof.
  induction line as [|c rest IH]; [reflexivity|].
  intros H. apply andb_true_iff in H as [Hc Hrest]. apply negb_true_iff in Hc.
  simpl. destruct rest as [|d rest]; [rewrite Hc; reflexivity|].
  f_equal. apply IH, Hrest.
Qed.

Lemma noCarriageReturn_withoutTerminator (line : list ascii) :
  noCarriageReturn line = true -> noCarriageReturn (withoutTerminator line) = true.
Proof.
  unfold noCarriageReturn. induction line as [|c rest IH]; [reflexivity|].
  intros H. apply andb_true_iff in H as [Hc Hrest].
  simpl. destruct rest as [|d rest].
  - destruct (ascii_eqb c LF); simpl; [reflexivity|]. rewrite Hc. reflexivity.
  - change (forallb (fun c0 => negb (ascii_eqb c0 CR)) (c :: withoutTerminator (d :: rest)) = true).
    simpl forallb at 1. rewrite Hc. simpl. apply IH, Hrest.
Qed.

Lemma noCarriageReturn_lines (lines : list (list ascii)) :
  noCarriageReturn (concat lines) = true ->
  Forall (fun l => noCarriageReturn l = true) lines.
Proof.
  unfold noCarriageReturn. induction lines as [|l lines IH]; simpl; [constructor|].
  rewrite forallb_app. intros H. apply andb_true_iff in H as [Hl Hrest].
  constructor; [exact Hl|apply IH, Hrest].
Qed.

(** On lines without a carriage return the two counts agree. *)
Lemma specSequenceCharacters_newline (lines : list (list ascii)) :
  Forall (fun l => noCarriageReturn l = true) lines ->
  specSequenceCharacters lines = sequenceCharacters lines.
Proof.
  unfold specSequenceCharacters, sequenceCharacters.
  induction 1 as [|l lines Hl _ IH]; [reflexivity|].
  rewrite sequenceLines_cons. destruct (isHeaderLine l); [exact IH|].
  simpl. rewrite IH. f_equal. unfold withoutLineTerminator.
  rewrite withoutLast_LF, withoutLast_absent; [reflexivity|].
  apply noCarriageReturn_withoutTerminator, Hl.
Qed.

(** C1.  For an input that begins with a header line and loads, and whose
    lines end in a bare newline, the number of bytes that
    [ReadFASTAGenome] appends to the genome is the number of characters of
    the sequence lines, their line terminators excluded, plus
    [chromosomePaddingSize] times the number of contigs plus one.  The
    input loads when it is a text (no NUL byte), each of its headers yields
    a contig name, and the machine arithmetic of the sizes and of the
    padding block does not wrap. *)
Theorem total_bases_of_newline_input
    (fs : FileSystem) (fileName : string)
    (pieceNameTerminatorCharacters : option (list ascii))
    (spaceIsAPieceNameTerminator : bool) (chromosomePaddingSize : nat)
    (chrTag : option (list ascii)) (chrMapFilename : option string)
    (altMap : option AltContigMap) (content : list ascii) (chrMap : ChrMap) :
  fs fileName = Some content ->
  openChrMap fs chrMapFilename = inr chrMap ->
  isText content = true ->
  noCarriageReturn content = true ->
  beginsWithHeader (fileLines content) = true ->
  headersResolve pieceNameTerminatorCharacters spaceIsAPieceNameTerminator
                 chrTag chrMapFilename chrMap (fileLines content) = true ->
  sizesFit content chromosomePaddingSize ->
  (Z.of_nat chromosomePaddingSize + 1 < 2 ^ 32)%Z ->
  exists g a msgs,
    ReadFASTAGenome fs fileName pieceNameTerminatorCharacters
      spaceIsAPieceNameTerminator chromosomePaddingSize chrTag chrMapFilename altMap
    = Loaded g a msgs
    /\ length (Genome.bases g)
       = specSequenceCharacters (fileLines content)
         + chromosomePaddingSize * (headerCount (fileLines content) + 1).
Proof.
  intros Hfs Hmap Htext Hcr Hbegin Hres Hfit _.
  destruct (loaded_bases_count fs fileName pieceNameTerminatorCharacters
              spaceIsAPieceNameTerminator chromosomePaddingSize chrTag
              chrMapFilename altMap content chrMap Hfs Hmap Htext Hbegin Hres Hfit)
    as (g & a & msgs & Hload & Hlen).
  exists g, a, msgs. split; [exact Hload|].
  rewrite Hlen, specSequenceCharacters_newline; [reflexivity|].
  apply noCarriageReturn_lines. rewrite concat_fileLines. exact Hcr.
Qed.

Lemma total_bases_of_newline_input_witness :
  exists g a msgs,
    ReadFASTAGenome sampleFS "genome.fa" None true 3 None None None = Loaded g a msgs
    /\ length (Genome.bases g)
       = specSequenceCharacters (fileLines sampleFASTA)
         + 3 * (headerCount (fileLines sampleFASTA) + 1).
Proof.
  apply (total_bases_of_newline_input sampleFS "genome.fa" None true 3 None None None
           sampleFASTA ∅).
  - reflexivity.
  - reflexivity.
  - reflexivity.
  - reflexivity.
  - reflexivity.
  - reflexivity.
  - exact sample_sizesFit.
  - vm_compute. reflexivity.
Defined.

(** An input with line ends of carriage return and newline, and an input
    whose second header lacks the configured tag. *)
Definition crlfFASTA : list ascii :=
  txt ">a" ++ [CR; LF] ++ txt "ACGT" ++ [CR; LF] ++ txt "AC" ++ [CR; LF].

Definition untaggedFASTA : list ascii :=
  txt ">gi|1|ref|X.1|" ++ [LF] ++ txt "AC" ++ [LF] ++ txt ">other" ++ [LF]
  ++ txt "GT" ++ [LF].

(** C1 as stated fails.  With line ends of carriage return and newline the
    load appends 12 bytes where the count gives 10: the carriage return of
    each sequence line is appended, as N.  And an input that begins with a
    header need not load: with a tag configured, a later header without it
    ends the run, after 8 bytes where the count gives 13. *)
Lemma total_bases_counts_carriage_returns :
  (exists g a msgs,
     ReadFASTAGenome (fun _ => Some crlfFASTA) "genome.fa" None false 2 None None None
     = Loaded g a msgs
     /\ Genome.bases g = txt "nnACGTNACNnn"
     /\ length (Genome.bases g) = 12
     /\ beginsWithHeader (fileLines crlfFASTA) = true
     /\ specSequenceCharacters (fileLines crlfFASTA)
        + 2 * (headerCount (fileLines crlfFASTA) + 1) = 10)
  /\ (exists st,
        ReadFASTAGenome (fun _ => Some untaggedFASTA) "genome.fa" None false 3
          (Some (txt "ref")) None None
        = Exited st
        /\ Genome.bases (genome st) = txt "nnnACnnn"
        /\ beginsWithHeader (fileLines untaggedFASTA) = true
        /\ specSequenceCharacters (fileLines untaggedFASTA)
           + 3 * (headerCount (fileLines untaggedFASTA) + 1) = 13).
Proof.
  split.
  - eexists _, _, _. split; [vm_compute; reflexivity|].
    repeat split; vm_compute; reflexivity.
  - eexists. split; [vm_compute; reflexivity|].
    repeat split; vm_compute; reflexivity.
Qed.

(** The sequence branch truncates the newline only: a carriage return
    before it is a character of the line, and reaches the genome as N. *)
Example carriage_return_is_kept :
  resultBases (ReadFASTAGenome (fun _ => Some (txt ">a" ++ [CR; LF] ++ txt "AC" ++ [CR; LF]))
                 "genome.fa" None false 1 None None None)
  = txt "nACNn".
Proof. vm_compute. reflexivity. Qed.

(** C7.  A line that does not start with the record marker, met before any
    header line, ends the run with the fatal message of the source, and the
    sink is still empty: nothing of that line has been appended.  The step
    that exits leaves the genome of any state as it finds it. *)
Theorem sequence_before_header_is_fatal
    (fs : FileSystem) (fileName : string)
    (pieceNameTerminatorCharacters : option (list ascii))
    (spaceIsAPieceNameTerminator : bool) (chromosomePaddingSize : nat)
    (chrTag : option (list ascii)) (chrMapFilename : option string)
    (altMap : option AltContigMap) (content : list ascii) (chrMap : ChrMap)
    (before : list (list ascii)) (line : list ascii) (rest : list (list ascii)) :
  fs fileName = Some content ->
  openChrMap fs chrMapFilename = inr chrMap ->
  fileLines content = before ++ line :: rest ->
  forallb (fun l => negb (isHeaderLine l)) before = true ->
  isHeaderLine line = false ->
  (exists st,
     ReadFASTAGenome fs fileName pieceNameTerminatorCharacters
       spaceIsAPieceNameTerminator chromosomePaddingSize chrTag chrMapFilename altMap
     = Exited st
     /\ messages st = [MsgNoContigName]
     /\ Genome.bases (genome st) = []
     /\ Genome.contigs (genome st) = [])
  /\ (forall st, inAContig st = false ->
       processLine pieceNameTerminatorCharacters spaceIsAPieceNameTerminator
         chromosomePaddingSize chrTag chrMapFilename chrMap st line
       = Exit (WriteErrorMessage st MsgNoContigName)
       /\ genome (WriteErrorMessage st MsgNoContigName) = genome st).
Proof.
  intros Hfs Hmap Hlines Hbefore Hline. split.
  - exists (WriteErrorMessage (initialState content chromosomePaddingSize altMap)
                              MsgNoContigName).
    split; [|auto].
    rewrite (ReadFASTAGenome_opened _ _ _ _ _ _ _ _ _ _ Hfs Hmap), Hlines.
    assert (Hfirst : exists l ls, before ++ line :: rest = l :: ls
                                  /\ isHeaderLine l = false).
    { destruct before as [|b before']; simpl in *; [eauto|].
      apply andb_true_iff in Hbefore as [Hb _]. apply negb_true_iff in Hb. eauto. }
    destruct Hfirst as (l & ls & -> & Hl).
    simpl. unfold processLine. rewrite Hl. reflexivity.
  - intros st Hst. split; [|reflexivity].
    unfold processLine, processSequenceLine. rewrite Hline, Hst. reflexivity.
Qed.

Lemma sequence_before_header_is_fatal_witness :
  exists st,
    ReadFASTAGenome (fun _ => Some (txt "ACGT" ++ [LF] ++ txt ">chr1" ++ [LF]))
      "genome.fa" None false 3 None None None
    = Exited st
    /\ messages st = [MsgNoContigName]
    /\ Genome.bases (genome st) = []
    /\ Genome.contigs (genome st) = [].
Proof.
  apply (sequence_before_header_is_fatal _ "genome.fa" None false 3 None None None
           (txt "ACGT" ++ [LF] ++ txt ">chr1" ++ [LF]) ∅
           [] (txt "ACGT" ++ [LF]) [txt ">chr1" ++ [LF]]).
  - reflexivity.
  - reflexivity.
  - reflexivity.
  - reflexivity.
  - reflexivity.
Defined.

(** C9.  The size estimate, file size plus padding size times the number
    of header lines plus one, bounds the bytes appended to the genome,
    however the load ends; and a sink created with that capacity refuses
    no data during the load. *)
Theorem size_estimate_is_upper_bound
    (fs : FileSystem) (fileName : string)
    (pieceNameTerminatorCharacters : option (list ascii))
    (spaceIsAPieceNameTerminator : bool) (chromosomePaddingSize : nat)
    (chrTag : option (list ascii)) (chrMapFilename : option string)
    (altMap : option AltContigMap) (content : list ascii) :
  fs fileName = Some content ->
  (Z.of_nat (length (resultBases
     (ReadFASTAGenome fs fileName pieceNameTerminatorCharacters
        spaceIsAPieceNameTerminator chromosomePaddingSize chrTag chrMapFilename altMap)))
   <= sizeBound content chromosomePaddingSize)%Z
  /\ (genomeSize (QueryFileSize content) (countChromosomes (fileLines content))
                 chromosomePaddingSize
      = sizeBound content chromosomePaddingSize ->
      ranOutOfRoom (resultMessages
        (ReadFASTAGenome fs fileName pieceNameTerminatorCharacters
           spaceIsAPieceNameTerminator chromosomePaddingSize chrTag chrMapFilename altMap))
      = false).
Proof.
  intros Hfs.
  pose proof (length_loadData_le chromosomePaddingSize (fileLines content)) as Hle.
  rewrite concat_fileLines in Hle.
  destruct (openChrMap fs chrMapFilename) as [m|chrMap] eqn:Hmap.
  { unfold ReadFASTAGenome. rewrite Hfs, Hmap. simpl. split.
    - unfold sizeBound. lia.
    - intros _. unfold openChrMap in Hmap.
      destruct chrMapFilename as [f|]; [|discriminate].
      destruct (fs f); [discriminate|]. injection Hmap as <-. reflexivity. }
  rewrite (ReadFASTAGenome_opened _ _ _ _ _ _ _ _ _ _ Hfs Hmap).
  set (st0 := initialState content chromosomePaddingSize altMap).
  pose proof (run_bound pieceNameTerminatorCharacters spaceIsAPieceNameTerminator
                chromosomePaddingSize chrTag chrMapFilename chrMap
                (fileLines content) st0) as [Hbound Hmax].
  pose proof (run_room pieceNameTerminatorCharacters spaceIsAPieceNameTerminator
                chromosomePaddingSize chrTag chrMapFilename chrMap
                (fileLines content) st0) as Hroom.
  simpl in Hbound, Hmax, Hroom.
  destruct (processLines _ _ _ _ _ _ _ st0) as [st'|st'] eqn:Hrun; simpl in *.
  - apply run_Continue in Hrun as (Hb & _). simpl in Hb.
    destruct (finishLoad_result chromosomePaddingSize st')
      as [[-> ->] | (-> & -> & Hfull)]; split.
    + rewrite Hb, length_app, length_paddingBuffer. unfold sizeBound. nia.
    + intros Hsize. apply Hroom; [|reflexivity]. rewrite Hsize. unfold sizeBound. nia.
    + rewrite Hb. unfold sizeBound. nia.
    + intros Hsize. rewrite ranOutOfRoom_app, Hroom; [|rewrite Hsize; unfold sizeBound; nia|reflexivity].
      exfalso. rewrite Hmax, Hsize, Hb in Hfull. unfold sizeBound in Hfull. nia.
  - split.
    + unfold sizeBound. nia.
    + intros Hsize. apply Hroom; [|reflexivity]. rewrite Hsize. unfold sizeBound. nia.
Qed.

Lemma size_estimate_is_upper_bound_witness :
  (Z.of_nat (length (resultBases
     (ReadFASTAGenome sampleFS "genome.fa" None true 3 None None None)))
   <= sizeBound sampleFASTA 3)%Z
  /\ ranOutOfRoom (resultMessages
        (ReadFASTAGenome sampleFS "genome.fa" None true 3 None None None)) = false.
Proof.
  destruct (size_estimate_is_upper_bound sampleFS "genome.fa" None true 3 None None
              None sampleFASTA) as [Hbound Hroom].
  - reflexivity.
  - split; [exact Hbound|]. apply Hroom. reflexivity.
Defined.

(** C10.  Every byte of the base buffer is one of A, C, G, T, n and N,
    after each line and however the load ends: a sequence line adds only
    these, and a padding block only the character n. *)
Theorem genome_bases_invariant
    (fs : FileSystem) (fileName : string)
    (pieceNameTerminatorCharacters : option (list ascii))
    (spaceIsAPieceNameTerminator : bool) (chromosomePaddingSize : nat)
    (chrTag : option (list ascii)) (chrMapFilename : option string)
    (altMap : option AltContigMap) :
  allGenomeBytes (resultBases
    (ReadFASTAGenome fs fileName pieceNameTerminatorCharacters
       spaceIsAPieceNameTerminator chromosomePaddingSize chrTag chrMapFilename altMap))
  = true
  /\ (forall lineBuffer, allGenomeBytes (map normChar (lineText lineBuffer)) = true)
  /\ Forall (fun c => c = "n"%char) (paddingBuffer chromosomePaddingSize)
  /\ (forall chrMap st lineBuffer,
        allGenomeBytes (Genome.bases (genome st)) = true ->
        allGenomeBytes (Genome.bases (genome (stateOf
          (processLine pieceNameTerminatorCharacters spaceIsAPieceNameTerminator
             chromosomePaddingSize chrTag chrMapFilename chrMap st lineBuffer)))) = true).
Proof.
  split; [|split; [|split]].
  - unfold ReadFASTAGenome.
    destruct (fs fileName) as [content|]; [|reflexivity]. cbn [fmap option_fmap option_map].
    destruct (openChrMap fs chrMapFilename) as [m|chrMap]; [reflexivity|].
    pose proof (run_genome_bytes pieceNameTerminatorCharacters
                  spaceIsAPieceNameTerminator chromosomePaddingSize chrTag
                  chrMapFilename chrMap (fileLines content)
                  (initialState content chromosomePaddingSize altMap) eq_refl) as H.
    destruct (processLines _ _ _ _ _ _ _ _) as [st'|st']; simpl in H; [|exact H].
    destruct (finishLoad_result chromosomePaddingSize st')
      as [[-> _] | (-> & _)]; [|exact H].
    rewrite allGenomeBytes_app, H. apply allGenomeBytes_paddingBuffer.
  - intros lineBuffer. apply allGenomeBytes_normalized.
  - unfold paddingBuffer. induction chromosomePaddingSize; simpl; constructor; auto.
  - intros chrMap st lineBuffer Hst.
    apply (run_genome_bytes pieceNameTerminatorCharacters
             spaceIsAPieceNameTerminator chromosomePaddingSize chrTag
             chrMapFilename chrMap [lineBuffer] st) in Hst.
    simpl in Hst. destruct (processLine _ _ _ _ _ _ st lineBuffer); exact Hst.
Qed.

(** ** The warning *)

(** The characters that the invalid-base warnings of a run report. *)
Definition warnedCharacters (msgs : list Message) : list ascii :=
  omap (fun m => match m with MsgInvalidBase c _ => Some c | _ => None end) msgs.

(** The characters of all the sequence lines of a load, in order, as the
    second loop meets them (in upper case). *)
Definition sequenceUpper (lines : list (list ascii)) : list ascii :=
  concat (map (fun l => if isHeaderLine l then [] else map toupper (lineText l)) lines).

Lemma warnedCharacters_lineWarnings (rest pre tail : list ascii) (w : bool) :
  warnedCharacters (lineWarnings w pre rest tail)
  = if w then [] else option_list (List.find isInvalidUpper rest).
Proof.
  revert pre. induction rest as [|u r IH]; intros pre; simpl.
  - destruct w; reflexivity.
  - destruct (isInvalidUpper u); [destruct w; reflexivity|]. apply IH.
Qed.

Lemma warnings_lineWarnings (rest pre tail : list ascii) (w : bool) :
  forallb isInvalidBaseWarning (lineWarnings w pre rest tail) = true.
Proof.
  revert pre. induction rest as [|u r IH]; intros pre; simpl; [reflexivity|].
  destruct (isInvalidUpper u); [destruct w; reflexivity|]. apply IH.
Qed.

Lemma find_existsb (P : ascii -> bool) (s : list ascii) :
  existsb P s = match List.find P s with Some _ => true | None => false end.
Proof.
  induction s as [|c s IH]; simpl; [reflexivity|].
  destruct (P c); [reflexivity|exact IH].
Qed.

Lemma find_app (P : ascii -> bool) (s t : list ascii) :
  List.find P (s ++ t)
  = match List.find P s with Some c => Some c | None => List.find P t end.
Proof.
  induction s as [|c s IH]; simpl; [reflexivity|].
  destruct (P c); [reflexivity|exact IH].
Qed.

Lemma warnedCharacters_app (a b : list Message) :
  warnedCharacters (a ++ b) = warnedCharacters a ++ warnedCharacters b.
Proof. apply omap_app. Qed.

Lemma warnedCharacters_messagesFrom (lines : list (list ascii)) (w : bool) :
  warnedCharacters (messagesFrom w lines)
  = if w then [] else option_list (List.find isInvalidUpper (sequenceUpper lines)).
Proof.
  revert w. induction lines as [|l lines IH]; intros w; simpl.
  - destruct w; reflexivity.
  - rewrite warnedCharacters_app, IH. unfold lineMessages, lineHasInvalid, sequenceUpper.
    simpl. destruct (isHeaderLine l); simpl.
    + rewrite orb_false_r. reflexivity.
    + rewrite warnedCharacters_lineWarnings, find_app, find_existsb.
      destruct w; simpl; [reflexivity|].
      destruct (List.find isInvalidUpper (map toupper (lineText l))); simpl;
        [reflexivity|reflexivity].
Qed.

Lemma warnings_messagesFrom (lines : list (list ascii)) (w : bool) :
  forallb isInvalidBaseWarning (messagesFrom w lines) = true.
Proof.
  revert w. induction lines as [|l lines IH]; intros w; simpl; [reflexivity|].
  rewrite forallb_app, IH, andb_true_r. unfold lineMessages.
  destruct (isHeaderLine l); [reflexivity|apply warnings_lineWarnings].
Qed.

Lemma length_warnedCharacters (msgs : list Message) :
  forallb isInvalidBaseWarning msgs = true ->
  length (warnedCharacters msgs) = length msgs.
Proof.
  induction msgs as [|m msgs IH]; simpl; [reflexivity|].
  intros H. apply andb_true_iff in H as [Hm Hrest].
  destruct m; try discriminate. simpl. f_equal. apply IH, Hrest.
Qed.

(** C8.  Over one load the messages written are the invalid-base warnings,
    and there is exactly one when some sequence character is invalid after
    the upper-casing and the N-to-n step, none otherwise; the one warning
    reports the first such character of the whole load.  Every sequence
    line reaches the genome with each of its invalid characters, first and
    later alike, replaced with N. *)
Theorem one_warning_per_load
    (fs : FileSystem) (fileName : string)
    (pieceNameTerminatorCharacters : option (list ascii))
    (spaceIsAPieceNameTerminator : bool) (chromosomePaddingSize : nat)
    (chrTag : option (list ascii)) (chrMapFilename : option string)
    (altMap : option AltContigMap) (content : list ascii)
    (g : Genome.t) (a : option AltContigMap) (msgs : list Message) :
  fs fileName = Some content ->
  ReadFASTAGenome fs fileName pieceNameTerminatorCharacters
    spaceIsAPieceNameTerminator chromosomePaddingSize chrTag chrMapFilename altMap
  = Loaded g a msgs ->
  forallb isInvalidBaseWarning msgs = true
  /\ length msgs
     = (if existsb isInvalidUpper (sequenceUpper (fileLines content)) then 1 else 0)
  /\ warnedCharacters msgs
     = option_list (List.find isInvalidUpper (sequenceUpper (fileLines content)))
  /\ Genome.bases g
     = concat (map (fun l => if isHeaderLine l
                             then paddingBuffer chromosomePaddingSize
                             else map normChar (lineText l))
                   (fileLines content))
       ++ paddingBuffer chromosomePaddingSize
  /\ (forall c, isInvalidUpper (toupper c) = true -> normChar c = "N"%char)
  /\ (forall c, isInvalidUpper (toupper c) = false -> normChar c <> "N"%char).
Proof.
  intros Hfs Hload.
  destruct (openChrMap fs chrMapFilename) as [m|chrMap] eqn:Hmap.
  { unfold ReadFASTAGenome in Hload. rewrite Hfs, Hmap in Hload. discriminate. }
  eapply ReadFASTAGenome_Loaded in Hload as (Hb & _ & ->); eauto.
  pose proof (warnings_messagesFrom (fileLines content) false) as Hall.
  pose proof (warnedCharacters_messagesFrom (fileLines content) false) as Hchars.
  simpl in Hchars.
  split; [exact Hall|]. split; [|split; [exact Hchars|split; [exact Hb|split]]].
  - rewrite <- (length_warnedCharacters _ Hall), Hchars, find_existsb.
    destruct (List.find _ _); reflexivity.
  - intros c Hc. apply fixChar_invalid, Hc.
  - intros c. destruct c as [[] [] [] [] [] [] [] []]; vm_compute;
      intros H1 H2; first [discriminate H1 | discriminate H2].
Qed.

Definition sampleLoad : LoadResult :=
  ReadFASTAGenome sampleFS "genome.fa" None true 3 None None None.

Definition sampleGenome : Genome.t :=
  Eval vm_compute in
    match sampleLoad with
    | Loaded g _ _ => g
    | _ => Genome.create 0 0 0 0
    end.

Definition sampleMessages : list Message :=
  Eval vm_compute in resultMessages sampleLoad.

Lemma one_warning_per_load_witness :
  length sampleMessages = 1 /\ warnedCharacters sampleMessages = ["Z"%char].
Proof.
  destruct (one_warning_per_load sampleFS "genome.fa" None true 3 None None None
              sampleFASTA sampleGenome None sampleMessages)
    as (_ & Hlen & Hchars & _).
  - reflexivity.
  - vm_compute. reflexivity.
  - split.
    + rewrite Hlen. reflexivity.
    + rewrite Hchars. reflexivity.
Defined.

(** ** The remap table and the two naming modes *)

(** C3, as amended.  With a remap table loaded, the raw name of a header is
    looked up in it when a tag is configured: the canonical name replaces a
    raw name that is found, and a raw name that is not found stays.  Without
    a tag (free-form names) the table is not consulted and the raw name is
    the name. *)
Theorem remap_applies_in_tag_mode
    (pieceNameTerminatorCharacters : option (list ascii))
    (spaceIsAPieceNameTerminator : bool)
    (chrTag : option (list ascii)) (chrMapFile : string)
    (chrMap : ChrMap) (lineBuffer raw : list ascii) :
  resolveContigName pieceNameTerminatorCharacters spaceIsAPieceNameTerminator
    chrTag None chrMap lineBuffer = inr raw ->
  resolveContigName pieceNameTerminatorCharacters spaceIsAPieceNameTerminator
    chrTag (Some chrMapFile) chrMap lineBuffer
  = inr (match chrTag with
         | Some _ => default raw (chrMap !! raw)
         | None => raw
         end).
Proof.
  unfold resolveContigName. destruct chrTag as [tag|]; [|auto].
  destruct (FindFASTATagValue lineBuffer tag) as [p n| |m| |]; try discriminate.
  intros [= <-]. destruct (chrMap !! _); reflexivity.
Qed.

Lemma remap_applies_in_tag_mode_witness :
  resolveContigName None true (Some (txt "ref")) (Some "chr.map"%string)
    (readChrMap (txt "chr1" ++ [TAB] ++ txt "XYZ.1" ++ [LF]))
    (txt ">gi|123|ref|XYZ.1|" ++ [LF])
  = inr (default (txt "XYZ.1")
           (readChrMap (txt "chr1" ++ [TAB] ++ txt "XYZ.1" ++ [LF]) !! txt "XYZ.1")).
Proof.
  apply (remap_applies_in_tag_mode None true (Some (txt "ref")) "chr.map"
           (readChrMap (txt "chr1" ++ [TAB] ++ txt "XYZ.1" ++ [LF]))
           (txt ">gi|123|ref|XYZ.1|" ++ [LF]) (txt "XYZ.1")).
  reflexivity.
Defined.

(** C3 as stated fails: in free-form mode a raw name that the loaded table
    maps is stored unchanged. *)
Lemma remap_skipped_in_free_form :
  openChrMap sampleFS (Some "chr.map"%string) = inr (readChrMap sampleChrMap)
  /\ readChrMap sampleChrMap !! txt "chrI" = Some (txt "chr1")
  /\ resolveContigName None true None None (readChrMap sampleChrMap)
       (txt ">chrI first contig" ++ [LF]) = inr (txt "chrI")
  /\ resolveContigName None true None (Some "chr.map"%string) (readChrMap sampleChrMap)
       (txt ">chrI first contig" ++ [LF]) <> inr (txt "chr1")
  /\ (Genome.name <$>
        Genome.contigs (match ReadFASTAGenome sampleFS "genome.fa" None true 3 None
                                (Some "chr.map"%string) None with
                        | Loaded g _ _ => g
                        | _ => Genome.create 0 0 0 0
                        end)) !! 0 = Some (txt "chrI").
Proof.
  split; [reflexivity|]. split; [vm_compute; reflexivity|].
  split; [vm_compute; reflexivity|]. split; [vm_compute; discriminate|].
  vm_compute. reflexivity.
Qed.

(** ** Normalization of a sequence line *)

(** The two loops of the sequence branch, run on a line buffer; the warning
    is left aside. *)
Definition normalizeLine (lineBuffer : list ascii) : list ascii :=
  let lineLen := strlen lineBuffer in
  let lineBuffer := upcaseLoop lineLen lineBuffer in
  let '(lineBuffer, _, _) := validateLoop lineLen (lineBuffer, true, []) in
  cstr lineBuffer.

Lemma normalizeLine_split (text tail : list ascii) :
  isText text = true -> cstr tail = [] ->
  normalizeLine (text ++ tail) = map normChar text.
Proof.
  intros Htext Htail. unfold normalizeLine, strlen.
  rewrite cstr_app, Htail, app_nil_r by exact Htext.
  rewrite upcaseLoop_cstr. unfold validateLoop.
  rewrite <- (length_map toupper text).
  rewrite (validateLoop_middle (map toupper text) [] tail).
  cbn [app]. rewrite cstr_app by apply isText_map_fixChar.
  rewrite Htail, app_nil_r, map_map. reflexivity.
Qed.

Lemma normalizeLine_eq (lineBuffer : list ascii) :
  normalizeLine lineBuffer = map normChar (cstr lineBuffer).
Proof.
  rewrite (cstr_split lineBuffer) at 1.
  apply normalizeLine_split; [apply cstr_isText|apply cstr_tail].
Qed.

(** The characters that normalization leaves alone. *)
Definition isCleanBase (c : ascii) : bool := existsb (ascii_eqb c) (txt "ATCGn").

Definition lowerN (c : ascii) : ascii :=
  if ascii_eqb c "N"%char then "n"%char else c.

Lemma normChar_clean (c : ascii) : isCleanBase c = true -> normChar c = c.
Proof. ascii_cases c. Qed.

Lemma normChar_normChar (c : ascii) : normChar (normChar c) = lowerN (normChar c).
Proof. ascii_cases c. Qed.

Lemma isCleanBase_text (s : list ascii) : forallb isCleanBase s = true -> isText s = true.
Proof.
  induction s as [|c s IH]; simpl; [reflexivity|].
  intros H. apply andb_true_iff in H as [Hc Hs]. rewrite IH by exact Hs.
  rewrite andb_true_r. revert Hc. ascii_cases c.
Qed.

(** C5, as amended.  Normalization is the identity on every sequence made
    of A, T, C, G and n only; applied to a normalized sequence in general
    it turns each N (put there for an invalid character) into n and changes
    nothing else. *)
Theorem normalization_on_normalized (s : list ascii) :
  forallb isCleanBase s = true ->
  normalizeLine s = s
  /\ (forall t, normalizeLine (normalizeLine t) = map lowerN (normalizeLine t)).
Proof.
  intros Hclean. split.
  - rewrite normalizeLine_eq, cstr_text by (apply isCleanBase_text, Hclean).
    induction s as [|c s IH]; simpl; [reflexivity|].
    simpl in Hclean. apply andb_true_iff in Hclean as [Hc Hs].
    rewrite normChar_clean by exact Hc. f_equal. apply IH, Hs.
  - intros t. rewrite !normalizeLine_eq, cstr_normalized, !map_map.
    apply map_ext. intros c. apply normChar_normChar.
Qed.

Lemma normalization_on_normalized_witness :
  normalizeLine (txt "ACGTnnTA") = txt "ACGTnnTA"
  /\ (forall t, normalizeLine (normalizeLine t) = map lowerN (normalizeLine t)).
Proof.
  apply (normalization_on_normalized (txt "ACGTnnTA")). reflexivity.
Defined.

(** C5 as stated fails: the N that replaces an invalid character is itself
    turned into n by a second normalization. *)
Lemma normalization_not_idempotent :
  normalizeLine (txt "acgZ") = txt "ACGN"
  /\ normalizeLine (normalizeLine (txt "acgZ")) = txt "ACGn"
  /\ normalizeLine (normalizeLine (txt "acgZ")) <> normalizeLine (txt "acgZ").
Proof.
  split; [reflexivity|]. split; [reflexivity|]. vm_compute. discriminate.
Qed.

(** ** Free-form contig names *)

(** The characters that end a free-form name: those of the configured set,
    the space and the tab when so configured, and the line terminators. *)
Definition nameTerminators (pieceNameTerminatorCharacters : option (list ascii))
    (spaceIsAPieceNameTerminator : bool) : list ascii :=
  cstr (default [] pieceNameTerminatorCharacters)
  ++ (if spaceIsAPieceNameTerminator then [" "%char; TAB] else [])
  ++ [LF; CR].

(** A text up to the first of the characters [stops]; all of it if none of
    them occurs. *)
Fixpoint upTo (stops s : list ascii) : list ascii :=
  match s with
  | [] => []
  | c :: rest => if existsb (ascii_eqb c) stops then [] else c :: upTo stops rest
  end.

(** The free-form name in the words of the design: the text after the
    record marker, cut at the first terminator. *)
Definition freeFormName (pieceNameTerminatorCharacters : option (list ascii))
    (spaceIsAPieceNameTerminator : bool) (headerLine : list ascii) : list ascii :=
  upTo (nameTerminators pieceNameTerminatorCharacters spaceIsAPieceNameTerminator)
       (drop 1 headerLine).

Lemma nearer_S (t : nat) (p : option nat) : nearer (S t) (S <$> p) = S (nearer t p).
Proof.
  destruct p as [q|]; simpl; [|reflexivity].
  destruct (Nat.ltb_spec q t), (Nat.ltb_spec (S q) (S t)); lia.
Qed.

Lemma existsb_snoc (c d : ascii) (stops : list ascii) :
  existsb (ascii_eqb c) (stops ++ [d]) = existsb (ascii_eqb c) stops || ascii_eqb c d.
Proof. rewrite existsb_app. simpl. rewrite orb_false_r. reflexivity. Qed.

(** One more terminator character [c]: the nearer of the old cut and the
    first [c]. *)
Lemma nearer_upTo (c : ascii) (stops body : list ascii) :
  nearer (S (length (upTo stops body))) (S <$> index_of c body)
  = S (length (upTo (stops ++ [c]) body)).
Proof.
  induction body as [|d r IH]; simpl; [reflexivity|].
  rewrite existsb_snoc.
  destruct (existsb (ascii_eqb d) stops); simpl.
  - destruct (ascii_eqb d c); simpl; [reflexivity|].
    destruct (index_of c r); reflexivity.
  - destruct (ascii_eqb d c); simpl; [reflexivity|].
    rewrite <- IH. rewrite <- nearer_S. destruct (index_of c r); reflexivity.
Qed.

Lemma strchr_from_1_header (body : list ascii) (c : ascii) :
  isText body = true ->
  strchr_from 1 (">"%char :: body) c = S <$> index_of c body.
Proof.
  intros Htext. unfold strchr_from. simpl. rewrite drop_0, cstr_text by exact Htext.
  destruct (index_of c body); reflexivity.
Qed.

Lemma strchr_header (body : list ascii) (c : ascii) :
  isText body = true -> ascii_eqb ">"%char c = false ->
  strchr (">"%char :: body) c = S <$> index_of c body.
Proof.
  intros Htext Hc. rewrite strchr_cons, Hc.
  change (ascii_eqb ">"%char NUL) with false. cbv iota.
  unfold strchr, strchr_from. rewrite drop_0, cstr_text by exact Htext.
  destruct (index_of c body); reflexivity.
Qed.

Lemma fold_charAt {A : Type} (g : A -> ascii -> A) (rest pre tail : list ascii) (a : A) :
  fold_left (fun t i => g t (charAt (pre ++ rest ++ tail) i))
            (seq (length pre) (length rest)) a
  = fold_left g rest a.
Proof.
  revert pre a. induction rest as [|c rest IH]; intros pre a; [reflexivity|].
  simpl. rewrite charAt_middle.
  specialize (IH (pre ++ [c]) (g a c)).
  rewrite length_app in IH. simpl in IH.
  replace (length pre + 1) with (S (length pre)) in IH by lia.
  rewrite <- !app_assoc in IH. simpl in IH. exact IH.
Qed.

Lemma fold_left_pointwise {A B : Type} (f g : A -> B -> A) (l : list B) (a : A) :
  (forall x y, f x y = g x y) -> fold_left f l a = fold_left g l a.
Proof.
  intros H. revert a. induction l as [|b l IH]; intros a; simpl; [reflexivity|].
  rewrite H. apply IH.
Qed.

Lemma fold_charAt_cstr {A : Type} (g : A -> ascii -> A) (cs : list ascii) (a : A) :
  fold_left (fun t i => g t (charAt cs i)) (seq 0 (strlen cs)) a
  = fold_left g (cstr cs) a.
Proof.
  pose proof (fold_charAt g (cstr cs) [] (drop (strlen cs) cs) a) as H.
  cbn [app length] in H. rewrite <- cstr_split in H. exact H.
Qed.

Lemma fold_nearer_upTo (body chars stops : list ascii) :
  fold_left (fun t c => nearer t (S <$> index_of c body)) chars
            (S (length (upTo stops body)))
  = S (length (upTo (stops ++ chars) body)).
Proof.
  revert stops. induction chars as [|c chars IH]; intros stops; simpl.
  - rewrite app_nil_r. reflexivity.
  - rewrite nearer_upTo, IH, <- app_assoc. reflexivity.
Qed.

Lemma upTo_nil (body : list ascii) : upTo [] body = body.
Proof. induction body as [|c r IH]; simpl; [reflexivity|]. f_equal. exact IH. Qed.

Lemma take_upTo (stops body : list ascii) :
  take (length (upTo stops body)) body = upTo stops body.
Proof.
  induction body as [|c r IH]; simpl; [reflexivity|].
  destruct (existsb (ascii_eqb c) stops); simpl; [reflexivity|]. f_equal. exact IH.
Qed.

Lemma isText_upTo (stops body : list ascii) :
  isText body = true -> isText (upTo stops body) = true.
Proof.
  induction body as [|c r IH]; simpl; [reflexivity|].
  intros H. apply andb_true_iff in H as [Hc Hr].
  destruct (existsb (ascii_eqb c) stops); simpl; [reflexivity|].
  rewrite Hc. apply IH, Hr.
Qed.

Lemma nameTerminator_upTo (chars : option (list ascii)) (space : bool)
    (body : list ascii) :
  isText body = true ->
  nameTerminator chars space (">"%char :: body)
  = S (length (upTo (nameTerminators chars space) body)).
Proof.
  intros Htext. unfold nameTerminator, nameTerminators.
  assert (H0 : strlen (">"%char :: body) = S (length (upTo [] body))).
  { unfold strlen. simpl. rewrite cstr_text, upTo_nil by exact Htext. reflexivity. }
  rewrite H0. clear H0.
  assert (H1 : match chars with
               | Some cs =>
                   fold_left (fun t i => nearer t (strchr_from 1 (">"%char :: body)
                                                               (charAt cs i)))
                             (seq 0 (strlen cs)) (S (length (upTo [] body)))
               | None => S (length (upTo [] body))
               end
               = S (length (upTo (cstr (default [] chars)) body))).
  { destruct chars as [cs|]; simpl; [|reflexivity].
    rewrite (fold_charAt_cstr
               (fun t c => nearer t (strchr_from 1 (">"%char :: body) c))).
    pose proof (fold_nearer_upTo body (cstr cs) []) as Hf.
    cbn [app] in Hf. rewrite <- Hf.
    apply fold_left_pointwise. intros t c.
    rewrite strchr_from_1_header by exact Htext. reflexivity. }
  rewrite H1. clear H1.
  rewrite !strchr_header by (exact Htext || reflexivity).
  destruct space; rewrite ?nearer_upTo, <- ?app_assoc; reflexivity.
Qed.

(** C6.  With no tag configured, the raw name of a header line is the text
    after the record marker, cut at the first character that is in the
    configured terminator set, or is a space or a tab when these are
    configured as terminators, or is a line terminator; when no such
    character occurs it is the rest of the line.  That is also the name
    under which the contig is stored. *)
Theorem free_form_name
    (pieceNameTerminatorCharacters : option (list ascii))
    (spaceIsAPieceNameTerminator : bool) (chrMapFilename : option string)
    (chrMap : ChrMap) (lineBuffer : list ascii) :
  isHeaderLine lineBuffer = true ->
  isText lineBuffer = true ->
  resolveContigName pieceNameTerminatorCharacters spaceIsAPieceNameTerminator
    None chrMapFilename chrMap lineBuffer
  = inr (freeFormName pieceNameTerminatorCharacters spaceIsAPieceNameTerminator
                      lineBuffer)
  /\ storedName pieceNameTerminatorCharacters spaceIsAPieceNameTerminator
       None chrMapFilename chrMap lineBuffer
     = freeFormName pieceNameTerminatorCharacters spaceIsAPieceNameTerminator lineBuffer.
Proof.
  intros Hheader Htext.
  destruct lineBuffer as [|c body]; [discriminate|].
  unfold isHeaderLine, charAt in Hheader. cbn [nth] in Hheader.
  apply ascii_eqb_eq in Hheader. subst c.
  change (isText body = true) in Htext.
  assert (Hres : resolveContigName pieceNameTerminatorCharacters
                   spaceIsAPieceNameTerminator None chrMapFilename chrMap
                   (">"%char :: body)
                 = inr (freeFormName pieceNameTerminatorCharacters
                          spaceIsAPieceNameTerminator (">"%char :: body))).
  { unfold resolveContigName, freeFormName.
    rewrite nameTerminator_upTo by exact Htext.
    simpl. rewrite Nat.sub_0_r, drop_0, take_upTo. reflexivity. }
  split; [exact Hres|].
  unfold storedName. rewrite Hres. apply cstr_text.
  unfold freeFormName. simpl. rewrite drop_0. apply isText_upTo, Htext.
Qed.

Lemma free_form_name_witness :
  resolveContigName (Some (txt "_|")) true None None ∅
    (txt ">chr7_alt|x first" ++ [LF])
  = inr (freeFormName (Some (txt "_|")) true (txt ">chr7_alt|x first" ++ [LF]))
  /\ storedName (Some (txt "_|")) true None None ∅ (txt ">chr7_alt|x first" ++ [LF])
     = freeFormName (Some (txt "_|")) true (txt ">chr7_alt|x first" ++ [LF]).
Proof.
  apply (free_form_name (Some (txt "_|")) true None ∅
           (txt ">chr7_alt|x first" ++ [LF])); reflexivity.
Defined.

Example free_form_name_example :
  freeFormName (Some (txt "_|")) true (txt ">chr7_alt|x first" ++ [LF]) = txt "chr7"
  /\ freeFormName None false (txt ">chr7 alt") = txt "chr7 alt"
  /\ freeFormName None false (txt ">chr7" ++ [CR; LF]) = txt "chr7".
Proof. repeat split. Qed.

(** ** FindFASTATagValue *)

Lemma find_sub_le (needle s : list ascii) (i : nat) :
  find_sub needle s = Some i -> i <= length s.
Proof.
  revert i. induction s as [|c s IH]; intros i; simpl.
  - destruct (is_prefix needle []); [|discriminate]. intros [= <-]. lia.
  - destruct (is_prefix needle (c :: s)); [intros [= <-]; lia|].
    destruct (find_sub needle s) as [j|]; [|discriminate].
    intros [= <-]. specialize (IH j eq_refl). lia.
Qed.

Lemma strstr_from_range (from : nat) (buf needle : list ascii) (t : nat) :
  strstr_from from buf needle = Some t -> from <= t <= strlen buf.
Proof.
  unfold strstr_from. destruct (Nat.leb_spec from (strlen buf)) as [Hle|]; [|discriminate].
  destruct (find_sub _ _) as [i|] eqn:E; [|discriminate].
  intros [= <-]. apply find_sub_le in E. rewrite length_drop in E.
  unfold strlen in *. lia.
Qed.

(** The loop of [FindFASTATagValue] ends: each turn moves [tag] forward
    inside the line. *)
Lemma findTagLoop_ends (lineBuffer tagName : list ascii) (fuel tag : nat) :
  strlen lineBuffer <= fuel + tag ->
  findTagLoop (S fuel) lineBuffer tagName tag <> None.
Proof.
  revert tag. induction fuel as [|fuel IH]; intros tag Hfuel.
  - simpl. destruct (strstr_from (tag + 1) lineBuffer tagName) as [t|] eqn:E;
      [|discriminate].
    apply strstr_from_range in E. lia.
  - cbn [findTagLoop].
    destruct (strstr_from (tag + 1) lineBuffer tagName) as [t|] eqn:E; [|discriminate].
    apply strstr_from_range in E.
    destruct (_ && _); [|discriminate].
    apply IH. lia.
Qed.

Lemma FindFASTATagValue_ends (lineBuffer tagName : list ascii) :
  FindFASTATagValue lineBuffer tagName <> TagLoopsOn.
Proof.
  unfold FindFASTATagValue.
  pose proof (findTagLoop_ends lineBuffer tagName (strlen lineBuffer) 0) as H.
  destruct (findTagLoop _ _ _ _) as [[t|]|].
  - destruct (_ <? _); [discriminate|].
    destruct (strchr_from _ _ _); discriminate.
  - discriminate.
  - exfalso. apply H; [lia|reflexivity].
Qed.

Example FindFASTATagValue_ref :
  FindFASTATagValue (txt ">gi|123|ref|XYZ.1|") (txt "ref") = TagValue 12 5.
Proof. reflexivity. Qed.

Example FindFASTATagValue_nope :
  FindFASTATagValue (txt ">gi|123|ref|XYZ.1|") (txt "nope") = TagAbsent.
Proof. reflexivity. Qed.

(** An occurrence of the tag at offset [i], delimited as the design says:
    the record marker or a pipe before it, a pipe right after it. *)
Definition delimitedAt (line tagName : list ascii) (i : nat) : bool :=
  is_prefix tagName (drop i line)
  && (ascii_eqb (charAt line (i - 1)) ">"%char || ascii_eqb (charAt line (i - 1)) "|"%char)
  && ascii_eqb (charAt line (i + length tagName)) "|"%char.

Definition hasDelimitedTag (line tagName : list ascii) : bool :=
  existsb (delimitedAt line tagName) (seq 1 (length line)).

(** C4.  The loop of the source stops at the first occurrence of the tag
    that has the marker or a pipe before it, or a pipe after it: one of the
    two delimiters is enough.  The header below has no delimited occurrence
    of the tag, yet the tag is reported as found, with a value that starts
    one character after the tag text. *)
Lemma FindFASTATagValue_half_delimited :
  hasDelimitedTag (txt ">ref123|abc|") (txt "ref") = false
  /\ FindFASTATagValue (txt ">ref123|abc|") (txt "ref") = TagValue 5 2
  /\ take 2 (drop 5 (txt ">ref123|abc|")) = txt "23"
  /\ hasDelimitedTag (txt ">xref|abc|") (txt "ref") = false
  /\ FindFASTATagValue (txt ">xref|abc|") (txt "ref") = TagValue 6 3
  /\ hasDelimitedTag (txt ">ref1|x|ref|val|") (txt "ref") = true
  /\ FindFASTATagValue (txt ">ref1|x|ref|val|") (txt "ref") = TagValue 5 0.
Proof. repeat split. Qed.

(** ** Writing a loaded genome back *)

Section RoundTrip.

Variable pieceNameTerminatorCharacters : option (list ascii).
Variable spaceIsAPieceNameTerminator : bool.
Variable chromosomePaddingSize : nat.
Variable chrTag : option (list ascii).
Variable chrMapFilename : option string.
Variable chrMap : ChrMap.

Local Abbreviation nameOf :=
  (storedName pieceNameTerminatorCharacters spaceIsAPieceNameTerminator
              chrTag chrMapFilename chrMap).
Local Abbreviation padding := (paddingBuffer chromosomePaddingSize).

(** The normalized sequence lines up to the next header, joined. *)
Fixpoint contigBody (lines : list (list ascii)) : list ascii :=
  match lines with
  | [] => []
  | l :: rest =>
      if isHeaderLine l then [] else map normChar (lineText l) ++ contigBody rest
  end.

(** The contigs of an input: for each header line the name it resolves to
    and the normalized sequence that follows it, whatever its wrapping. *)
Fixpoint inputContigs (lines : list (list ascii)) : list (list ascii * list ascii) :=
  match lines with
  | [] => []
  | l :: rest =>
      if isHeaderLine l then (nameOf l, contigBody rest) :: inputContigs rest
      else inputContigs rest
  end.

(** The FASTA text of a list of records: a header line, then the sequence
    on one line. *)
Definition recordText (prefix : list ascii) (r : list ascii * list ascii) : list ascii :=
  (">"%char :: cstr prefix ++ fst r ++ [LF]) ++ snd r ++ [LF].

Definition expectedFASTA (prefix : list ascii) (rs : list (list ascii * list ascii))
  : list ascii :=
  concat (map (recordText prefix) rs).

Definition withPadding (r : list ascii * list ascii) : list ascii * list ascii :=
  (fst r, snd r ++ padding).

(** Where the records of a load lie in the base buffer. *)
Fixpoint layoutBases (rs : list (list ascii * list ascii)) : list ascii :=
  match rs with
  | [] => []
  | r :: rest => padding ++ snd r ++ layoutBases rest
  end.

Fixpoint layoutContigs (pos : nat) (rs : list (list ascii * list ascii))
  : list (list ascii * Z) :=
  match rs with
  | [] => []
  | r :: rest =>
      (fst r, Z.of_nat (pos + chromosomePaddingSize))
      :: layoutContigs (pos + chromosomePaddingSize + length (snd r)) rest
  end.

Definition nameAndStart (c : Genome.Contig) : list ascii * Z :=
  (Genome.name c, Genome.beginningLocation c).

Lemma loadData_layout (lines : list (list ascii)) :
  loadData chromosomePaddingSize lines
  = contigBody lines ++ layoutBases (inputContigs lines).
Proof.
  unfold loadData. induction lines as [|l rest IH]; simpl; [reflexivity|].
  rewrite IH. unfold lineData. destruct (isHeaderLine l); simpl.
  - reflexivity.
  - rewrite <- app_assoc. reflexivity.
Qed.

Lemma contigsFrom_layout (lines : list (list ascii)) (pos : nat) :
  map nameAndStart
      (contigsFrom pieceNameTerminatorCharacters spaceIsAPieceNameTerminator
                   chromosomePaddingSize chrTag chrMapFilename chrMap pos lines)
  = layoutContigs (pos + length (contigBody lines)) (inputContigs lines).
Proof.
  revert pos. induction lines as [|l rest IH]; intros pos; simpl; [reflexivity|].
  rewrite map_app, IH. unfold lineContigs, lineData.
  destruct (isHeaderLine l); simpl.
  - rewrite length_paddingBuffer, Nat.add_0_r. reflexivity.
  - rewrite length_app, !length_map, Nat.add_assoc. reflexivity.
Qed.

Lemma nameAndStart_fillLengths (total : Z) (cs : list Genome.Contig) :
  map nameAndStart (Genome.fillLengths total cs) = map nameAndStart cs.
Proof.
  induction cs as [|c cs IH]; simpl; [reflexivity|]. rewrite IH. reflexivity.
Qed.

Lemma getSubstring_span (g : Genome.t) (front body back : list ascii) :
  Genome.bases g = front ++ body ++ back ->
  Genome.getSubstring g (Z.of_nat (length front))
    (Z.of_nat (length front + length body) - Z.of_nat (length front))
  = Some body.
Proof.
  intros Hb. unfold Genome.getSubstring, Genome.getCountOfBases.
  rewrite Hb, !length_app.
  replace (Z.of_nat (length front + length body) - Z.of_nat (length front))%Z
    with (Z.of_nat (length body)) by lia.
  rewrite !Nat2Z.id.
  destruct (Z.leb_spec 0 (Z.of_nat (length front))); [|lia].
  destruct (Z.leb_spec 0 (Z.of_nat (length body))); [|lia].
  destruct (Z.leb_spec (Z.of_nat (length front) + Z.of_nat (length body))
              (Z.of_nat (length front + (length body + length back)))); [|lia].
  simpl. rewrite drop_app_length, take_app_length. reflexivity.
Qed.

Lemma length_layoutContigs (rs : list (list ascii * list ascii)) (pos : nat) :
  length (layoutContigs pos rs) = length rs.
Proof.
  revert pos. induction rs as [|r rs IH]; intros pos; simpl; [reflexivity|].
  rewrite IH. reflexivity.
Qed.

(** After the sequence of a contig comes a padding block: that of the next
    contig, or the last one. *)
Lemma layout_continues_with_padding (rs : list (list ascii * list ascii)) :
  exists back, layoutBases rs ++ padding = padding ++ back.
Proof.
  destruct rs as [|r rs]; simpl.
  - exists []. rewrite app_nil_r. reflexivity.
  - eexists. rewrite <- !app_assoc. reflexivity.
Qed.

Lemma fwrite_fwrite (fasta : FILE) (a b : list ascii) :
  fwrite (fwrite fasta a) b = fwrite fasta (a ++ b).
Proof. unfold fwrite. simpl. rewrite app_assoc. reflexivity. Qed.

Lemma fwrite_nil (fasta : FILE) : fwrite fasta [] = fasta.
Proof. destruct fasta. unfold fwrite. simpl. rewrite app_nil_r. reflexivity. Qed.

(** The end of the span of the contig at index [k]: the start of the next
    contig, or the count of bases. *)
Lemma span_end (g : Genome.t) (pre_cs : list (list ascii * Z))
    (front : list ascii) (r : list ascii * list ascii)
    (rest : list (list ascii * list ascii)) :
  Genome.bases g = front ++ layoutBases (r :: rest) ++ padding ->
  map nameAndStart (Genome.contigs g)
  = pre_cs ++ layoutContigs (length front) (r :: rest) ->
  (if length pre_cs + 1 <? Genome.getNumContigs g
   then default 0%Z (Genome.beginningLocation <$>
                       Genome.getContigs g !! (length pre_cs + 1))
   else Genome.getCountOfBases g)
  = Z.of_nat (length (front ++ padding) + length (snd r ++ padding)).
Proof.
  intros Hb Hc.
  assert (Hn : Genome.getNumContigs g = length pre_cs + S (length rest)).
  { unfold Genome.getNumContigs. rewrite <- (length_map nameAndStart), Hc.
    rewrite length_app. simpl. rewrite length_layoutContigs. reflexivity. }
  rewrite Hn, !length_app, length_paddingBuffer.
  destruct rest as [|r' rest'].
  - cbn [length].
    rewrite (proj2 (Nat.ltb_ge (length pre_cs + 1) (length pre_cs + 1))) by lia.
    unfold Genome.getCountOfBases. rewrite Hb. simpl.
    rewrite !length_app, length_paddingBuffer. simpl. f_equal. lia.
  - cbn [length].
    rewrite (proj2 (Nat.ltb_lt (length pre_cs + 1) (length pre_cs + S (S (length rest')))))
      by lia.
    assert (Hk : map nameAndStart (Genome.contigs g) !! (length pre_cs + 1)
                 = Some (fst r', Z.of_nat (length front + chromosomePaddingSize
                                           + length (snd r) + chromosomePaddingSize))).
    { rewrite Hc. rewrite lookup_app_r by lia.
      replace (length pre_cs + 1 - length pre_cs) with 1 by lia. reflexivity. }
    rewrite list_lookup_fmap in Hk. unfold Genome.getContigs.
    destruct (Genome.contigs g !! (length pre_cs + 1)) as [c|]; [|discriminate].
    simpl in Hk |- *. injection Hk as _ Hstart. rewrite Hstart. f_equal. lia.
Qed.

Lemma writer_layout (g : Genome.t) (prefix : list ascii)
    (rs : list (list ascii * list ascii)) :
  forall (pre_cs : list (list ascii * Z)) (front : list ascii) (fasta : FILE),
    Genome.bases g = front ++ layoutBases rs ++ padding ->
    map nameAndStart (Genome.contigs g) = pre_cs ++ layoutContigs (length front) rs ->
    fold_left (appendContig g prefix) (seq (length pre_cs) (length rs)) (Some fasta)
    = Some (fwrite fasta (expectedFASTA prefix (map withPadding rs))).
Proof.
  induction rs as [|r rest IH]; intros pre_cs front fasta Hb Hc.
  - simpl. rewrite fwrite_nil. reflexivity.
  - cbn [length seq fold_left].
    assert (Hstep : appendContig g prefix (Some fasta) (length pre_cs)
                    = Some (fwrite fasta (recordText prefix (withPadding r)))).
    { unfold appendContig. cbn [mbind option_bind].
      assert (Hk : map nameAndStart (Genome.contigs g) !! length pre_cs
                   = Some (fst r, Z.of_nat (length front + chromosomePaddingSize))).
      { rewrite Hc. rewrite lookup_app_r by lia.
        rewrite Nat.sub_diag. reflexivity. }
      rewrite list_lookup_fmap in Hk.
      pose proof (span_end g pre_cs front r rest Hb Hc) as Hend.
      unfold Genome.getContigs in Hend |- *.
      destruct (Genome.contigs g !! length pre_cs) as [c|]; [|discriminate].
      simpl in Hk. injection Hk as Hname Hstart.
      cbn [mbind option_bind].
      rewrite Hend, Hstart.
      destruct (layout_continues_with_padding rest) as [back Hback].
      assert (Hb' : Genome.bases g = (front ++ padding) ++ (snd r ++ padding) ++ back).
      { rewrite Hb. simpl. rewrite <- !app_assoc. rewrite Hback. reflexivity. }
      replace (Z.of_nat (length front + chromosomePaddingSize))
        with (Z.of_nat (length (front ++ padding)))
        by (rewrite length_app, length_paddingBuffer; reflexivity).
      rewrite (getSubstring_span g _ _ _ Hb'). cbn [mbind option_bind].
      rewrite !fwrite_fwrite, Hname. reflexivity. }
    rewrite Hstep.
    replace (S (length pre_cs))
      with (length (pre_cs ++ [(fst r, Z.of_nat (length front + chromosomePaddingSize))]))
      by (rewrite length_app; simpl; lia).
    rewrite (IH _ (front ++ padding ++ snd r)).
    + rewrite fwrite_fwrite. reflexivity.
    + rewrite Hb. simpl. rewrite <- !app_assoc. reflexivity.
    + rewrite Hc. simpl. rewrite <- app_assoc. simpl.
      rewrite !length_app, length_paddingBuffer, Nat.add_assoc. reflexivity.
Qed.

End RoundTrip.

Lemma contigBody_header_first (lines : list (list ascii)) :
  headerComesFirst false lines = true -> contigBody lines = [].
Proof.
  destruct lines as [|l rest]; simpl; [reflexivity|].
  intros ->. reflexivity.
Qed.

(** C2, as amended.  Loading a file and writing the genome back yields, for
    every contig of the input and in the order of the input, a header line
    with the name the contig was stored under, and on one line its
    normalized sequence (upper case, N turned into n, invalid characters
    into N) followed by [chromosomePaddingSize] characters n: the span
    that the writer emits runs to the start of the next contig and so takes
    in the padding block after the sequence.  The text written depends on
    the sequence lines through their concatenation only, not on how they
    are wrapped. *)
Theorem roundtrip_with_padding
    (fs : FileSystem) (fileName : string)
    (pieceNameTerminatorCharacters : option (list ascii))
    (spaceIsAPieceNameTerminator : bool) (chromosomePaddingSize : nat)
    (chrTag : option (list ascii)) (chrMapFilename : option string)
    (altMap : option AltContigMap) (content : list ascii) (chrMap : ChrMap) :
  fs fileName = Some content ->
  openChrMap fs chrMapFilename = inr chrMap ->
  beginsWithHeader (fileLines content) = true ->
  headersResolve pieceNameTerminatorCharacters spaceIsAPieceNameTerminator
                 chrTag chrMapFilename chrMap (fileLines content) = true ->
  sizesFit content chromosomePaddingSize ->
  exists g a msgs,
    ReadFASTAGenome fs fileName pieceNameTerminatorCharacters
      spaceIsAPieceNameTerminator chromosomePaddingSize chrTag chrMapFilename altMap
    = Loaded g a msgs
    /\ forall fasta prefix,
         AppendFASTAGenome g fasta prefix
         = Some (fwrite fasta
                   (expectedFASTA prefix
                      (map (withPadding chromosomePaddingSize)
                           (inputContigs pieceNameTerminatorCharacters
                              spaceIsAPieceNameTerminator chrTag chrMapFilename
                              chrMap (fileLines content)))),
                 negb (ferror fasta)).
Proof.
  intros Hfs Hmap Hbegin Hres Hfit.
  assert (Hfirst : headerComesFirst false (fileLines content) = true).
  { destruct (fileLines content); [discriminate|exact Hbegin]. }
  destruct (ReadFASTAGenome_loads fs fileName pieceNameTerminatorCharacters
              spaceIsAPieceNameTerminator chromosomePaddingSize chrTag
              chrMapFilename altMap content chrMap Hfs Hmap Hfirst Hres Hfit)
    as (g & a & msgs & Hload).
  exists g, a, msgs. split; [exact Hload|].
  eapply ReadFASTAGenome_Loaded in Hload as (Hb & Hc & _); eauto.
  rewrite (loadData_layout pieceNameTerminatorCharacters spaceIsAPieceNameTerminator
             chromosomePaddingSize chrTag chrMapFilename chrMap) in Hb.
  rewrite contigBody_header_first in Hb by exact Hfirst.
  apply (f_equal (map nameAndStart)) in Hc.
  rewrite nameAndStart_fillLengths, contigsFrom_layout in Hc.
  rewrite contigBody_header_first in Hc by exact Hfirst.
  intros fasta prefix. unfold AppendFASTAGenome.
  assert (Hn : Genome.getNumContigs g
               = length (inputContigs pieceNameTerminatorCharacters
                           spaceIsAPieceNameTerminator chrTag chrMapFilename
                           chrMap (fileLines content))).
  { unfold Genome.getNumContigs.
    rewrite <- (length_map nameAndStart), Hc, length_layoutContigs. reflexivity. }
  rewrite Hn.
  rewrite (writer_layout chromosomePaddingSize g prefix _ [] []).
  - reflexivity.
  - rewrite Hb. reflexivity.
  - exact Hc.
Qed.

Lemma roundtrip_with_padding_witness :
  exists g a msgs,
    ReadFASTAGenome sampleFS "genome.fa" None true 3 None None None = Loaded g a msgs
    /\ forall fasta prefix,
         AppendFASTAGenome g fasta prefix
         = Some (fwrite fasta
                   (expectedFASTA prefix
                      (map (withPadding 3)
                           (inputContigs None true None None ∅
                                         (fileLines sampleFASTA)))),
                 negb (ferror fasta)).
Proof.
  apply (roundtrip_with_padding sampleFS "genome.fa" None true 3 None None None
           sampleFASTA ∅).
  - reflexivity.
  - reflexivity.
  - reflexivity.
  - reflexivity.
  - exact sample_sizesFit.
Defined.

(** C2 as stated fails: the sequence written for a contig is its
    normalized sequence followed by the padding. *)
Lemma roundtrip_keeps_padding :
  ReadFASTAGenome sampleFS "genome.fa" None true 3 None None None
  = Loaded sampleGenome None sampleMessages
  /\ inputContigs None true None None ∅ (fileLines sampleFASTA)
     = [(txt "chrI", txt "ACGTnNNNA"); (txt "gi|123|ref|XYZ.1|", txt "ACGT")]
  /\ (fst <$> AppendFASTAGenome sampleGenome emptyFILE [])
     = Some {| written := txt ">chrI" ++ [LF] ++ txt "ACGTnNNNAnnn" ++ [LF]
                          ++ txt ">gi|123|ref|XYZ.1|" ++ [LF] ++ txt "ACGTnnn" ++ [LF];
               ferror := false |}
  /\ (fst <$> AppendFASTAGenome sampleGenome emptyFILE [])
     <> Some (fwrite emptyFILE
                (expectedFASTA []
                   (inputContigs None true None None ∅ (fileLines sampleFASTA)))).
Proof.
  split; [vm_compute; reflexivity|]. split; [vm_compute; reflexivity|].
  split; [vm_compute; reflexivity|]. vm_compute. discriminate.
Qed.

(** Two wrappings of the same sequence are written back alike. *)
Example roundtrip_rewrapped :
  inputContigs None true None None ∅
    (fileLines (txt ">chrI" ++ [LF] ++ txt "acgtNZzzA" ++ [LF]
                ++ txt ">gi|123|ref|XYZ.1|" ++ [LF] ++ txt "A" ++ [LF] ++ txt "CGT"))
  = inputContigs None true None None ∅ (fileLines sampleFASTA).
Proof. vm_compute. reflexivity. Qed.

(** * Further properties of the reader and the writer *)

(** ** Failing to open a file *)




(** ** The empty input *)

(** X2.  An empty FASTA file loads: the genome holds one padding block and
    no contig, and nothing is reported.  The padding size is an [unsigned]
    and the padding block is allocated with one byte more, the sum taken in
    [unsigned] too: the padding size is taken below 2^32 - 1, where that
    sum does not wrap. *)
Theorem empty_input_loads
    (fs : FileSystem) (fileName : string)
    (pieceNameTerminatorCharacters : option (list ascii))
    (spaceIsAPieceNameTerminator : bool) (chromosomePaddingSize : nat)
    (chrTag : option (list ascii)) (chrMapFilename : option string)
    (altMap : option AltContigMap) (chrMap : ChrMap) :
  fs fileName = Some [] ->
  openChrMap fs chrMapFilename = inr chrMap ->
  (Z.of_nat chromosomePaddingSize + 1 < 2 ^ 32)%Z ->
  exists g,
    ReadFASTAGenome fs fileName pieceNameTerminatorCharacters
      spaceIsAPieceNameTerminator chromosomePaddingSize chrTag chrMapFilename altMap
    = Loaded g altMap []
    /\ Genome.bases g = paddingBuffer chromosomePaddingSize
    /\ Genome.contigs g = []
    /\ Genome.contigsByName g = [].
Proof.
  intros Hfs Hmap Hpad.
  rewrite (ReadFASTAGenome_opened _ _ _ _ _ _ _ _ _ _ Hfs Hmap). simpl.
  destruct (finishLoad_fits chromosomePaddingSize
              (initialState [] chromosomePaddingSize altMap)) as [g Hg].
  - simpl. unfold genomeSize, QueryFileSize, countChromosomes, wrap32, wrap64. simpl.
    change ((0 + 1) mod 2 ^ 32)%Z with 1%Z. change (Z.of_nat 0) with 0%Z.
    rewrite Z.mul_1_l, Z.add_0_l, Z.mod_mod, Z.mod_small by lia. lia.
  - exists g. split; [exact Hg|].
    pose proof Hg as Hg'. apply finishLoad_Loaded in Hg' as (Hb & Hc & _).
    simpl in Hb, Hc. repeat split; auto.
    unfold finishLoad, addData in Hg.
    destruct (Genome.addData _ _) as [g1|] eqn:Hadd; [|discriminate].
    unfold Genome.addData in Hadd. simpl in Hadd.
    destruct (_ <=? _)%Z; [|discriminate]. injection Hadd as <-.
    destruct altMap; injection Hg as <-; reflexivity.
Qed.

Lemma empty_input_loads_witness :
  exists g,
    ReadFASTAGenome (fun _ => Some []) "genome.fa" None false 4 None None None
    = Loaded g None []
    /\ Genome.bases g = paddingBuffer 4
    /\ Genome.contigs g = []
    /\ Genome.contigsByName g = [].
Proof.
  apply (empty_input_loads (fun _ => Some []) "genome.fa" None false 4 None None None ∅).
  - reflexivity.
  - reflexivity.
  - vm_compute. reflexivity.
Defined.

(** ** The counting pass *)

Lemma countChromosomes_fold (lines : list (list ascii)) (n : Z) :
  (0 <= n < 2 ^ 32)%Z ->
  fold_left (fun nChromosomes lineBuffer =>
               if isHeaderLine lineBuffer then wrap32 (nChromosomes + 1)
               else nChromosomes) lines n
  = wrap32 (n + Z.of_nat (headerCount lines)).
Proof.
  revert n. induction lines as [|l lines IH]; intros n Hn; simpl.
  - unfold headerCount, wrap32. simpl. rewrite Z.add_0_r, Z.mod_small; lia.
  - rewrite headerCount_cons. destruct (isHeaderLine l).
    + rewrite IH by (unfold wrap32; apply Z.mod_pos_bound; lia).
      unfold wrap32. rewrite Zplus_mod_idemp_l. f_equal. lia.
    + rewrite IH by exact Hn. f_equal.
Qed.

(** X3.  The counting pass counts the lines that start with the record
    marker in an [unsigned]: its result is their number modulo 2^32. *)
Theorem countChromosomes_wraps (lines : list (list ascii)) :
  countChromosomes lines = (Z.of_nat (headerCount lines) mod 2 ^ 32)%Z
  /\ (0 <= countChromosomes lines < 2 ^ 32)%Z.
Proof.
  assert (H : countChromosomes lines = (Z.of_nat (headerCount lines) mod 2 ^ 32)%Z).
  { unfold countChromosomes. rewrite countChromosomes_fold by lia. reflexivity. }
  split; [exact H|]. rewrite H. apply Z.mod_pos_bound. lia.
Qed.

(** ** The contigs of a loaded genome *)

Section LoadedContigs.

Variable pieceNameTerminatorCharacters : option (list ascii).
Variable spaceIsAPieceNameTerminator : bool.
Variable chromosomePaddingSize : nat.
Variable chrTag : option (list ascii).
Variable chrMapFilename : option string.
Variable chrMap : ChrMap.

Local Abbreviation run :=
  (processLines pieceNameTerminatorCharacters spaceIsAPieceNameTerminator
                chromosomePaddingSize chrTag chrMapFilename chrMap).
Local Abbreviation nameOf :=
  (storedName pieceNameTerminatorCharacters spaceIsAPieceNameTerminator
              chrTag chrMapFilename chrMap).
Local Abbreviation contigsOf :=
  (inputContigs pieceNameTerminatorCharacters spaceIsAPieceNameTerminator
                chrTag chrMapFilename chrMap).
Local Abbreviation padding := (paddingBuffer chromosomePaddingSize).

Lemma processLines_app (a b : list (list ascii)) (st : LoaderState) :
  run (a ++ b) st
  = match run a st with
    | Continue st' => run b st'
    | Exit st' => Exit st'
    end.
Proof.
  revert st. induction a as [|l a IH]; intros st; simpl; [reflexivity|].
  destruct (processLine _ _ _ _ _ _ st l); [apply IH|reflexivity].
Qed.

Lemma run_header_first (lines : list (list ascii)) (st st' : LoaderState) :
  run lines st = Continue st' -> headerComesFirst (inAContig st) lines = true.
Proof.
  destruct lines as [|l rest]; simpl; [reflexivity|].
  destruct (processLine _ _ _ _ _ _ st l) as [st1|st1] eqn:E; [|discriminate].
  intros _. apply step_Continue in E as (_ & _ & _ & _ & _ & _ & _ & Hin).
  destruct (isHeaderLine l); [apply orb_true_r|].
  rewrite Hin by reflexivity. reflexivity.
Qed.

Lemma names_contigsFrom (lines : list (list ascii)) (pos : nat) :
  map Genome.name
      (contigsFrom pieceNameTerminatorCharacters spaceIsAPieceNameTerminator
                   chromosomePaddingSize chrTag chrMapFilename chrMap pos lines)
  = map nameOf (filter (fun l => isHeaderLine l = true) lines).
Proof.
  revert pos. induction lines as [|l rest IH]; intros pos; simpl; [reflexivity|].
  rewrite map_app, IH, filter_cons. unfold lineContigs.
  destruct (decide (isHeaderLine l = true)) as [->|Hn]; [reflexivity|].
  apply not_true_is_false in Hn. rewrite Hn. reflexivity.
Qed.

Lemma names_fillLengths (total : Z) (cs : list Genome.Contig) :
  map Genome.name (Genome.fillLengths total cs) = map Genome.name cs.
Proof.
  induction cs as [|c cs IH]; simpl; [reflexivity|]. rewrite IH. reflexivity.
Qed.

(** Where the record at index [i] lies: a padding block, its sequence,
    and a padding block again. *)
Lemma layout_lookup (rs : list (list ascii * list ascii)) :
  forall (i : nat) (front : list ascii) (pre : list (list ascii * Z))
         (r : list ascii * list ascii),
    rs !! i = Some r ->
    exists front' back,
      front ++ layoutBases chromosomePaddingSize rs ++ padding
      = front' ++ padding ++ snd r ++ padding ++ back
      /\ (pre ++ layoutContigs chromosomePaddingSize (length front) rs)
           !! (length pre + i)
         = Some (fst r, Z.of_nat (length front' + chromosomePaddingSize))
      /\ (forall r', rs !! S i = Some r' ->
          (pre ++ layoutContigs chromosomePaddingSize (length front) rs)
            !! (length pre + S i)
          = Some (fst r', Z.of_nat (length front' + chromosomePaddingSize
                                    + length (snd r) + chromosomePaddingSize))).
Proof.
  induction rs as [|r0 rest IH]; intros i front pre r Hi; [discriminate|].
  destruct i as [|i].
  - injection Hi as <-.
    destruct (layout_continues_with_padding chromosomePaddingSize rest) as [back Hback].
    exists front, back. split; [|split].
    + simpl. rewrite <- !app_assoc. rewrite Hback. reflexivity.
    + rewrite lookup_app_r by lia.
      replace (length pre + 0 - length pre) with 0 by lia. reflexivity.
    + intros r' Hr'. rewrite lookup_app_r by lia.
      replace (length pre + 1 - length pre) with 1 by lia.
      destruct rest as [|r1 rest']; [discriminate|].
      injection Hr' as <-. reflexivity.
  - simpl in Hi.
    destruct (IH i (front ++ padding ++ snd r0)
                 (pre ++ [(fst r0, Z.of_nat (length front + chromosomePaddingSize))])
                 r Hi) as (front' & back & Hb & Hc & Hnext).
    exists front', back. split; [|split].
    + rewrite <- Hb. simpl. rewrite <- !app_assoc. reflexivity.
    + rewrite <- Hc. rewrite length_app. simpl.
      replace (length pre + 1 + i) with (length pre + S i) by lia.
      rewrite <- app_assoc. simpl.
      rewrite !length_app, length_paddingBuffer, Nat.add_assoc. reflexivity.
    + intros r' Hr'. rewrite <- (Hnext r' Hr'). rewrite length_app. simpl.
      replace (length pre + 1 + S i) with (length pre + S (S i)) by lia.
      rewrite <- app_assoc. simpl.
      rewrite !length_app, length_paddingBuffer, Nat.add_assoc. reflexivity.
Qed.

Lemma getSubstring_at (g : Genome.t) (front body back : list ascii) :
  Genome.bases g = front ++ body ++ back ->
  Genome.getSubstring g (Z.of_nat (length front)) (Z.of_nat (length body)) = Some body.
Proof.
  intros Hb. rewrite <- (getSubstring_span g front body back Hb). f_equal. lia.
Qed.

Variable fs : FileSystem.
Variable fileName : string.
Variable altMap0 : option AltContigMap.
Variable content : list ascii.

Local Abbreviation load :=
  (ReadFASTAGenome fs fileName pieceNameTerminatorCharacters
     spaceIsAPieceNameTerminator chromosomePaddingSize chrTag chrMapFilename altMap0).

Lemma Loaded_header_first (g : Genome.t) (a : option AltContigMap)
    (msgs : list Message) :
  fs fileName = Some content ->
  openChrMap fs chrMapFilename = inr chrMap ->
  load = Loaded g a msgs ->
  headerComesFirst false (fileLines content) = true.
Proof.
  intros Hfs Hmap Hload.
  rewrite (ReadFASTAGenome_opened _ _ _ _ _ _ _ _ _ _ Hfs Hmap) in Hload.
  destruct (run (fileLines content) (initialState content chromosomePaddingSize altMap0))
    as [st'|st'] eqn:Hrun; [|discriminate].
  apply run_header_first in Hrun. exact Hrun.
Qed.

(** The base buffer and the contig table of a loaded genome, as records. *)
Lemma Loaded_layout (g : Genome.t) (a : option AltContigMap) (msgs : list Message) :
  fs fileName = Some content ->
  openChrMap fs chrMapFilename = inr chrMap ->
  load = Loaded g a msgs ->
  Genome.bases g
  = [] ++ layoutBases chromosomePaddingSize (contigsOf (fileLines content)) ++ padding
  /\ map nameAndStart (Genome.contigs g)
     = [] ++ layoutContigs chromosomePaddingSize (length (@nil ascii))
               (contigsOf (fileLines content)).
Proof.
  intros Hfs Hmap Hload.
  pose proof (Loaded_header_first g a msgs Hfs Hmap Hload) as Hfirst.
  eapply ReadFASTAGenome_Loaded in Hload as (Hb & Hc & _); eauto.
  rewrite (loadData_layout pieceNameTerminatorCharacters spaceIsAPieceNameTerminator
             chromosomePaddingSize chrTag chrMapFilename chrMap) in Hb.
  rewrite contigBody_header_first in Hb by exact Hfirst.
  apply (f_equal (map nameAndStart)) in Hc.
  rewrite nameAndStart_fillLengths, contigsFrom_layout in Hc.
  rewrite contigBody_header_first in Hc by exact Hfirst.
  split; [rewrite Hb, <- app_assoc; reflexivity|exact Hc].
Qed.

(** X4.  A load that returns a genome has recorded one contig for each
    line that starts with the record marker, in the order of the file and
    under the name the header resolves to. *)
Theorem loaded_contig_names (g : Genome.t) (a : option AltContigMap)
    (msgs : list Message) :
  fs fileName = Some content ->
  openChrMap fs chrMapFilename = inr chrMap ->
  load = Loaded g a msgs ->
  map Genome.name (Genome.contigs g)
  = map nameOf (filter (fun l => isHeaderLine l = true) (fileLines content))
  /\ Genome.getNumContigs g = headerCount (fileLines content).
Proof.
  intros Hfs Hmap Hload.
  eapply ReadFASTAGenome_Loaded in Hload as (_ & Hc & _); eauto.
  assert (Hnames : map Genome.name (Genome.contigs g)
                   = map nameOf (filter (fun l => isHeaderLine l = true)
                                        (fileLines content))).
  { rewrite Hc, names_fillLengths. apply names_contigsFrom. }
  split; [exact Hnames|].
  unfold Genome.getNumContigs, headerCount.
  rewrite <- (length_map Genome.name), Hnames, length_map. reflexivity.
Qed.

(** X5.  In a loaded genome the begin location of each contig points at
    its normalized sequence: reading that many bases there gives the
    sequence back, the [chromosomePaddingSize] bases before it and after it
    are padding, and the next contig begins right after that padding. *)
Theorem loaded_contig_readback (g : Genome.t) (a : option AltContigMap)
    (msgs : list Message) (i : nat) (name body : list ascii) :
  fs fileName = Some content ->
  openChrMap fs chrMapFilename = inr chrMap ->
  load = Loaded g a msgs ->
  contigsOf (fileLines content) !! i = Some (name, body) ->
  exists c,
    Genome.contigs g !! i = Some c
    /\ Genome.name c = name
    /\ Genome.getSubstring g (Genome.beginningLocation c) (Z.of_nat (length body))
       = Some body
    /\ Genome.getSubstring g
         (Genome.beginningLocation c - Z.of_nat chromosomePaddingSize)
         (Z.of_nat chromosomePaddingSize)
       = Some padding
    /\ Genome.getSubstring g
         (Genome.beginningLocation c + Z.of_nat (length body))
         (Z.of_nat chromosomePaddingSize)
       = Some padding
    /\ (forall c', Genome.contigs g !! S i = Some c' ->
        Genome.beginningLocation c'
        = (Genome.beginningLocation c + Z.of_nat (length body)
           + Z.of_nat chromosomePaddingSize)%Z).
Proof.
  intros Hfs Hmap Hload Hi.
  destruct (Loaded_layout g a msgs Hfs Hmap Hload) as [Hb Hc].
  destruct (layout_lookup (contigsOf (fileLines content)) i [] [] (name, body) Hi)
    as (front & back & Hlay & Hk & Hnext).
  rewrite <- Hb in Hlay. rewrite <- Hc in Hk, Hnext. simpl in Hlay, Hk, Hnext.
  rewrite list_lookup_fmap in Hk.
  destruct (Genome.contigs g !! i) as [c|] eqn:Ec; [|discriminate].
  simpl in Hk. injection Hk as Hname Hstart.
  exists c. split; [reflexivity|]. split; [exact Hname|].
  rewrite Hstart. split; [|split; [|split]].
  - replace (length front + chromosomePaddingSize)
      with (length (front ++ padding))
      by (rewrite length_app, length_paddingBuffer; reflexivity).
    apply (getSubstring_at g (front ++ padding) body (padding ++ back)).
    rewrite Hlay, <- !app_assoc. reflexivity.
  - replace (Z.of_nat (length front + chromosomePaddingSize)
             - Z.of_nat chromosomePaddingSize)%Z
      with (Z.of_nat (length front)) by lia.
    rewrite <- (length_paddingBuffer chromosomePaddingSize) at 1.
    apply (getSubstring_at g front padding (body ++ padding ++ back)).
    exact Hlay.
  - replace (Z.of_nat (length front + chromosomePaddingSize)
             + Z.of_nat (length body))%Z
      with (Z.of_nat (length (front ++ padding ++ body)))
      by (rewrite !length_app, length_paddingBuffer; lia).
    rewrite <- (length_paddingBuffer chromosomePaddingSize) at 2.
    apply (getSubstring_at g (front ++ padding ++ body) padding back).
    rewrite Hlay, <- !app_assoc. reflexivity.
  - intros c' Ec'.
    assert (Hsome : is_Some (contigsOf (fileLines content) !! S i)).
    { apply lookup_lt_is_Some.
      rewrite <- (length_layoutContigs chromosomePaddingSize _ 0).
      simpl in Hc. rewrite <- Hc, length_map.
      apply lookup_lt_is_Some. eauto. }
    destruct Hsome as [r' Hr'].
    specialize (Hnext r' Hr'). rewrite list_lookup_fmap, Ec' in Hnext.
    simpl in Hnext. injection Hnext as _ Hstart'. rewrite Hstart'. lia.
Qed.

End LoadedContigs.

Lemma loaded_contig_names_witness :
  map Genome.name (Genome.contigs sampleGenome)
  = map (storedName None true None None ∅)
        (filter (fun l => isHeaderLine l = true) (fileLines sampleFASTA))
  /\ Genome.getNumContigs sampleGenome = headerCount (fileLines sampleFASTA).
Proof.
  apply (loaded_contig_names None true 3 None None ∅ sampleFS "genome.fa" None
           sampleFASTA sampleGenome None sampleMessages).
  - reflexivity.
  - reflexivity.
  - vm_compute. reflexivity.
Defined.

Lemma loaded_contig_readback_witness :
  exists c,
    Genome.contigs sampleGenome !! 0 = Some c
    /\ Genome.name c = txt "chrI"
    /\ Genome.getSubstring sampleGenome (Genome.beginningLocation c)
         (Z.of_nat (length (txt "ACGTnNNNA")))
       = Some (txt "ACGTnNNNA")
    /\ Genome.getSubstring sampleGenome (Genome.beginningLocation c - Z.of_nat 3)
         (Z.of_nat 3)
       = Some (paddingBuffer 3)
    /\ Genome.getSubstring sampleGenome
         (Genome.beginningLocation c + Z.of_nat (length (txt "ACGTnNNNA")))
         (Z.of_nat 3)
       = Some (paddingBuffer 3)
    /\ (forall c', Genome.contigs sampleGenome !! 1 = Some c' ->
        Genome.beginningLocation c'
        = (Genome.beginningLocation c + Z.of_nat (length (txt "ACGTnNNNA"))
           + Z.of_nat 3)%Z).
Proof.
  apply (loaded_contig_readback None true 3 None None ∅ sampleFS "genome.fa" None
           sampleFASTA sampleGenome None sampleMessages 0 (txt "chrI")
           (txt "ACGTnNNNA")).
  - reflexivity.
  - reflexivity.
  - vm_compute. reflexivity.
  - vm_compute. reflexivity.
Defined.

(** ** What [FindFASTATagValue] finds *)

Lemma find_sub_Some (needle s : list ascii) (i : nat) :
  find_sub needle s = Some i ->
  is_prefix needle (drop i s) = true
  /\ i <= length s
  /\ forall j, j < i -> is_prefix needle (drop j s) = false.
Proof.
  revert i. induction s as [|c s IH]; intros i; simpl.
  - destruct (is_prefix needle []) eqn:E; [|discriminate].
    intros [= <-]. repeat split; auto. intros j Hj. lia.
  - destruct (is_prefix needle (c :: s)) eqn:E.
    + intros [= <-]. repeat split; auto; [lia|]. intros j Hj. lia.
    + destruct (find_sub needle s) as [k|]; [|discriminate].
      intros [= <-]. destruct (IH k eq_refl) as (Hp & Hle & Hbefore).
      repeat split; auto; [lia|].
      intros [|j] Hj; [exact E|]. apply Hbefore. lia.
Qed.

Lemma find_sub_None (needle s : list ascii) :
  find_sub needle s = None ->
  forall j, j <= length s -> is_prefix needle (drop j s) = false.
Proof.
  induction s as [|c s IH]; simpl.
  - destruct (is_prefix needle []) eqn:E; [discriminate|].
    intros _ j Hj. replace j with 0 by lia. exact E.
  - destruct (is_prefix needle (c :: s)) eqn:E; [discriminate|].
    destruct (find_sub needle s) as [k|]; [discriminate|].
    intros _ [|j] Hj; [exact E|]. apply IH; [reflexivity|lia].
Qed.

(** The tag text stands at offset [i] of the C string of the line. *)
Definition occursAt (lineBuffer tagName : list ascii) (i : nat) : bool :=
  (i <=? strlen lineBuffer) && is_prefix (cstr tagName) (drop i (cstr lineBuffer)).

(** The test that ends the do-while loop at an occurrence at offset [i]:
    the marker or a pipe before the tag text, or a pipe after it. *)
Definition stopsAt (lineBuffer tagName : list ascii) (i : nat) : bool :=
  occursAt lineBuffer tagName i
  && (ascii_eqb (charAt lineBuffer (i - 1)) ">"%char
      || ascii_eqb (charAt lineBuffer (i - 1)) "|"%char
      || ascii_eqb (charAt lineBuffer (i + strlen tagName)) "|"%char).

Lemma strstr_from_Some (from : nat) (buf needle : list ascii) (t : nat) :
  strstr_from from buf needle = Some t ->
  from <= t /\ occursAt buf needle t = true
  /\ forall j, from <= j < t -> occursAt buf needle j = false.
Proof.
  unfold strstr_from, occursAt.
  destruct (Nat.leb_spec from (strlen buf)) as [Hle|]; [|discriminate].
  destruct (find_sub _ _) as [i|] eqn:E; [|discriminate].
  intros [= <-]. apply find_sub_Some in E as (Hp & Hi & Hbefore).
  rewrite length_drop in Hi. fold (strlen buf) in Hi.
  rewrite drop_drop in Hp. split; [lia|]. split.
  - rewrite Hp, andb_true_r. apply Nat.leb_le. lia.
  - intros j Hj. specialize (Hbefore (j - from)).
    rewrite drop_drop in Hbefore.
    replace (from + (j - from)) with j in Hbefore by lia.
    rewrite Hbefore by lia. apply andb_false_r.
Qed.

Lemma strstr_from_None (from : nat) (buf needle : list ascii) :
  strstr_from from buf needle = None ->
  forall j, from <= j -> occursAt buf needle j = false.
Proof.
  unfold strstr_from, occursAt. intros H j Hj.
  destruct (Nat.leb_spec j (strlen buf)) as [Hle|Hgt]; [|reflexivity].
  destruct (Nat.leb_spec from (strlen buf)) as [Hle'|]; [|lia].
  destruct (find_sub _ _) as [i|] eqn:E; [discriminate|].
  pose proof (find_sub_None _ _ E (j - from)) as Hnone.
  rewrite length_drop, drop_drop in Hnone. fold (strlen buf) in Hnone.
  replace (from + (j - from)) with j in Hnone by lia.
  simpl. apply Hnone. lia.
Qed.

(** What the loop returns, whatever the fuel: the first offset after [tag]
    at which the test of the loop ends it, or NULL when there is none. *)
Lemma findTagLoop_spec (lineBuffer tagName : list ascii) (fuel : nat) :
  forall (tag : nat) (r : option nat),
    findTagLoop fuel lineBuffer tagName tag = Some r ->
    match r with
    | Some t =>
        tag < t /\ stopsAt lineBuffer tagName t = true
        /\ forall j, tag < j < t -> stopsAt lineBuffer tagName j = false
    | None => forall j, tag < j -> stopsAt lineBuffer tagName j = false
    end.
Proof.
  induction fuel as [|fuel IH]; intros tag r; [discriminate|].
  cbn [findTagLoop].
  destruct (strstr_from (tag + 1) lineBuffer tagName) as [t|] eqn:E.
  - apply strstr_from_Some in E as (Hle & Hocc & Hbefore).
    destruct (negb (ascii_eqb (charAt lineBuffer (t - 1)) ">"%char)
              && negb (ascii_eqb (charAt lineBuffer (t - 1)) "|"%char)
              && negb (ascii_eqb (charAt lineBuffer (t + strlen tagName)) "|"%char))
      eqn:Econt.
    + assert (Ht : stopsAt lineBuffer tagName t = false).
      { unfold stopsAt. rewrite Hocc. simpl.
        apply andb_true_iff in Econt as [Econt E3].
        apply andb_true_iff in Econt as [E1 E2].
        apply negb_true_iff in E1, E2, E3. rewrite E1, E2, E3. reflexivity. }
      assert (Hskip : forall j, tag < j -> j <= t -> stopsAt lineBuffer tagName j = false).
      { intros j Hj1 Hj2. destruct (Nat.eq_dec j t) as [->|Hne]; [exact Ht|].
        unfold stopsAt. rewrite Hbefore by lia. reflexivity. }
      intros Hrec. specialize (IH t r Hrec). destruct r as [t'|].
      * destruct IH as (Hlt & Hstop & Hnone). split; [lia|]. split; [exact Hstop|].
        intros j Hj. destruct (Nat.le_gt_cases j t); [apply Hskip; lia|apply Hnone; lia].
      * intros j Hj. destruct (Nat.le_gt_cases j t); [apply Hskip; lia|apply IH; lia].
    + intros [= <-]. split; [lia|]. split.
      * unfold stopsAt. rewrite Hocc. simpl.
        destruct (ascii_eqb (charAt lineBuffer (t - 1)) ">"%char); [reflexivity|].
        destruct (ascii_eqb (charAt lineBuffer (t - 1)) "|"%char); [reflexivity|].
        destruct (ascii_eqb (charAt lineBuffer (t + strlen tagName)) "|"%char);
          [reflexivity|discriminate].
      * intros j Hj. unfold stopsAt. rewrite Hbefore by lia. reflexivity.
  - intros [= <-]. intros j Hj. unfold stopsAt.
    rewrite (strstr_from_None _ _ _ E) by lia. reflexivity.
Qed.

(** X6.  [FindFASTATagValue] returns false exactly when no occurrence of
    the tag text after the first character of the line has the record
    marker or a pipe before it, or a pipe after it.  The search starts one
    character into the line, so an occurrence at its very start does not
    count. *)
Theorem FindFASTATagValue_absent_iff (lineBuffer tagName : list ascii) :
  FindFASTATagValue lineBuffer tagName = TagAbsent
  <-> forall j, 1 <= j -> stopsAt lineBuffer tagName j = false.
Proof.
  unfold FindFASTATagValue.
  pose proof (findTagLoop_ends lineBuffer tagName (strlen lineBuffer) 0) as Hends.
  pose proof (findTagLoop_spec lineBuffer tagName (S (strlen lineBuffer)) 0) as Hspec.
  destruct (findTagLoop (S (strlen lineBuffer)) lineBuffer tagName 0) as [[t|]|].
  - specialize (Hspec (Some t) eq_refl). destruct Hspec as (Ht & Hstop & _).
    split.
    + destruct (_ <? _); [discriminate|].
      destruct (strchr_from _ _ _); discriminate.
    + intros H. rewrite H in Hstop by lia. discriminate.
  - specialize (Hspec None eq_refl). split; [|reflexivity].
    intros _ j Hj. apply Hspec. lia.
  - exfalso. apply Hends; [lia|reflexivity].
Qed.

(** X7.  The occurrence that [FindFASTATagValue] takes is the first one,
    after the first character of the line, that has the record marker or a
    pipe before it or a pipe after it.  The value pointer is one character
    after the tag text, whatever that character is.  When the tag text ends
    the line, this is one past the terminator: the search for the closing
    pipe then reads what lies behind the terminator in the buffer, and
    behind the buffer held here the result is [TagBehindBuffer].  Otherwise
    the value runs to the next pipe of the C string at the value pointer;
    with no pipe there the run ends with the badly-formatted-tag message,
    even when a later occurrence of the tag has a closed value. *)
Theorem FindFASTATagValue_first_stop (lineBuffer tagName : list ascii) (t : nat) :
  1 <= t ->
  stopsAt lineBuffer tagName t = true ->
  (forall j, 1 <= j < t -> stopsAt lineBuffer tagName j = false) ->
  FindFASTATagValue lineBuffer tagName
  = if length lineBuffer <? t + strlen tagName + 1 then TagBehindBuffer
    else
      match index_of "|"%char (cstr (drop (t + strlen tagName + 1) lineBuffer)) with
      | Some n => TagValue (t + strlen tagName + 1) n
      | None => TagExit (MsgBadlyFormattedTag (drop t (cstr lineBuffer))
                                              (drop 1 (cstr lineBuffer)))
      end.
Proof.
  intros Ht Hstop Hfirst. unfold FindFASTATagValue.
  pose proof (findTagLoop_ends lineBuffer tagName (strlen lineBuffer) 0) as Hends.
  pose proof (findTagLoop_spec lineBuffer tagName (S (strlen lineBuffer)) 0) as Hspec.
  destruct (findTagLoop (S (strlen lineBuffer)) lineBuffer tagName 0) as [[t'|]|].
  - specialize (Hspec (Some t') eq_refl). destruct Hspec as (Ht' & Hstop' & Hfirst').
    assert (t' = t) as ->.
    { destruct (Nat.lt_trichotomy t' t) as [Hlt|[Heq|Hgt]]; [|exact Heq|].
      - rewrite Hfirst in Hstop' by lia. discriminate.
      - rewrite Hfirst' in Hstop by lia. discriminate. }
    destruct (_ <? _); [reflexivity|].
    unfold strchr_from.
    destruct (index_of "|"%char (cstr (drop (t + strlen tagName + 1) lineBuffer)))
      as [n|]; simpl; [|reflexivity].
    f_equal. lia.
  - specialize (Hspec None eq_refl). rewrite Hspec in Hstop by lia. discriminate.
  - exfalso. apply Hends; [lia|reflexivity].
Qed.

Lemma FindFASTATagValue_first_stop_witness :
  FindFASTATagValue (txt ">gi|123|ref|XYZ.1|desc") (txt "ref")
  = if length (txt ">gi|123|ref|XYZ.1|desc") <? 8 + strlen (txt "ref") + 1
    then TagBehindBuffer
    else
      match index_of "|"%char
              (cstr (drop (8 + strlen (txt "ref") + 1) (txt ">gi|123|ref|XYZ.1|desc"))) with
      | Some n => TagValue (8 + strlen (txt "ref") + 1) n
      | None => TagExit (MsgBadlyFormattedTag
                           (drop 8 (cstr (txt ">gi|123|ref|XYZ.1|desc")))
                           (drop 1 (cstr (txt ">gi|123|ref|XYZ.1|desc"))))
      end.
Proof.
  apply (FindFASTATagValue_first_stop (txt ">gi|123|ref|XYZ.1|desc") (txt "ref") 8).
  - lia.
  - reflexivity.
  - intros j Hj.
    assert (Hcases : j = 1 \/ j = 2 \/ j = 3 \/ j = 4 \/ j = 5 \/ j = 6 \/ j = 7) by lia.
    destruct Hcases as [->|[->|[->|[->|[->|[->| ->]]]]]]; reflexivity.
Defined.

Lemma index_of_Some (c : ascii) (s : list ascii) (n : nat) :
  index_of c s = Some n ->
  n < length s /\ nth n s NUL = c
  /\ forallb (fun d => negb (ascii_eqb d c)) (take n s) = true.
Proof.
  revert n. induction s as [|d s IH]; intros n; simpl; [discriminate|].
  destruct (ascii_eqb d c) eqn:E.
  - intros [= <-]. apply ascii_eqb_eq in E. simpl. repeat split; auto. lia.
  - destruct (index_of c s) as [k|]; [|discriminate].
    intros [= <-]. destruct (IH k eq_refl) as (Hlt & Hnth & Hall).
    simpl. rewrite E, Hall. repeat split; auto. lia.
Qed.

Lemma nth_cstr (buf : list ascii) (i : nat) :
  i < strlen buf -> nth i (cstr buf) NUL = nth i buf NUL.
Proof.
  unfold strlen. revert i. induction buf as [|c buf IH]; intros i; simpl; [lia|].
  destruct (ascii_eqb c NUL); simpl; [lia|].
  destruct i as [|i]; [reflexivity|]. intros Hi. apply IH. lia.
Qed.

Lemma take_drop_cstr (buf : list ascii) (p n : nat) :
  p + n <= strlen buf -> take n (drop p buf) = take n (drop p (cstr buf)).
Proof.
  intros H. rewrite (cstr_split buf) at 1. unfold strlen in *.
  rewrite drop_app_le by lia. rewrite take_app_le; [reflexivity|].
  rewrite length_drop. lia.
Qed.

(** Inside the C string of a buffer, the C string at an offset is the rest
    of that C string. *)
Lemma cstr_drop (buf : list ascii) (p : nat) :
  p <= strlen buf -> cstr (drop p buf) = drop p (cstr buf).
Proof.
  unfold strlen. revert p. induction buf as [|c buf IH]; intros p.
  - rewrite drop_nil. simpl. rewrite drop_nil. reflexivity.
  - destruct p as [|p]; [reflexivity|]. simpl.
    destruct (ascii_eqb c NUL); simpl; [lia|]. intros Hp. apply IH. lia.
Qed.

Lemma strlen_le_length (buf : list ascii) : strlen buf <= length buf.
Proof.
  unfold strlen. induction buf as [|c buf IH]; simpl; [lia|].
  destruct (ascii_eqb c NUL); simpl; lia.
Qed.

Lemma is_prefix_length (needle s : list ascii) :
  is_prefix needle s = true -> length needle <= length s.
Proof.
  revert s. induction needle as [|a needle IH]; intros [|b s]; simpl;
    try discriminate; try lia.
  intros H. apply andb_true_iff in H as [_ H]. apply IH in H. lia.
Qed.

(** X8.  A value that [FindFASTATagValue] returns starts after the tag text
    and its separator, at most one past the terminator of the line, and is
    closed by a pipe of the buffer: it holds no pipe and no NUL itself, and
    the character right after it is a pipe.  When the value pointer is
    inside the line or at its terminator, the value and its closing pipe
    lie inside the line; when it is one past the terminator, they are bytes
    that lie behind the line in its buffer. *)
Theorem tag_value_is_pipe_free (lineBuffer tagName : list ascii) (p n : nat) :
  FindFASTATagValue lineBuffer tagName = TagValue p n ->
  p + n < length lineBuffer
  /\ charAt lineBuffer (p + n) = "|"%char
  /\ forallb (fun d => negb (ascii_eqb d "|"%char)) (take n (drop p lineBuffer)) = true
  /\ isText (take n (drop p lineBuffer)) = true
  /\ strlen tagName + 2 <= p <= strlen lineBuffer + 1
  /\ (p <= strlen lineBuffer -> p + n < strlen lineBuffer).
Proof.
  unfold FindFASTATagValue.
  pose proof (findTagLoop_spec lineBuffer tagName (S (strlen lineBuffer)) 0) as Hspec.
  destruct (findTagLoop (S (strlen lineBuffer)) lineBuffer tagName 0) as [[t|]|];
    try discriminate.
  specialize (Hspec (Some t) eq_refl). destruct Hspec as (Ht & Hstop & _).
  assert (Htag : t + strlen tagName <= strlen lineBuffer).
  { unfold stopsAt, occursAt in Hstop.
    apply andb_true_iff in Hstop as [Hocc _].
    apply andb_true_iff in Hocc as [Hle Hpre]. apply Nat.leb_le in Hle.
    apply is_prefix_length in Hpre. rewrite length_drop in Hpre.
    fold (strlen tagName) (strlen lineBuffer) in Hpre. lia. }
  destruct (Nat.ltb_spec (length lineBuffer) (t + strlen tagName + 1)) as [|Hroom];
    [discriminate|].
  unfold strchr_from.
  destruct (index_of "|"%char (cstr (drop (t + strlen tagName + 1) lineBuffer)))
    as [k|] eqn:E; [|discriminate].
  simpl. intros [= <- <-].
  replace (t + strlen tagName + 1 + k - (t + strlen tagName + 1)) with k by lia.
  set (q := t + strlen tagName + 1) in *.
  pose proof (index_of_Some _ _ _ E) as (Hlt & Hnth & Hall).
  fold (strlen (drop q lineBuffer)) in Hlt.
  pose proof (strlen_le_length (drop q lineBuffer)) as Hlen.
  rewrite length_drop in Hlen.
  rewrite nth_cstr in Hnth by exact Hlt. rewrite nth_skipn in Hnth.
  assert (Htake : take k (drop q lineBuffer) = take k (cstr (drop q lineBuffer))).
  { rewrite <- (drop_0 (drop q lineBuffer)) at 1.
    rewrite <- (drop_0 (cstr (drop q lineBuffer))).
    apply take_drop_cstr. lia. }
  split; [lia|]. split; [exact Hnth|]. split; [|split; [|split]].
  - rewrite Htake. exact Hall.
  - rewrite Htake.
    pose proof (cstr_isText (drop q lineBuffer)) as Htext.
    rewrite <- (take_drop k (cstr (drop q lineBuffer))) in Htext.
    unfold isText in Htext. rewrite forallb_app in Htext.
    apply andb_true_iff in Htext as [Htext _]. exact Htext.
  - lia.
  - intros Hin. unfold strlen in Hlt. rewrite cstr_drop in Hlt by exact Hin.
    rewrite length_drop in Hlt. fold (strlen lineBuffer) in Hlt. lia.
Qed.

(** A line whose tag text ends the C string, in a buffer that still holds
    the rest of an earlier line behind the terminator. *)
Definition staleLine : list ascii := txt ">ref" ++ NUL :: txt "def|ghi|".

Lemma tag_value_is_pipe_free_witness :
  5 + 3 < length staleLine
  /\ charAt staleLine (5 + 3) = "|"%char
  /\ forallb (fun d => negb (ascii_eqb d "|"%char)) (take 3 (drop 5 staleLine)) = true
  /\ isText (take 3 (drop 5 staleLine)) = true
  /\ strlen (txt "ref") + 2 <= 5 <= strlen staleLine + 1
  /\ (5 <= strlen staleLine -> 5 + 3 < strlen staleLine).
Proof.
  apply (tag_value_is_pipe_free staleLine (txt "ref") 5 3).
  reflexivity.
Defined.

(** ** A header without the configured tag *)

Lemma loadData_app (pad : nat) (a b : list (list ascii)) :
  loadData pad (a ++ b) = loadData pad a ++ loadData pad b.
Proof. unfold loadData. rewrite map_app, concat_app. reflexivity. Qed.

Lemma headerComesFirst_prefix (a : list (list ascii)) (l : list ascii)
    (rest : list (list ascii)) :
  headerComesFirst false (a ++ l :: rest) = true ->
  isHeaderLine l = true ->
  headerComesFirst false a = true.
Proof. destruct a as [|x a]; simpl; auto. Qed.

(** X9.  When a tag is configured and a header line does not have it, the
    load ends there with the tag-not-found message.  The lines before it
    have been loaded, and the padding block of the failing header has been
    appended already, but no contig has been opened for it. *)
Theorem missing_tag_is_fatal
    (fs : FileSystem) (fileName : string)
    (pieceNameTerminatorCharacters : option (list ascii))
    (spaceIsAPieceNameTerminator : bool) (chromosomePaddingSize : nat)
    (tag : list ascii) (chrMapFilename : option string)
    (altMap : option AltContigMap) (content : list ascii) (chrMap : ChrMap)
    (before : list (list ascii)) (line : list ascii) (rest : list (list ascii)) :
  fs fileName = Some content ->
  openChrMap fs chrMapFilename = inr chrMap ->
  sizesFit content chromosomePaddingSize ->
  fileLines content = before ++ line :: rest ->
  headerComesFirst false (before ++ line :: rest) = true ->
  headersResolve pieceNameTerminatorCharacters spaceIsAPieceNameTerminator
                 (Some tag) chrMapFilename chrMap before = true ->
  isHeaderLine line = true ->
  FindFASTATagValue line tag = TagAbsent ->
  exists st,
    ReadFASTAGenome fs fileName pieceNameTerminatorCharacters
      spaceIsAPieceNameTerminator chromosomePaddingSize (Some tag) chrMapFilename altMap
    = Exited st
    /\ messages st
       = messagesFrom false before
         ++ [MsgTagNotFound (cstr tag) (drop 1 (cstr line))]
    /\ Genome.bases (genome st)
       = loadData chromosomePaddingSize before ++ paddingBuffer chromosomePaddingSize
    /\ map Genome.name (Genome.contigs (genome st))
       = map (storedName pieceNameTerminatorCharacters spaceIsAPieceNameTerminator
                         (Some tag) chrMapFilename chrMap)
             (filter (fun l => isHeaderLine l = true) before).
Proof.
  intros Hfs Hmap Hfit Hlines Hfirst Hres Hheader Habsent.
  pose proof (genomeSize_exact _ _ Hfit) as Hsize.
  pose proof (length_loadData_le chromosomePaddingSize (fileLines content)) as Hle.
  rewrite concat_fileLines, Hlines, loadData_app, length_app in Hle.
  change (line :: rest) with ([line] ++ rest) in Hle.
  rewrite loadData_app, length_app in Hle.
  unfold loadData at 2 in Hle. simpl in Hle. unfold lineData in Hle.
  rewrite Hheader, app_nil_r, length_paddingBuffer in Hle.
  rewrite (ReadFASTAGenome_opened _ _ _ _ _ _ _ _ _ _ Hfs Hmap), Hlines.
  rewrite processLines_app.
  set (st0 := initialState content chromosomePaddingSize altMap).
  destruct (run_progress pieceNameTerminatorCharacters spaceIsAPieceNameTerminator
              chromosomePaddingSize (Some tag) chrMapFilename chrMap before st0)
    as [st1 Hrun].
  - simpl. rewrite Hsize. unfold sizeBound. rewrite Hlines. nia.
  - exact Hres.
  - eapply headerComesFirst_prefix; eauto.
  - rewrite Hrun.
    apply run_Continue in Hrun as (Hb & Hm & Hc & _ & Hmsg).
    simpl in Hb, Hm, Hc, Hmsg.
    cbn [processLines]. unfold processLine. rewrite Hheader.
    unfold processHeaderLine, addData. cbn [genome].
    destruct (Genome_addData_fits (genome st1) (paddingBuffer chromosomePaddingSize))
      as [g Hadd].
    { unfold strlen. rewrite cstr_paddingBuffer, length_paddingBuffer, Hb, Hm, Hsize.
      unfold sizeBound. rewrite Hlines. nia. }
    unfold withGenome. simpl.
    rewrite Hadd. unfold resolveContigName. rewrite Habsent.
    eexists. split; [reflexivity|]. simpl.
    apply Genome_addData_Some in Hadd as (Hb' & _ & Hc' & _).
    rewrite cstr_paddingBuffer in Hb'.
    rewrite Hmsg, Hb', Hb, Hc', Hc. repeat split; auto.
    apply names_contigsFrom.
Qed.

Lemma missing_tag_is_fatal_witness :
  exists st,
    ReadFASTAGenome sampleFS "genome.fa" None true 3 (Some (txt "ref")) None None
    = Exited st
    /\ messages st
       = messagesFrom false []
         ++ [MsgTagNotFound (cstr (txt "ref"))
               (drop 1 (cstr (txt ">chrI first contig" ++ [LF])))]
    /\ Genome.bases (genome st) = loadData 3 [] ++ paddingBuffer 3
    /\ map Genome.name (Genome.contigs (genome st))
       = map (storedName None true (Some (txt "ref")) None ∅)
             (filter (fun l => isHeaderLine l = true) []).
Proof.
  apply (missing_tag_is_fatal sampleFS "genome.fa" None true 3 (txt "ref") None None
           sampleFASTA ∅ [] (txt ">chrI first contig" ++ [LF])
           (skipn 1 (fileLines sampleFASTA))).
  - reflexivity.
  - reflexivity.
  - exact sample_sizesFit.
  - reflexivity.
  - reflexivity.
  - reflexivity.
  - reflexivity.
  - reflexivity.
Defined.

(** ** Names and bases *)

Lemma upTo_no_stop (stops body : list ascii) :
  forallb (fun c => negb (existsb (ascii_eqb c) stops)) (upTo stops body) = true.
Proof.
  induction body as [|c r IH]; simpl; [reflexivity|].
  destruct (existsb (ascii_eqb c) stops) eqn:E; simpl; [reflexivity|].
  rewrite E. exact IH.
Qed.

(** X10.  A free-form contig name, as stored, holds none of the configured
    terminator characters, no space or tab when these are terminators, no
    carriage return and no newline; and it is a prefix of the header text
    after the record marker. *)
Theorem free_form_name_has_no_terminator
    (pieceNameTerminatorCharacters : option (list ascii))
    (spaceIsAPieceNameTerminator : bool) (chrMapFilename : option string)
    (chrMap : ChrMap) (lineBuffer : list ascii) :
  isHeaderLine lineBuffer = true ->
  isText lineBuffer = true ->
  forallb (fun c => negb (existsb (ascii_eqb c)
                            (nameTerminators pieceNameTerminatorCharacters
                                             spaceIsAPieceNameTerminator)))
          (storedName pieceNameTerminatorCharacters spaceIsAPieceNameTerminator
                      None chrMapFilename chrMap lineBuffer) = true
  /\ exists after,
       drop 1 lineBuffer
       = storedName pieceNameTerminatorCharacters spaceIsAPieceNameTerminator
                    None chrMapFilename chrMap lineBuffer ++ after.
Proof.
  intros Hheader Htext.
  destruct lineBuffer as [|c body]; [discriminate|].
  unfold isHeaderLine, charAt in Hheader. cbn [nth] in Hheader.
  apply ascii_eqb_eq in Hheader. subst c.
  change (isText body = true) in Htext.
  assert (Hname : storedName pieceNameTerminatorCharacters spaceIsAPieceNameTerminator
                    None chrMapFilename chrMap (">"%char :: body)
                  = upTo (nameTerminators pieceNameTerminatorCharacters
                                          spaceIsAPieceNameTerminator) body).
  { unfold storedName, resolveContigName.
    rewrite nameTerminator_upTo by exact Htext.
    simpl. rewrite Nat.sub_0_r, drop_0, take_upTo.
    apply cstr_text, isText_upTo, Htext. }
  rewrite Hname. split; [apply upTo_no_stop|].
  exists (drop (length (upTo (nameTerminators pieceNameTerminatorCharacters
                                              spaceIsAPieceNameTerminator) body)) body).
  simpl. rewrite drop_0. rewrite <- take_upTo at 1. symmetry. apply take_drop.
Qed.

Lemma free_form_name_has_no_terminator_witness :
  forallb (fun c => negb (existsb (ascii_eqb c) (nameTerminators (Some (txt "_|")) true)))
          (storedName (Some (txt "_|")) true None None ∅
                      (txt ">chr7_alt|x first" ++ [LF])) = true
  /\ exists after,
       drop 1 (txt ">chr7_alt|x first" ++ [LF])
       = storedName (Some (txt "_|")) true None None ∅
                    (txt ">chr7_alt|x first" ++ [LF]) ++ after.
Proof.
  apply (free_form_name_has_no_terminator (Some (txt "_|")) true None ∅
           (txt ">chr7_alt|x first" ++ [LF])); reflexivity.
Defined.

(** The base that a character of a sequence line becomes. *)
Definition baseOf (c : ascii) : ascii :=
  if existsb (ascii_eqb c) (txt "Aa") then "A"%char
  else if existsb (ascii_eqb c) (txt "Cc") then "C"%char
  else if existsb (ascii_eqb c) (txt "Gg") then "G"%char
  else if existsb (ascii_eqb c) (txt "Tt") then "T"%char
  else if existsb (ascii_eqb c) (txt "Nn") then "n"%char
  else "N"%char.

Lemma normChar_baseOf (c : ascii) : normChar c = baseOf c.
Proof. ascii_cases c. Qed.

Lemma toupper_NUL (c : ascii) : ascii_eqb (toupper c) NUL = ascii_eqb c NUL.
Proof. ascii_cases c. Qed.

Lemma normChar_toupper (c : ascii) : normChar (toupper c) = normChar c.
Proof. ascii_cases c. Qed.

Lemma cstr_map_toupper (s : list ascii) : cstr (map toupper s) = map toupper (cstr s).
Proof.
  induction s as [|c s IH]; simpl; [reflexivity|].
  rewrite toupper_NUL. destruct (ascii_eqb c NUL); simpl; [reflexivity|].
  f_equal. exact IH.
Qed.

(** X11.  The two loops over a sequence line work character by character,
    up to the first NUL of the buffer: a, c, g and t of either case come out
    in upper case, n and N come out as n, and every other character comes
    out as N.  The length of the line is kept, and the case of the input
    letters makes no difference. *)
Theorem normalization_is_pointwise (lineBuffer : list ascii) :
  normalizeLine lineBuffer = map baseOf (cstr lineBuffer)
  /\ length (normalizeLine lineBuffer) = strlen lineBuffer
  /\ normalizeLine (map toupper lineBuffer) = normalizeLine lineBuffer.
Proof.
  split; [|split].
  - rewrite normalizeLine_eq. apply map_ext. intros c. apply normChar_baseOf.
  - rewrite normalizeLine_eq, length_map. reflexivity.
  - rewrite !normalizeLine_eq, cstr_map_toupper, map_map.
    apply map_ext. intros c. apply normChar_toupper.
Qed.

(** ** The warning, however the load ends *)

Section WarningCount.

Variable pieceNameTerminatorCharacters : option (list ascii).
Variable spaceIsAPieceNameTerminator : bool.
Variable chromosomePaddingSize : nat.
Variable chrTag : option (list ascii).
Variable chrMapFilename : option string.
Variable chrMap : ChrMap.

Local Abbreviation step :=
  (processLine pieceNameTerminatorCharacters spaceIsAPieceNameTerminator
               chromosomePaddingSize chrTag chrMapFilename chrMap).
Local Abbreviation run :=
  (processLines pieceNameTerminatorCharacters spaceIsAPieceNameTerminator
                chromosomePaddingSize chrTag chrMapFilename chrMap).

(** The flag is set exactly when the one warning has been written. *)
Definition warningFlagAgrees (st : LoaderState) : Prop :=
  length (warnedCharacters (messages st)) = if warningIssued st then 1 else 0.

Lemma resolve_message_no_warning (lineBuffer : list ascii) (m : Message) :
  resolveContigName pieceNameTerminatorCharacters spaceIsAPieceNameTerminator
    chrTag chrMapFilename chrMap lineBuffer = inl m ->
  warnedCharacters [m] = [].
Proof.
  unfold resolveContigName. destruct chrTag as [tag|]; [|discriminate].
  unfold FindFASTATagValue.
  destruct (findTagLoop _ _ _ _) as [[t|]|].
  - destruct (_ <? _); [intros [= <-]; reflexivity|].
    destruct (strchr_from _ _ _).
    + destruct chrMapFilename; [destruct (chrMap !! _)|]; discriminate.
    + intros [= <-]. reflexivity.
  - intros [= <-]. reflexivity.
  - intros [= <-]. reflexivity.
Qed.

Lemma step_keeps_flag (st : LoaderState) (lineBuffer : list ascii) :
  warningFlagAgrees st -> warningFlagAgrees (stateOf (step st lineBuffer)).
Proof.
  unfold warningFlagAgrees, processLine. intros Hst.
  destruct (isHeaderLine lineBuffer).
  - unfold processHeaderLine, addData. simpl.
    destruct (Genome.addData (genome st) (paddingBuffer chromosomePaddingSize)); simpl.
    + destruct (resolveContigName _ _ _ _ _ _) as [m|chrName] eqn:Hr; simpl;
        [|exact Hst].
      rewrite warnedCharacters_app, (resolve_message_no_warning _ _ Hr), app_nil_r.
      exact Hst.
    + rewrite warnedCharacters_app, app_nil_r. exact Hst.
  - rewrite processSequenceLine_eq. unfold sequenceLineStep, addData.
    destruct (inAContig st); simpl.
    + assert (Hline :
        length (warnedCharacters
                  (messages st ++
                   lineWarnings (warningIssued st) []
                     (map toupper (lineText lineBuffer)) (lineTail lineBuffer)))
        = if warningIssued st
               || existsb isInvalidUpper (map toupper (lineText lineBuffer))
          then 1 else 0).
      { rewrite warnedCharacters_app, length_app, Hst, warnedCharacters_lineWarnings,
                find_existsb.
        destruct (warningIssued st); simpl; [reflexivity|].
        destruct (List.find _ _); reflexivity. }
      destruct (Genome.addData _ _); simpl; [exact Hline|].
      rewrite warnedCharacters_app, length_app, Hline. simpl. lia.
    + rewrite warnedCharacters_app, app_nil_r. exact Hst.
Qed.

Lemma run_keeps_flag (lines : list (list ascii)) (st : LoaderState) :
  warningFlagAgrees st -> warningFlagAgrees (stateOf (run lines st)).
Proof.
  revert st. induction lines as [|l rest IH]; intros st Hst; simpl; [exact Hst|].
  pose proof (step_keeps_flag st l Hst) as Hstep.
  destruct (step st l) as [st1|st1]; [apply IH|]; exact Hstep.
Qed.

End WarningCount.

(** X12.  However a load ends, by returning a genome, by returning NULL or
    by a fatal exit on the way, it has written at most one invalid-base
    warning. *)
Theorem at_most_one_warning
    (fs : FileSystem) (fileName : string)
    (pieceNameTerminatorCharacters : option (list ascii))
    (spaceIsAPieceNameTerminator : bool) (chromosomePaddingSize : nat)
    (chrTag : option (list ascii)) (chrMapFilename : option string)
    (altMap : option AltContigMap) :
  length (warnedCharacters (resultMessages
    (ReadFASTAGenome fs fileName pieceNameTerminatorCharacters
       spaceIsAPieceNameTerminator chromosomePaddingSize chrTag chrMapFilename altMap)))
  <= 1.
Proof.
  unfold ReadFASTAGenome.
  destruct (fs fileName) as [content|]; [|simpl; lia].
  cbn [fmap option_fmap option_map].
  destruct (openChrMap fs chrMapFilename) as [m|chrMap] eqn:Hmap.
  { unfold openChrMap in Hmap. destruct chrMapFilename as [f|]; [|discriminate].
    destruct (fs f); [discriminate|]. injection Hmap as <-. simpl. lia. }
  pose proof (run_keeps_flag pieceNameTerminatorCharacters spaceIsAPieceNameTerminator
                chromosomePaddingSize chrTag chrMapFilename chrMap (fileLines content)
                (initialState content chromosomePaddingSize altMap) eq_refl) as Hflag.
  unfold warningFlagAgrees in Hflag.
  destruct (processLines _ _ _ _ _ _ _ _) as [st'|st']; simpl in Hflag |- *.
  - destruct (finishLoad_result chromosomePaddingSize st')
      as [[_ ->] | (_ & -> & _)].
    + rewrite Hflag. destruct (warningIssued st'); lia.
    + rewrite warnedCharacters_app, app_nil_r, Hflag.
      destruct (warningIssued st'); lia.
  - rewrite Hflag. destruct (warningIssued st'); lia.
Qed.

(** ** The lines of the remap file *)

(** A token of the remap file: not empty, and free of the delimiters of
    [strtok] and of NUL. *)
Definition cleanToken (t : list ascii) : bool :=
  negb (bool_decide (t = []))
  && forallb (fun c => negb (isDelimiter [TAB; CR; LF] c) && negb (ascii_eqb c NUL)) t.

(** The aliases of a line, each after a tab, and the newline. *)
Definition aliasText (aliases : list (list ascii)) : list ascii :=
  concat (map (fun a => TAB :: a) aliases) ++ [LF].

Lemma strtokFrom_char (delims s : list ascii) (c : ascii) (pos : nat)
    (cur : option (nat * list ascii)) :
  isDelimiter delims c = false ->
  strtokFrom delims (c :: s) pos cur
  = strtokFrom delims s (S pos)
      (Some match cur with
            | Some (start, tok) => (start, c :: tok)
            | None => (pos, [c])
            end).
Proof. intros Hc. simpl. rewrite Hc. destruct cur as [[start tok]|]; reflexivity. Qed.

Lemma strtokFrom_in_word (delims w rest : list ascii) (d : ascii)
    (pos start : nat) (acc : list ascii) :
  forallb (fun c => negb (isDelimiter delims c)) w = true ->
  isDelimiter delims d = true ->
  strtokFrom delims (w ++ d :: rest) pos (Some (start, acc))
  = (start, rev acc ++ w) :: strtokFrom delims rest (S (pos + length w)) None.
Proof.
  revert pos acc. induction w as [|c w IH]; intros pos acc Hw Hd.
  - simpl. rewrite Hd, app_nil_r, Nat.add_0_r. reflexivity.
  - simpl in Hw. apply andb_true_iff in Hw as [Hc Hw]. apply negb_true_iff in Hc.
    change ((c :: w) ++ d :: rest) with (c :: (w ++ d :: rest)).
    rewrite strtokFrom_char, IH by assumption.
    cbn [rev length]. rewrite <- app_assoc. cbn [app].
    f_equal. f_equal. lia.
Qed.

Lemma strtokFrom_word (delims w rest : list ascii) (d : ascii) (pos : nat) :
  w <> [] ->
  forallb (fun c => negb (isDelimiter delims c)) w = true ->
  isDelimiter delims d = true ->
  strtokFrom delims (w ++ d :: rest) pos None
  = (pos, w) :: strtokFrom delims rest (S (pos + length w)) None.
Proof.
  intros Hne Hw Hd. destruct w as [|c w]; [contradiction|].
  simpl in Hw. apply andb_true_iff in Hw as [Hc Hw]. apply negb_true_iff in Hc.
  change ((c :: w) ++ d :: rest) with (c :: (w ++ d :: rest)).
  rewrite strtokFrom_char, strtokFrom_in_word by assumption.
  cbn [rev length app]. f_equal. f_equal. lia.
Qed.

Lemma strtokFrom_delimiter (delims s : list ascii) (d : ascii) (pos : nat) :
  isDelimiter delims d = true ->
  strtokFrom delims (d :: s) pos None = strtokFrom delims s (S pos) None.
Proof. intros Hd. simpl. rewrite Hd. reflexivity. Qed.

Lemma cleanToken_parts (t : list ascii) :
  cleanToken t = true ->
  t <> [] /\ forallb (fun c => negb (isDelimiter [TAB; CR; LF] c)) t = true
  /\ isText t = true.
Proof.
  unfold cleanToken. intros H. apply andb_true_iff in H as [Hne Hall].
  apply negb_true_iff, bool_decide_eq_false in Hne. split; [exact Hne|].
  clear Hne. unfold isText. induction t as [|c t IH]; [auto|].
  cbn [forallb] in Hall. apply andb_true_iff in Hall as [Hc Hall].
  apply andb_true_iff in Hc as [Hc1 Hc2].
  destruct (IH Hall) as [H1 H2]. cbn [forallb]. rewrite Hc1, Hc2, H1, H2. auto.
Qed.

Lemma aliasText_starts_with_delimiter (aliases : list (list ascii)) :
  exists d rest, aliasText aliases = d :: rest /\ isDelimiter [TAB; CR; LF] d = true.
Proof.
  unfold aliasText. destruct aliases as [|a aliases]; simpl; eauto.
Qed.

Lemma isText_aliasText (aliases : list (list ascii)) :
  forallb cleanToken aliases = true -> isText (aliasText aliases) = true.
Proof.
  unfold aliasText. induction aliases as [|a aliases IH]; simpl; [reflexivity|].
  intros H. apply andb_true_iff in H as [Ha Hrest].
  apply cleanToken_parts in Ha as (_ & _ & Ha).
  unfold isText in *. rewrite <- app_assoc, forallb_app, Ha. apply IH, Hrest.
Qed.

(** The loop over the tokens, once past the start of the line: every token
    is registered as an alias of [chrom]. *)
Lemma fold_alias_tokens (aliases : list (list ascii)) :
  forall (pos : nat) (chrom : list ascii) (m : ChrMap),
    forallb cleanToken aliases = true ->
    fold_left
      (fun (acc : list ascii * ChrMap) (t : nat * list ascii) =>
         let (chrom, m) := acc in
         let (offset, token) := t in
         if offset =? 0 then (token, m) else (chrom, <[token := chrom]> m))
      (strtokFrom [TAB; CR; LF] (aliasText aliases) pos None)
      (chrom, m)
    = (chrom, foldl (fun m a => <[a := chrom]> m) m aliases).
Proof.
  induction aliases as [|a aliases IH]; intros pos chrom m Hclean.
  - reflexivity.
  - simpl in Hclean. apply andb_true_iff in Hclean as [Ha Hrest].
    apply cleanToken_parts in Ha as (Hne & Hdelim & _).
    destruct (aliasText_starts_with_delimiter aliases) as (d & rest & Hrest' & Hd).
    assert (Hstep : aliasText (a :: aliases) = TAB :: a ++ aliasText aliases).
    { unfold aliasText. simpl. rewrite <- app_assoc. reflexivity. }
    rewrite Hstep, strtokFrom_delimiter by reflexivity.
    rewrite Hrest', strtokFrom_word by assumption.
    rewrite <- (strtokFrom_delimiter [TAB; CR; LF] rest d) by exact Hd.
    rewrite <- Hrest'. cbn [fold_left]. apply IH. exact Hrest.
Qed.

Lemma lookup_foldl_insert (aliases : list (list ascii)) (chrom : list ascii) :
  forall (m : ChrMap) (k : list ascii),
    foldl (fun m a => <[a := chrom]> m) m aliases !! k
    = if bool_decide (k ∈ aliases) then Some chrom else m !! k.
Proof.
  induction aliases as [|a aliases IH]; intros m k; cbn [foldl].
  - case_bool_decide as H; [|reflexivity]. apply not_elem_of_nil in H. contradiction.
  - rewrite IH. destruct (decide (k = a)) as [->|Hne].
    + rewrite lookup_insert_eq.
      rewrite (bool_decide_eq_true_2 (a ∈ a :: aliases))
        by (apply elem_of_cons; left; reflexivity).
      destruct (bool_decide (a ∈ aliases)); reflexivity.
    + rewrite lookup_insert_ne by congruence.
      assert (Hiff : k ∈ a :: aliases <-> k ∈ aliases)
        by (rewrite elem_of_cons; tauto).
      rewrite (bool_decide_ext _ _ Hiff). reflexivity.
Qed.

Lemma charAt_app_head (a b : list ascii) : a <> [] -> charAt (a ++ b) 0 = charAt a 0.
Proof. destruct a; [contradiction|reflexivity]. Qed.

(** One line of the remap file, on any table: the first token names the
    chromosome and each further token becomes an alias of it. *)
Lemma readChrMapLine_lookup (canon : list ascii) (aliases : list (list ascii))
    (m : ChrMap) (k : list ascii) :
  cleanToken canon = true ->
  ascii_eqb (charAt canon 0) "#"%char = false ->
  forallb cleanToken aliases = true ->
  readChrMapLine m (canon ++ aliasText aliases) !! k
  = if bool_decide (k ∈ aliases) then Some canon else m !! k.
Proof.
  intros Hcanon Hhash Haliases.
  apply cleanToken_parts in Hcanon as (Hne & Hdelim & Htext).
  unfold readChrMapLine. rewrite charAt_app_head, Hhash by exact Hne.
  unfold strtok. rewrite cstr_text.
  2:{ unfold isText in *. rewrite forallb_app, Htext. apply isText_aliasText, Haliases. }
  destruct (aliasText_starts_with_delimiter aliases) as (d & rest & Hrest & Hd).
  rewrite Hrest, strtokFrom_word by assumption.
  rewrite <- (strtokFrom_delimiter [TAB; CR; LF] rest d) by exact Hd.
  rewrite <- Hrest. cbn [fold_left]. rewrite Nat.eqb_refl.
  rewrite fold_alias_tokens by exact Haliases. cbn [snd].
  apply lookup_foldl_insert.
Qed.

Lemma fileLines_line (w rest : list ascii) :
  forallb (fun c => negb (ascii_eqb c LF)) w = true ->
  fileLines (w ++ LF :: rest) = (w ++ [LF]) :: fileLines rest.
Proof.
  induction w as [|c w IH]; intros Hw.
  - reflexivity.
  - simpl in Hw. apply andb_true_iff in Hw as [Hc Hw]. apply negb_true_iff in Hc.
    cbn [app fileLines]. rewrite Hc, IH by exact Hw. reflexivity.
Qed.

Lemma cleanToken_no_LF (t : list ascii) :
  cleanToken t = true -> forallb (fun c => negb (ascii_eqb c LF)) t = true.
Proof.
  intros H. apply cleanToken_parts in H as (_ & H & _).
  induction t as [|c t IH]; [reflexivity|].
  cbn [forallb] in H |- *. apply andb_true_iff in H as [Hc Ht].
  rewrite IH by exact Ht. rewrite andb_true_r.
  unfold isDelimiter in Hc. cbn [existsb] in Hc.
  destruct (ascii_eqb c LF); [|reflexivity].
  rewrite !orb_true_r in Hc. discriminate.
Qed.

(** An entry of the remap file: the canonical name, then its aliases. *)
Definition remapEntryLine (e : list ascii * list (list ascii)) : list ascii :=
  fst e ++ aliasText (snd e).

Definition cleanEntry (e : list ascii * list (list ascii)) : bool :=
  cleanToken (fst e) && negb (ascii_eqb (charAt (fst e) 0) "#"%char)
  && forallb cleanToken (snd e).

Lemma remapEntryLine_split (e : list ascii * list (list ascii)) :
  cleanEntry e = true ->
  exists w, remapEntryLine e = w ++ [LF]
            /\ forallb (fun c => negb (ascii_eqb c LF)) w = true.
Proof.
  unfold cleanEntry, remapEntryLine, aliasText. intros H.
  apply andb_true_iff in H as [H Haliases]. apply andb_true_iff in H as [Hcanon _].
  exists (fst e ++ concat (map (fun a => TAB :: a) (snd e))).
  split; [rewrite <- app_assoc; reflexivity|].
  rewrite forallb_app, (cleanToken_no_LF _ Hcanon). simpl.
  induction (snd e) as [|a aliases IH]; [reflexivity|].
  cbn [forallb] in Haliases. apply andb_true_iff in Haliases as [Ha Hrest].
  cbn [map concat]. change ((TAB :: a) ++ ?x) with (TAB :: (a ++ x)).
  cbn [forallb]. rewrite forallb_app, (cleanToken_no_LF _ Ha), IH by exact Hrest.
  reflexivity.
Qed.

Lemma fileLines_entries (entries : list (list ascii * list (list ascii))) :
  forallb cleanEntry entries = true ->
  fileLines (concat (map remapEntryLine entries)) = map remapEntryLine entries.
Proof.
  induction entries as [|e entries IH]; [reflexivity|].
  cbn [forallb map concat]. intros H. apply andb_true_iff in H as [He Hrest].
  destruct (remapEntryLine_split e He) as (w & Hw & Hno).
  rewrite Hw, <- app_assoc. cbn [app]. rewrite fileLines_line by exact Hno.
  rewrite IH by exact Hrest. reflexivity.
Qed.

Lemma find_last_snoc {A : Type} (P : A -> bool) (l : list A) (x : A) :
  List.find P (rev (l ++ [x]))
  = if P x then Some x else List.find P (rev l).
Proof. rewrite rev_app_distr. reflexivity. Qed.

Lemma fold_readChrMapLine_lookup (entries : list (list ascii * list (list ascii)))
    (k : list ascii) :
  forall m : ChrMap,
    forallb cleanEntry entries = true ->
    fold_left readChrMapLine (map remapEntryLine entries) m !! k
    = match List.find (fun e => bool_decide (k ∈ snd e)) (rev entries) with
      | Some e => Some (fst e)
      | None => m !! k
      end.
Proof.
  induction entries as [|e entries IH] using rev_ind; intros m Hclean.
  - reflexivity.
  - rewrite forallb_app in Hclean. apply andb_true_iff in Hclean as [Hrest He].
    cbn [forallb] in He. rewrite andb_true_r in He.
    rewrite map_app, fold_left_app. cbn [map fold_left].
    rewrite find_last_snoc.
    unfold cleanEntry in He. apply andb_true_iff in He as [He Haliases].
    apply andb_true_iff in He as [Hcanon Hhash]. apply negb_true_iff in Hhash.
    unfold remapEntryLine at 2.
    rewrite readChrMapLine_lookup by assumption.
    destruct (bool_decide (k ∈ snd e)); [reflexivity|]. apply IH, Hrest.
Qed.

(** X14.  A remap file made of lines "name, tab, alias, tab, alias ..."
    maps each alias to the name that starts its line; an alias listed on
    several lines goes by the last of them; a name that is not listed as an
    alias is not a key of the table, the names that start the lines
    included. *)
Theorem readChrMap_lookup (entries : list (list ascii * list (list ascii)))
    (k : list ascii) :
  forallb cleanEntry entries = true ->
  readChrMap (concat (map remapEntryLine entries)) !! k
  = fst <$> List.find (fun e => bool_decide (k ∈ snd e)) (rev entries).
Proof.
  intros Hclean. unfold readChrMap.
  rewrite fileLines_entries, fold_readChrMapLine_lookup by exact Hclean.
  destruct (List.find _ _); [reflexivity|apply lookup_empty].
Qed.

Lemma readChrMap_lookup_witness :
  readChrMap (concat (map remapEntryLine
                [(txt "chr1", [txt "chrI"; txt "1"]); (txt "chrM", [txt "MT"; txt "1"])]))
    !! txt "1"
  = fst <$> List.find (fun e => bool_decide (txt "1" ∈ snd e))
              (rev [(txt "chr1", [txt "chrI"; txt "1"]);
                    (txt "chrM", [txt "MT"; txt "1"])]).
Proof.
  apply (readChrMap_lookup
           [(txt "chr1", [txt "chrI"; txt "1"]); (txt "chrM", [txt "MT"; txt "1"])]
           (txt "1")).
  reflexivity.
Defined.

(** X15.  A line of the remap file that starts with a tab has no token at
    the start of the buffer, so no token is taken as the chromosome name:
    every token of the line becomes an alias of the empty name.  A blank
    line and a line that starts with # leave the table as it is. *)
Theorem readChrMapLine_without_name (aliases : list (list ascii))
    (m : ChrMap) (k : list ascii) :
  forallb cleanToken aliases = true ->
  readChrMapLine m (aliasText aliases) !! k
  = (if bool_decide (k ∈ aliases) then Some [] else m !! k)
  /\ readChrMapLine m [LF] = m
  /\ (forall text, readChrMapLine m ("#"%char :: text) = m).
Proof.
  intros Haliases. split; [|split].
  - unfold readChrMapLine.
    destruct (aliasText_starts_with_delimiter aliases) as (d & rest & Hrest & Hd).
    assert (Hhash : ascii_eqb (charAt (aliasText aliases) 0) "#"%char = false).
    { unfold aliasText. destruct aliases; reflexivity. }
    rewrite Hhash. unfold strtok.
    rewrite cstr_text by (apply isText_aliasText, Haliases).
    rewrite fold_alias_tokens by exact Haliases. cbn [snd].
    apply lookup_foldl_insert.
  - reflexivity.
  - intros text. reflexivity.
Qed.

Lemma readChrMapLine_without_name_witness :
  readChrMapLine (∅ : ChrMap) (aliasText [txt "chrI"; txt "1"]) !! txt "1"
  = (if bool_decide (txt "1" ∈ [txt "chrI"; txt "1"]) then Some [] else (∅ : ChrMap) !! txt "1")
  /\ readChrMapLine (∅ : ChrMap) [LF] = (∅ : ChrMap)
  /\ (forall text, readChrMapLine (∅ : ChrMap) ("#"%char :: text) = (∅ : ChrMap)).
Proof.
  apply (readChrMapLine_without_name [txt "chrI"; txt "1"] (∅ : ChrMap) (txt "1")).
  reflexivity.
Defined.

(** ** The alt-contig collaborator *)

Section AltMapNotifications.

Variable pieceNameTerminatorCharacters : option (list ascii).
Variable spaceIsAPieceNameTerminator : bool.
Variable chromosomePaddingSize : nat.
Variable chrTag : option (list ascii).
Variable chrMapFilename : option string.
Variable chrMap : ChrMap.

Local Abbreviation step :=
  (processLine pieceNameTerminatorCharacters spaceIsAPieceNameTerminator
               chromosomePaddingSize chrTag chrMapFilename chrMap).
Local Abbreviation run :=
  (processLines pieceNameTerminatorCharacters spaceIsAPieceNameTerminator
                chromosomePaddingSize chrTag chrMapFilename chrMap).
Local Abbreviation resolve :=
  (resolveContigName pieceNameTerminatorCharacters spaceIsAPieceNameTerminator
                     chrTag chrMapFilename chrMap).

(** What [addFastaContig] is called with for the header lines of a file:
    the line and the name it resolves to, after the remap if there is one. *)
Definition notifications (lines : list (list ascii)) : list (list ascii * list ascii) :=
  map (fun l => (cstr l, match resolve l with inr chrName => chrName | inl _ => [] end))
      (filter (fun l => isHeaderLine l = true) lines).

Definition notified (extra : list (list ascii * list ascii)) (a : AltContigMap)
  : AltContigMap :=
  {| fastaContigs := fastaContigs a ++ extra |}.

Lemma notified_nil (a : option AltContigMap) : notified [] <$> a = a.
Proof.
  destruct a as [[fc]|]; [|reflexivity]. unfold notified. simpl.
  rewrite app_nil_r. reflexivity.
Qed.

Lemma notified_notified (x y : list (list ascii * list ascii)) (a : option AltContigMap) :
  notified y <$> (notified x <$> a) = notified (x ++ y) <$> a.
Proof.
  destruct a as [[fc]|]; [|reflexivity]. unfold notified. simpl.
  rewrite app_assoc. reflexivity.
Qed.

Lemma step_altMap (st st' : LoaderState) (lineBuffer : list ascii) :
  step st lineBuffer = Continue st' ->
  altMap st' = notified (notifications [lineBuffer]) <$> altMap st.
Proof.
  unfold processLine, notifications. rewrite filter_cons, filter_nil.
  destruct (isHeaderLine lineBuffer) eqn:Hh.
  - rewrite decide_True by reflexivity.
    unfold processHeaderLine, addData. simpl.
    destruct (Genome.addData (genome st) (paddingBuffer chromosomePaddingSize));
      [|discriminate].
    simpl. destruct (resolve lineBuffer) as [m|chrName]; [discriminate|].
    intros [= <-]. simpl. destruct (altMap st) as [[fc]|]; reflexivity.
  - rewrite decide_False by discriminate.
    rewrite processSequenceLine_eq. unfold sequenceLineStep, addData.
    destruct (inAContig st); [|discriminate]. simpl.
    destruct (Genome.addData _ _); [|discriminate].
    intros [= <-]. simpl. symmetry. apply notified_nil.
Qed.

Lemma notifications_cons (l : list ascii) (lines : list (list ascii)) :
  notifications (l :: lines) = notifications [l] ++ notifications lines.
Proof.
  unfold notifications. rewrite !filter_cons, filter_nil.
  destruct (decide (isHeaderLine l = true)); reflexivity.
Qed.

Lemma run_altMap (lines : list (list ascii)) (st st' : LoaderState) :
  run lines st = Continue st' ->
  altMap st' = notified (notifications lines) <$> altMap st.
Proof.
  revert st. induction lines as [|l rest IH]; intros st; simpl.
  - intros [= <-]. symmetry. apply notified_nil.
  - destruct (step st l) as [st1|st1] eqn:E; [|discriminate].
    intros Hrun. apply IH in Hrun. apply step_altMap in E.
    rewrite Hrun, E, notified_notified, <- notifications_cons. reflexivity.
Qed.

End AltMapNotifications.

(** X16.  A load that returns a genome has told the alt-contig map, when
    there is one, each header line once and in file order, with the name
    as resolved: in tag mode that is the name after the remap, not the raw
    tag value.  Sequence lines tell it nothing, and without a map there
    is none at the end either. *)
Theorem altMap_is_told_each_header
    (fs : FileSystem) (fileName : string)
    (pieceNameTerminatorCharacters : option (list ascii))
    (spaceIsAPieceNameTerminator : bool) (chromosomePaddingSize : nat)
    (chrTag : option (list ascii)) (chrMapFilename : option string)
    (altMap0 : option AltContigMap) (content : list ascii) (chrMap : ChrMap)
    (g : Genome.t) (a : option AltContigMap) (msgs : list Message) :
  fs fileName = Some content ->
  openChrMap fs chrMapFilename = inr chrMap ->
  ReadFASTAGenome fs fileName pieceNameTerminatorCharacters
    spaceIsAPieceNameTerminator chromosomePaddingSize chrTag chrMapFilename altMap0
  = Loaded g a msgs ->
  a = notified
        (notifications pieceNameTerminatorCharacters spaceIsAPieceNameTerminator
                       chrTag chrMapFilename chrMap (fileLines content))
      <$> altMap0.
Proof.
  intros Hfs Hmap Hload.
  rewrite (ReadFASTAGenome_opened _ _ _ _ _ _ _ _ _ _ Hfs Hmap) in Hload.
  destruct (processLines _ _ _ _ _ _ _ _) as [st'|st'] eqn:Hrun; [|discriminate].
  apply run_altMap in Hrun. simpl in Hrun.
  unfold finishLoad in Hload.
  destruct (addData st' (paddingBuffer chromosomePaddingSize)) as [st2|st2] eqn:Hadd;
    [|discriminate].
  injection Hload as _ <- _.
  unfold addData in Hadd. destruct (Genome.addData _ _); [|discriminate].
  injection Hadd as <-. simpl. exact Hrun.
Qed.

Definition taggedFASTA : list ascii :=
  txt ">gi|123|ref|chrI|" ++ [LF] ++ txt "AC" ++ [LF].

Definition taggedFS : FileSystem :=
  fun f => if String.eqb f "genome.fa" then Some taggedFASTA else Some sampleChrMap.

Definition taggedLoad : LoadResult :=
  ReadFASTAGenome taggedFS "genome.fa" None true 3 (Some (txt "ref"))
    (Some "chr.map"%string) (Some {| fastaContigs := [] |}).

Definition taggedGenome : Genome.t :=
  Eval vm_compute in
    match taggedLoad with
    | Loaded g _ _ => g
    | _ => Genome.create 0 0 0 0
    end.

Definition taggedAltMap : option AltContigMap :=
  Eval vm_compute in
    match taggedLoad with
    | Loaded _ a _ => a
    | _ => None
    end.

Lemma altMap_is_told_each_header_witness :
  taggedAltMap
  = notified
      (notifications None true (Some (txt "ref")) (Some "chr.map"%string)
         (readChrMap sampleChrMap) (fileLines taggedFASTA))
    <$> Some {| fastaContigs := [] |}.
Proof.
  apply (altMap_is_told_each_header taggedFS "genome.fa" None true 3 (Some (txt "ref"))
           (Some "chr.map"%string) (Some {| fastaContigs := [] |})
           taggedFASTA (readChrMap sampleChrMap) taggedGenome taggedAltMap []).
  - reflexivity.
  - reflexivity.
  - vm_compute. reflexivity.
Defined.

Example altMap_is_told_the_remapped_name :
  fastaContigs <$> taggedAltMap
  = Some [(txt ">gi|123|ref|chrI|" ++ [LF], txt "chr1")].
Proof. reflexivity. Qed.

(** ** Line wrapping *)

Lemma lineText_line (a : list ascii) :
  isText a = true ->
  forallb (fun c => negb (ascii_eqb c LF)) a = true ->
  lineText (a ++ [LF]) = a.
Proof.
  induction a as [|c a IH]; intros Htext Hlf; [reflexivity|].
  cbn [isText forallb] in Htext, Hlf.
  apply andb_true_iff in Htext as [Hc Htext]. apply negb_true_iff in Hc.
  apply andb_true_iff in Hlf as [Hc' Hlf]. apply negb_true_iff in Hc'.
  cbn [app lineText]. rewrite Hc, Hc'. cbn [orb]. f_equal. apply IH; assumption.
Qed.

(** X17.  The genome depends on the sequence lines of a contig through
    their concatenation only.  A sequence line may be split in two without
    changing the sequence of its contig, and two files whose contigs have
    the same names and the same joined sequences load to the same bases,
    with the contigs at the same locations. *)
Theorem loading_ignores_line_wrapping
    (fs1 fs2 : FileSystem) (fileName : string)
    (pieceNameTerminatorCharacters : option (list ascii))
    (spaceIsAPieceNameTerminator : bool) (chromosomePaddingSize : nat)
    (chrTag : option (list ascii)) (chrMapFilename : option string)
    (altMap1 altMap2 : option AltContigMap) (content1 content2 : list ascii)
    (chrMap : ChrMap) (g1 g2 : Genome.t) (a1 a2 : option AltContigMap)
    (msgs1 msgs2 : list Message) :
  fs1 fileName = Some content1 ->
  fs2 fileName = Some content2 ->
  openChrMap fs1 chrMapFilename = inr chrMap ->
  openChrMap fs2 chrMapFilename = inr chrMap ->
  ReadFASTAGenome fs1 fileName pieceNameTerminatorCharacters
    spaceIsAPieceNameTerminator chromosomePaddingSize chrTag chrMapFilename altMap1
  = Loaded g1 a1 msgs1 ->
  ReadFASTAGenome fs2 fileName pieceNameTerminatorCharacters
    spaceIsAPieceNameTerminator chromosomePaddingSize chrTag chrMapFilename altMap2
  = Loaded g2 a2 msgs2 ->
  inputContigs pieceNameTerminatorCharacters spaceIsAPieceNameTerminator chrTag
               chrMapFilename chrMap (fileLines content1)
  = inputContigs pieceNameTerminatorCharacters spaceIsAPieceNameTerminator chrTag
                 chrMapFilename chrMap (fileLines content2) ->
  (Genome.bases g1 = Genome.bases g2
   /\ map nameAndStart (Genome.contigs g1) = map nameAndStart (Genome.contigs g2))
  /\ (forall a b rest,
        isText (a ++ b) = true ->
        forallb (fun c => negb (ascii_eqb c LF)) (a ++ b) = true ->
        isHeaderLine (a ++ [LF]) = false ->
        isHeaderLine (b ++ [LF]) = false ->
        contigBody ((a ++ [LF]) :: (b ++ [LF]) :: rest)
        = contigBody ((a ++ b ++ [LF]) :: rest)).
Proof.
  intros Hfs1 Hfs2 Hmap1 Hmap2 Hload1 Hload2 Hsame. split.
  - destruct (Loaded_layout _ _ _ _ _ _ _ _ _ _ g1 a1 msgs1 Hfs1 Hmap1 Hload1)
      as [Hb1 Hc1].
    destruct (Loaded_layout _ _ _ _ _ _ _ _ _ _ g2 a2 msgs2 Hfs2 Hmap2 Hload2)
      as [Hb2 Hc2].
    rewrite Hb1, Hb2, Hc1, Hc2, Hsame. auto.
  - intros a b rest Htext Hlf Ha Hb.
    unfold isText in Htext. rewrite forallb_app in Htext, Hlf.
    apply andb_true_iff in Htext as [Hta Htb].
    apply andb_true_iff in Hlf as [Hla Hlb].
    assert (Hab : isHeaderLine (a ++ b ++ [LF]) = false).
    { destruct a as [|c a]; [exact Hb|exact Ha]. }
    cbn [contigBody]. rewrite Ha, Hb, Hab.
    rewrite (lineText_line a), (lineText_line b) by assumption.
    rewrite (app_assoc a b [LF]), (lineText_line (a ++ b))
      by (unfold isText; rewrite forallb_app;
          first [rewrite Hta, Htb | rewrite Hla, Hlb]; reflexivity).
    rewrite map_app, <- app_assoc. reflexivity.
Qed.

Definition rewrappedFASTA : list ascii :=
  txt ">chrI" ++ [LF] ++ txt "acgtNZzzA" ++ [LF]
  ++ txt ">gi|123|ref|XYZ.1|" ++ [LF] ++ txt "A" ++ [LF] ++ txt "CGT".

Definition rewrappedGenome : Genome.t :=
  Eval vm_compute in
    match ReadFASTAGenome (fun _ => Some rewrappedFASTA) "genome.fa" None true 3
            None None None with
    | Loaded g _ _ => g
    | _ => Genome.create 0 0 0 0
    end.

Definition rewrappedMessages : list Message :=
  Eval vm_compute in
    resultMessages (ReadFASTAGenome (fun _ => Some rewrappedFASTA) "genome.fa"
                      None true 3 None None None).

Lemma loading_ignores_line_wrapping_witness :
  Genome.bases sampleGenome = Genome.bases rewrappedGenome
  /\ map nameAndStart (Genome.contigs sampleGenome)
     = map nameAndStart (Genome.contigs rewrappedGenome).
Proof.
  apply (loading_ignores_line_wrapping sampleFS (fun _ => Some rewrappedFASTA)
           "genome.fa" None true 3 None None None None sampleFASTA rewrappedFASTA ∅
           sampleGenome rewrappedGenome None None sampleMessages rewrappedMessages).
  - reflexivity.
  - reflexivity.
  - reflexivity.
  - reflexivity.
  - vm_compute. reflexivity.
  - vm_compute. reflexivity.
  - vm_compute. reflexivity.
Defined.
